(** * nao-looking-and-pointing: the interaction controller and the rosbag analysis

    A shallow embedding of [src/hri_interaction.py] (class
    [InteractionController]) and of [src/analysis/parseRosbags.py]
    (function [system_validation]), with the properties of the
    specification stated over it.

    Conventions of the embedding:
    - Python floats (coordinates, clock readings, score totals) are exact
      rationals [Qc]; rounding is not modelled.
    - a Python [dict] is a [gmap]; [d[k]] on a missing key raises [KeyError].
    - an exception is the [Raise] outcome of [result]; the store reached
      when the exception was raised is kept beside it.
    - the robot, the camera, the operating system and the NVB model are
      collaborators outside the two source files; what the controller asks
      of them is recorded in a trace of [Effect]s. *)

From Stdlib Require Import ZArith QArith Qcanon Lia Lqa Permutation Ascii String.
From stdpp Require Import gmap strings list fin_maps numbers.

Local Open Scope Z_scope.

(** ** Exceptions and outcomes *)

Inductive exn : Type :=
| KeyError
| IndexError
| AssertionError
| AttributeError
| IOError
| OSError
| TypeError.

Inductive result (A : Type) : Type :=
| Ok (a : A)
| Raise (e : exn).
Arguments Ok {A} a.
Arguments Raise {A} e.

#[global] Instance exn_eq_dec : EqDecision exn.
Proof. solve_decision. Defined.

(** The next statement runs when the one before has not raised. *)
Definition and_then {A B} (r : result A) (k : A -> result B) : result B :=
  match r with
  | Ok a => k a
  | Raise e => Raise e
  end.

Notation "'try*' x := r 'in' k" := (and_then r (fun x => k))
  (at level 10, x pattern, r at level 100, k at level 200).

(** ** Numbers *)

(** The rational with numerator [n] and denominator [d]. *)
Definition ratio (n : Z) (d : positive) : Qc := Q2Qc (n # d).

Definition Qc_ltb (x y : Qc) : bool := bool_decide (x < y)%Qc.

(** ** Python sequences *)

(** [l[i]] for a constant index [i >= 0]. *)
Definition getitem {A} (l : list A) (i : nat) : result A :=
  match l !! i with
  | Some x => Ok x
  | None => Raise IndexError
  end.

(** ** hri_interaction.py *)

Module Hri.

(** The four nonverbal behaviours, the strings ['none'], ['look'],
    ['point'] and ['lookandpoint'] of the source. *)
Inductive Action : Type := none | look | point | lookandpoint.

#[global] Instance Action_eq_dec : EqDecision Action.
Proof. solve_decision. Defined.

(** [lego.Lego], as the controller constructs and reads it:
    [Lego(idnum, loc, color_upper, color_lower, words)]. The descriptor
    words are a sequence of strings; the empty string [''] the sensor
    callback passes has length zero and is the empty sequence here. *)
Record Lego : Type := mkLego {
  idnum : Z;
  loc : list Qc;
  color_upper : list Z;
  color_lower : list Z;
  words : list string
}.

#[global] Instance Lego_eq_dec : EqDecision Lego.
Proof. solve_decision. Defined.

Definition set_loc (o : Lego) (p : list Qc) : Lego :=
  mkLego (idnum o) p (color_upper o) (color_lower o) (words o).

Definition set_words (o : Lego) (w : list string) : Lego :=
  mkLego (idnum o) (loc o) (color_upper o) (color_lower o) w.

(** *** ROS messages *)

(** [ObjectsInfo]: [object_id], [pos], [color_upper], [color_lower]. *)
Record ObjectsInfo : Type := mkObjectsInfo {
  oi_object_id : Z;
  oi_pos : list Qc;
  oi_color_upper : list Z;
  oi_color_lower : list Z
}.

(** [GazePointInfo]: [type], [target_id], [scores]. *)
Record GazePointInfo : Type := mkGazePointInfo {
  gp_type : string;
  gp_target_id : Z;
  gp_scores : list Qc
}.

(** [ScriptObjectRef]: [object_id], [words]. *)
Record ScriptObjectRef : Type := mkScriptObjectRef {
  ref_object_id : Z;
  ref_words : string
}.

(** *** What the controller asks of its collaborators *)

Inductive Level : Type := Debug | Info | Warn | Err.

Inductive Arg : Type :=
| AInt (n : Z)
| AStr (s : string)
| AAct (a : Action).

Inductive Effect : Type :=
| Log (lvl : Level) (fmt : string) (args : list Arg)
| Speak (prompt : string) (blocking : bool)
| DoGesture (act : Action) (target : list Qc) (blocking : option bool)
| Stand
| StartIdle
| RobotShutdown
| ReadScript (script : string) (interruption : option bool)
| FileWrite (idn : Z) (act : Action)
| CameraRead (cameraID : Z)
| CalculateSaliency
| CalculateNVB (target_id : Z) (words_list : list string)
| Ps (ppid : Z)
| Kill (pid : Z)
| Terminate (pid : Z)
| Sleep (d : Qc).

(** A process as [ps] lists it: its parent, and whether it is defunct
    (signalled, not yet reaped by its parent). *)
Record Proc : Type := mkProc { ppid : Z; defunct : bool }.

(** The world outside the controller: the clock [time()] reads, the trace
    of requests made so far (oldest first), the frame the user-view camera
    holds (if any), the process table, the time the robot or the script
    reader takes over a request, and the numbers [random] will draw. *)
Record World : Type := mkWorld {
  clock : Qc;
  trace : list Effect;
  camera : option Z;
  procs : gmap Z Proc;
  latency : Effect -> Qc;
  random : nat -> nat;
  drawn : nat
}.

(** The attributes of [self]. [saliency_scores] and [rosbags] are assigned
    late ([__init__]'s last line, the recording thread), so they can be
    unset: reading an unset attribute raises [AttributeError]. *)
Record Controller : Type := mkController {
  userID : Z;
  objdict : gmap Z Lego;
  nvb : bool;
  interrupt : bool;
  hriScript : string;
  validationScript : string;
  gazescores : gmap Z (list Qc);
  pointscores : gmap Z (list Qc);
  saliency_scores : option (gmap Z Qc);
  rosbags : option Z
}.

Record Session : Type := mkSession { self : Controller; world : World }.

Definition set_objdict (c : Controller) (d : gmap Z Lego) : Controller :=
  mkController (userID c) d (nvb c) (interrupt c) (hriScript c)
    (validationScript c) (gazescores c) (pointscores c) (saliency_scores c)
    (rosbags c).

Definition set_gazescores (c : Controller) (g : gmap Z (list Qc)) : Controller :=
  mkController (userID c) (objdict c) (nvb c) (interrupt c) (hriScript c)
    (validationScript c) g (pointscores c) (saliency_scores c) (rosbags c).

Definition set_pointscores (c : Controller) (p : gmap Z (list Qc)) : Controller :=
  mkController (userID c) (objdict c) (nvb c) (interrupt c) (hriScript c)
    (validationScript c) (gazescores c) p (saliency_scores c) (rosbags c).

Definition set_saliency_scores (c : Controller) (sal : gmap Z Qc) : Controller :=
  mkController (userID c) (objdict c) (nvb c) (interrupt c) (hriScript c)
    (validationScript c) (gazescores c) (pointscores c) (Some sal) (rosbags c).

Definition set_clock (w : World) (t : Qc) : World :=
  mkWorld t (trace w) (camera w) (procs w) (latency w) (random w) (drawn w).

Definition set_trace (w : World) (tr : list Effect) : World :=
  mkWorld (clock w) tr (camera w) (procs w) (latency w) (random w) (drawn w).

Definition set_procs (w : World) (ps : gmap Z Proc) : World :=
  mkWorld (clock w) (trace w) (camera w) ps (latency w) (random w) (drawn w).

Definition set_drawn (w : World) (n : nat) : World :=
  mkWorld (clock w) (trace w) (camera w) (procs w) (latency w) (random w) n.

(** *** The monad of controller code: a store and exceptions *)

Definition M (A : Type) : Type := Session -> result A * Session.

Definition ret {A} (a : A) : M A := fun s => (Ok a, s).

Definition raise {A} (e : exn) : M A := fun s => (Raise e, s).

Definition bind {A B} (m : M A) (k : A -> M B) : M B :=
  fun s => match m s with
           | (Ok a, s') => k a s'
           | (Raise e, s') => (Raise e, s')
           end.

Notation "'let*' x := m 'in' k" := (bind m (fun x => k))
  (at level 10, x pattern, m at level 100, k at level 200).
Notation "m ;; k" := (bind m (fun _ => k))
  (at level 100, k at level 200, right associativity).

(** [for a in l: body], and the same loop carrying a value. *)
Fixpoint for_each {A} (l : list A) (body : A -> M unit) : M unit :=
  match l with
  | [] => ret tt
  | a :: l' => body a ;; for_each l' body
  end.

Fixpoint fold_each {A B} (l : list A) (acc : B) (body : B -> A -> M B) : M B :=
  match l with
  | [] => ret acc
  | a :: l' => let* acc' := body acc a in fold_each l' acc' body
  end.

(** [try: m except: ...]: the outcome of [m] as a value. *)
Definition attempt {A} (m : M A) : M (result A) :=
  fun s => let (r, s') := m s in (Ok r, s').

Definition lift {A} (r : result A) : M A := fun s => (r, s).

Definition assert_ (b : bool) : M unit :=
  if b then ret tt else raise AssertionError.

Definition get_self : M Controller := fun s => (Ok (self s), s).

Definition put_self (c : Controller) : M unit :=
  fun s => (Ok tt, mkSession c (world s)).

Definition get_world : M World := fun s => (Ok (world s), s).

Definition put_world (w : World) : M unit :=
  fun s => (Ok tt, mkSession (self s) w).

(** Record a request in the trace. *)
Definition emit (e : Effect) : M unit :=
  let* w := get_world in put_world (set_trace w (trace w ++ [e])).

(** A request the robot or the script reader takes some time over: the
    call returns [latency] later. *)
Definition request (e : Effect) : M unit :=
  emit e ;;
  let* w := get_world in
  put_world (set_clock w (clock w + latency w e)%Qc).

Definition log (lvl : Level) (fmt : string) (args : list Arg) : M unit :=
  emit (Log lvl fmt args).

(** [time()]. *)
Definition time : M Qc := let* w := get_world in ret (clock w).

(** [sleep(d)]: a negative length is refused with an error, as
    [time.sleep] does. *)
Definition sleep (d : Qc) : M unit :=
  if Qc_ltb d (ratio 0 1) then raise IOError
  else emit (Sleep d) ;;
       let* w := get_world in put_world (set_clock w (clock w + d)%Qc).

(** [d[k]] on a dictionary. *)
Definition dict_getitem {V} (d : gmap Z V) (k : Z) : result V :=
  match d !! k with
  | Some v => Ok v
  | None => Raise KeyError
  end.

(** *** Frame conditions *)

(** [m] relates the controller before and after by [R] and adds to the
    trace only requests that satisfy [P], whatever its outcome. *)
Definition respects (R : Controller -> Controller -> Prop)
    (P : Effect -> bool) {A} (m : M A) : Prop :=
  forall s,
    R (self s) (self (m s).2)
    /\ exists tr, trace (world (m s).2) = trace (world s) ++ tr
                  /\ forallb P tr = true.

(** *** convertCoords *)

(** The displacement of the origin, [[0, -0.4, 0]]. *)
Definition originTranslationVector : list Qc :=
  [ratio 0 1; ratio (-4) 10; ratio 0 1].

Definition convertCoords (kinectCoords : list Qc) : result (list Qc) :=
  try* k2 := getitem kinectCoords 2 in
  try* o2 := getitem originTranslationVector 2 in
  let x := (k2 - o2)%Qc in
  try* k0 := getitem kinectCoords 0 in
  try* o0 := getitem originTranslationVector 0 in
  let y := (k0 - o0)%Qc in
  try* k1 := getitem kinectCoords 1 in
  try* o1 := getitem originTranslationVector 1 in
  let z := (k1 - o1)%Qc in
  Ok [x; y; z].

(** The map back from the robot frame to the sensor frame; it is not in the
    source and only states what inverts [convertCoords]: the axes are
    permuted back and the offset is added. *)
Definition robotToSensor (naoCoords : list Qc) : result (list Qc) :=
  try* x := getitem naoCoords 0 in
  try* y := getitem naoCoords 1 in
  try* z := getitem naoCoords 2 in
  try* o0 := getitem originTranslationVector 0 in
  try* o1 := getitem originTranslationVector 1 in
  try* o2 := getitem originTranslationVector 2 in
  Ok [(y + o0)%Qc; (z + o1)%Qc; (x + o2)%Qc].

(** *** gazepointInfoCallback *)

Definition gazepointInfoCallback (data : GazePointInfo) : M unit :=
  if String.eqb (gp_type data) "gaze" then
    let* c := get_self in
    put_self (set_gazescores c (<[gp_target_id data := gp_scores data]> (gazescores c)))
  else if String.eqb (gp_type data) "point" then
    let* c := get_self in
    put_self (set_pointscores c (<[gp_target_id data := gp_scores data]> (pointscores c)))
  else
    log Err "Unrecognized type in GazePointInfo message: " [AStr (gp_type data)].

(** *** waitForGazePointScores *)

(** The loop condition [self.gazescores and self.pointscores]: a
    dictionary is true when it is not empty. *)
Definition scores_arrived (c : Controller) : bool :=
  bool_decide (gazescores c ≠ ∅) && bool_decide (pointscores c ≠ ∅).

(** One test of the loop condition: [true] when the loop is left, and
    otherwise one [sleep(1.0)] of the loop body. *)
Definition waitForGazePointScores_poll : M bool :=
  let* c := get_self in
  if scores_arrived c then ret true
  else sleep (ratio 1 1) ;; ret false.

(** The [sleep(1.0)] after the loop. *)
Definition waitForGazePointScores_settle : M unit := sleep (ratio 1 1).

(** *** objectsInfoCallback *)

Definition objectsInfoCallback (objectMsg : ObjectsInfo) : M unit :=
  let obj_id := oi_object_id objectMsg in
  let* obj_pos := lift (convertCoords (oi_pos objectMsg)) in
  let* c := get_self in
  match objdict c !! obj_id with
  | Some o =>
    if bool_decide (obj_pos = loc o) then ret tt
    else put_self (set_objdict c (<[obj_id := set_loc o obj_pos]> (objdict c)))
  | None =>
    let o := mkLego obj_id obj_pos (oi_color_upper objectMsg)
               (oi_color_lower objectMsg) [] in
    put_self (set_objdict c (<[obj_id := o]> (objdict c))) ;;
    log Debug "Adding new object (id %d) to object list" [AInt obj_id]
  end.

(** What one update does to the registry, case by case. *)
Definition upsert_cases (m : ObjectsInfo) (s s' : Session) (pos : list Qc) : Prop :=
  let id := oi_object_id m in
  match objdict (self s) !! id with
  | Some o =>
    (pos = loc o -> s' = s)
    /\ (pos <> loc o ->
        objdict (self s') = <[id := set_loc o pos]> (objdict (self s)))
  | None =>
    objdict (self s')
    = <[id := mkLego id pos (oi_color_upper m) (oi_color_lower m) []]>
        (objdict (self s))
  end.

(** A run of updates, delivered one after the other. *)
Definition objectsInfoCallbacks (msgs : list ObjectsInfo) : M unit :=
  for_each msgs objectsInfoCallback.

(** The last update of a run that names [id]. *)
Fixpoint last_update (id : Z) (msgs : list ObjectsInfo) : option ObjectsInfo :=
  match msgs with
  | [] => None
  | m :: rest =>
    match last_update id rest with
    | Some m' => Some m'
    | None => if bool_decide (oi_object_id m = id) then Some m else None
    end
  end.

(** *** findNVBForRef *)

(** A character of the class [[\w']]: a letter, a digit, the underscore or
    the apostrophe. *)
Definition is_word_char (ch : ascii) : bool :=
  let n := nat_of_ascii ch in
  ((48 <=? n) && (n <=? 57) || (65 <=? n) && (n <=? 90)
   || (97 <=? n) && (n <=? 122) || (n =? 95) || (n =? 39))%nat.

Definition flush (cur : string) : list string :=
  match cur with
  | EmptyString => []
  | _ => [cur]
  end.

(** [re.findall(r"[\w']+", s)]: the maximal runs of such characters, from
    left to right; [cur] is the run being read. *)
Fixpoint findall_from (cur : string) (s : string) : list string :=
  match s with
  | EmptyString => flush cur
  | String ch rest =>
    if is_word_char ch then findall_from (cur +:+ String ch EmptyString) rest
    else flush cur ++ findall_from EmptyString rest
  end.

Definition findall_words (s : string) : list string := findall_from EmptyString s.

Section Model.

(** Modelled from the spec: [NVBModel.calculateNVBForRef] of [nvbModel.py],
    which is not among the sources. The specification leaves the scoring
    formula open and fixes only that it is a function of the saliency map,
    the target, the registry, the word tokens and the two score stores
    into the four actions. *)
Variable scoring :
  gmap Z Qc -> Z -> gmap Z Lego -> list string ->
  gmap Z (list Qc) -> gmap Z (list Qc) -> Action.

(** Modelled from the spec: [NVBModel.calculateSaliencyScores] of
    [nvbModel.py]: one deterministic pass over the known objects,
    producing one score per object from one frame. *)
Variable saliency_of : Z -> gmap Z Lego -> gmap Z Qc.

(** Modelled from the spec: the selector fails closed with a not-found
    error when the target is absent from the registry, and otherwise
    produces exactly one action. *)
Definition calculateNVBForRef (sal : gmap Z Qc) (target_id : Z)
    (objs : gmap Z Lego) (words_list : list string)
    (gaze point_ : gmap Z (list Qc)) : M Action :=
  emit (CalculateNVB target_id words_list) ;;
  match objs !! target_id with
  | None => raise KeyError
  | Some _ => ret (scoring sal target_id objs words_list gaze point_)
  end.

Definition calculateSaliencyScores (frame : Z) (objs : gmap Z Lego)
    : M (gmap Z Qc) :=
  emit CalculateSaliency ;; ret (saliency_of frame objs).

(** The arguments of the call are read from [self] from left to right:
    [self.saliency_scores] first. The source has no comma between
    [words_list] and [self.gazescores]; the call is read with it, as the
    six-argument call the line spells out. *)
Definition findNVBForRef (target_id : Z) (words_spoken : string) : M Action :=
  log Info "Finding NVB for reference to object %d" [AInt target_id] ;;
  let words_list := findall_words words_spoken in
  let* c := get_self in
  match saliency_scores c with
  | None => raise AttributeError
  | Some sal =>
    calculateNVBForRef sal target_id (objdict c) words_list
      (gazescores c) (pointscores c)
  end.

(** *** precomputeSaliencyScores, and the last line of [__init__] *)

Definition precomputeSaliencyScores (cameraID : Z) : M (gmap Z Qc) :=
  log Warn "Precomputing saliency scores. This might take a moment." [] ;;
  log Info "Connecting to participant view camera." [] ;;
  emit (CameraRead cameraID) ;;
  let* w := get_world in
  match camera w with
  | None => raise IOError
  | Some frame =>
    let* c := get_self in
    let* sal := calculateSaliencyScores frame (objdict c) in
    log Info "Saved participant view to ./userview.jpg" [] ;;
    ret sal
  end.

Definition init_saliency_scores : M unit :=
  let* sal := precomputeSaliencyScores 0 in
  let* c := get_self in
  put_self (set_saliency_scores c sal).

(** *** objectRefCallback *)

Definition objectRefCallback (objectRefMsg : ScriptObjectRef) : M unit :=
  log Info "Script object reference received: %d, %s"
    [AInt (ref_object_id objectRefMsg); AStr (ref_words objectRefMsg)] ;;
  let target_id := ref_object_id objectRefMsg in
  let* c := get_self in
  let* found := attempt (lift (dict_getitem (objdict c) target_id)) in
  match found with
  | Raise KeyError =>
    log Err "No object with ID %d in objects dictionary, object reference fails"
      [AInt target_id]
  | Raise e => raise e
  | Ok _ =>
    let words_spoken := ref_words objectRefMsg in
    let* o := lift (dict_getitem (objdict c) target_id) in
    let target_loc := loc o in
    let* action_type :=
      (if nvb c then findNVBForRef target_id words_spoken else ret none) in
    log Info "Proposed action: %s" [AAct action_type] ;;
    request (DoGesture action_type target_loc None)
  end.

(** *** actOutReference *)

(** The requests of [actOutReference] and the length it passes to [sleep]. *)
Definition actOutReference_waittime (prompt : string) (action : Action)
    (location : list Qc) : M Qc :=
  let* starttime := time in
  let totaltime := (starttime + ratio 5 1)%Qc in
  request (Speak prompt false) ;;
  request (DoGesture action location (Some false)) ;;
  let* now := time in
  let waittime := (totaltime - now)%Qc in
  ret waittime.

Definition actOutReference (prompt : string) (action : Action)
    (location : list Qc) : M unit :=
  let* waittime := actOutReference_waittime prompt action location in
  sleep waittime.

(** The time the two requests of [actOutReference] take. *)
Definition dispatch_overhead (prompt : string) (action : Action)
    (location : list Qc) (w : World) : Qc :=
  (latency w (Speak prompt false)
   + latency w (DoGesture action location (Some false)))%Qc.

(** *** systemValidation *)

(** An element of [action_list]: [(act, obj.loc, words)]. *)
Definition Entry : Type := Action * list Qc * string.

Definition all_actions : list Action := [none; look; point; lookandpoint].

(** The inner loop: one [append] per action. *)
Definition append_actions (action_list : list Entry) (obj : Lego)
    (word : string) : list Entry :=
  foldl (fun acc act => acc ++ [(act, loc obj, word)]) action_list all_actions.

(** The body of the loop over [self.objdict.values()]; a line written to
    the file of correct actions is a [FileWrite] request. *)
Definition validation_row (action_list : list Entry) (obj : Lego)
    : M (list Entry) :=
  let idn := idnum obj in
  assert_ (0 <? length (words obj))%nat ;;
  let* word := lift (getitem (words obj) 0) in
  let* correct_act := findNVBForRef idn word in
  emit (FileWrite idn correct_act) ;;
  ret (append_actions action_list obj word).

Definition buildActionList : M (list Entry) :=
  let* c := get_self in
  fold_each (map_to_list (objdict c)).*2 [] validation_row.

(** [int(random() * n)]: the next number drawn, below [n]. *)
Definition random_below (n : nat) : M nat :=
  let* w := get_world in
  put_world (set_drawn w (S (drawn w))) ;;
  ret (random w (drawn w) mod n)%nat.

(** [x[i], x[j] = x[j], x[i]]. *)
Definition swap {A} (x : list A) (i j : nat) : result (list A) :=
  match x !! j, x !! i with
  | Some xj, Some xi => Ok (<[j := xi]> (<[i := xj]> x))
  | _, _ => Raise IndexError
  end.

(** [random.shuffle]: for [i] from [len(x) - 1] down to [1], exchange
    [x[i]] with [x[j]] for a [j] drawn below [i + 1]. *)
Fixpoint shuffle_down {A} (i : nat) (x : list A) : M (list A) :=
  match i with
  | O => ret x
  | S i' =>
    let* j := random_below (S i) in
    let* x' := lift (swap x i j) in
    shuffle_down i' x'
  end.

Definition random_shuffle {A} (x : list A) : M (list A) :=
  shuffle_down (length x - 1) x.

Definition systemValidation : M unit :=
  let* action_list := buildActionList in
  let* action_list := random_shuffle action_list in
  let* c := get_self in
  request (ReadScript (validationScript c) None) ;;
  for_each action_list (fun action =>
    let '(act, location, word) := action in
    let prompt := "Touch the " +:+ word +:+ " block." in
    actOutReference prompt act location).

(** The element of [action_list] built for an action and an object. *)
Definition entry_of (p : Action * Lego) : Entry :=
  (p.1, loc p.2, default EmptyString (head (words p.2))).

(** The pairs of an action and an object, object by object. *)
Definition action_pairs (objs : list Lego) : list (Action * Lego) :=
  flat_map (fun o => map (fun a => (a, o)) all_actions) objs.

(** *** startup *)

(** [self.objdict[k].words = w]. *)
Definition assign_words (k : Z) (w : list string) : M unit :=
  let* c := get_self in
  let* o := lift (dict_getitem (objdict c) k) in
  put_self (set_objdict c (<[k := set_words o w]> (objdict c))).

Definition startup : M unit :=
  request Stand ;;
  sleep (ratio 5 1) ;;
  request StartIdle ;;
  let* c := get_self in
  assert_ (size (objdict c) =? 6)%nat ;;
  assign_words 0 ["small red"] ;;
  assign_words 1 ["large orange"] ;;
  assign_words 2 ["small yellow"] ;;
  assign_words 3 ["large lime"] ;;
  assign_words 4 ["small green"] ;;
  assign_words 5 ["large blue"].

(** *** shutdown *)

(** The processes [ps --ppid p] selects. *)
Definition children_of (ps : gmap Z Proc) (p : Z) : list Z :=
  (map_to_list (filter (fun kv => ppid kv.2 = p) ps)).*1.

(** [ps -o pid --ppid p --noheaders]: the selected processes, and the exit
    status of [ps]: 0 when it selected a process and 1 when it selected
    none. *)
Definition ps_ppid (p : Z) : M (list Z * Z) :=
  emit (Ps p) ;;
  let* w := get_world in
  let ps_output := children_of (procs w) p in
  ret (ps_output, match ps_output with [] => 1 | _ => 0 end).

(** A signalled process stops running and stays in the table, defunct,
    until its parent reaps it. *)
Definition signalled (ps : gmap Z Proc) (p : Z) : gmap Z Proc :=
  alter (fun q => mkProc (ppid q) true) p ps.

(** When a process exits, its defunct children are reaped and its running
    children are handed to process 1. *)
Definition orphan (p : Z) (q : Proc) : option Proc :=
  if bool_decide (ppid q = p)
  then (if defunct q then None else Some (mkProc 1 false))
  else Some q.

(** [os.kill(pid, signal.SIGKILL)]; it returns [None]. *)
Definition os_kill (pid : Z) : M unit :=
  emit (Kill pid) ;;
  let* w := get_world in
  match procs w !! pid with
  | None => raise OSError
  | Some _ => put_world (set_procs w (signalled (procs w) pid))
  end.

(** [Popen.terminate()]: the signal is sent, the process exits and waits,
    defunct, for the controller to reap it. *)
Definition popen_terminate (pid : Z) : M unit :=
  emit (Terminate pid) ;;
  let* w := get_world in
  match procs w !! pid with
  | None => raise OSError
  | Some _ => put_world (set_procs w (signalled (omap (orphan pid) (procs w)) pid))
  end.

Definition shutdown : M unit :=
  log Warn "Shutting down..." [] ;;
  request RobotShutdown ;;
  log Info "Ending rosbag recording" [] ;;
  let* c := get_self in
  match rosbags c with
  | None => raise AttributeError
  | Some rosbags_pid =>
    let* ps_command := ps_ppid rosbags_pid in
    let ps_output := ps_command.1 in
    let retcode := ps_command.2 in
    assert_ (retcode =? 0) ;;
    for_each ps_output (fun pid =>
      os_kill pid ;;
      log Info "Kill rosbag child nodes returned: %s" [AStr "None"]) ;;
    popen_terminate rosbags_pid ;;
    log Info "Terminating rosbag parent process returned: %s" [AStr "None"]
  end.

(** *** main *)

Definition main : M unit :=
  startup ;;
  systemValidation ;;
  request StartIdle ;;
  (let* c := get_self in
   request (ReadScript (hriScript c) (Some (interrupt c)))) ;;
  shutdown.

(** *** The session: the main thread and the subscriber callbacks *)

(** Where the main thread stands: in the loop of [waitForGazePointScores],
    at the [sleep] after it, at the last line of [__init__], at each call of
    [main], at interpreter exit (the [atexit] handler is still to run), and
    gone. *)
Inductive Phase : Type :=
| Waiting | Settling | Precomputing | Constructed | Started | Validated
| Scripting | Exiting | Exited.

#[global] Instance Phase_eq_dec : EqDecision Phase.
Proof. solve_decision. Defined.

Record Machine : Type := mkMachine { phase : Phase; session : Session }.

(** A message delivered to a subscriber, or the main thread's next move. *)
Inductive Event : Type :=
| ObjectsInfoMsg (m : ObjectsInfo)
| GazePointInfoMsg (m : GazePointInfo)
| ScriptObjectRefMsg (m : ScriptObjectRef)
| MainThread.

(** An exception in the main thread ends it: the interpreter exits. *)
Definition advance {A} (ok : Phase) (r : result A * Session) : Machine :=
  match r with
  | (Ok _, s) => mkMachine ok s
  | (Raise _, s) => mkMachine Exiting s
  end.

Definition step_main (mc : Machine) : Machine :=
  let s := session mc in
  match phase mc with
  | Waiting =>
    match waitForGazePointScores_poll s with
    | (Ok true, s') => mkMachine Settling s'
    | (Ok false, s') => mkMachine Waiting s'
    | (Raise _, s') => mkMachine Exiting s'
    end
  | Settling => advance Precomputing (waitForGazePointScores_settle s)
  | Precomputing => advance Constructed (init_saliency_scores s)
  | Constructed => advance Started (startup s)
  | Started => advance Validated (systemValidation s)
  | Validated =>
    advance Scripting
      ((request StartIdle ;;
        let* c := get_self in
        request (ReadScript (hriScript c) (Some (interrupt c)))) s)
  | Scripting => mkMachine Exiting (shutdown s).2
  | Exiting => mkMachine Exited (shutdown s).2
  | Exited => mc
  end.

(** A callback runs on the store as it is; an exception it raises is
    reported by the middleware and the session goes on. *)
Definition deliver (callback : M unit) (mc : Machine) : Machine :=
  match phase mc with
  | Exited => mc
  | ph => mkMachine ph (callback (session mc)).2
  end.

Definition step (mc : Machine) (ev : Event) : Machine :=
  match ev with
  | ObjectsInfoMsg m => deliver (objectsInfoCallback m) mc
  | GazePointInfoMsg m => deliver (gazepointInfoCallback m) mc
  | ScriptObjectRefMsg m => deliver (objectRefCallback m) mc
  | MainThread => step_main mc
  end.

Definition run (mc : Machine) (evs : list Event) : Machine := foldl step mc evs.

(** The main thread enters [waitForGazePointScores]: [saliency_scores] is
    not assigned yet. *)
Definition entering_wait (mc : Machine) : Prop :=
  phase mc = Waiting /\ saliency_scores (self (session mc)) = None.

(** The requests a step adds to the trace. *)
Definition requests_of (mc : Machine) (ev : Event) : list Effect :=
  drop (length (trace (world (session mc))))
       (trace (world (session (step mc ev)))).

(** A call of the model: the selection itself
    ([NVBModel.calculateNVBForRef]) or the saliency computation
    ([NVBModel.calculateSaliencyScores]). The entry of [findNVBForRef],
    which comes before the call, is [enters_findNVBForRef]. *)
Definition is_selection (e : Effect) : bool :=
  match e with
  | CalculateNVB _ _ | CalculateSaliency => true
  | _ => false
  end.

(** The first statement of [findNVBForRef]: the function has been
    entered. *)
Definition enters_findNVBForRef (e : Effect) : bool :=
  match e with
  | Log Info fmt _ => String.eqb fmt "Finding NVB for reference to object %d"
  | _ => false
  end.

(** A request sent to the robot. *)
Definition is_robot_action (e : Effect) : bool :=
  match e with
  | Speak _ _ | DoGesture _ _ _ | Stand | StartIdle | RobotShutdown => true
  | _ => false
  end.

(** The action [systemValidation] records as correct for an object. *)
Definition correct_act (c : Controller) (o : Lego) : Action :=
  match saliency_scores c with
  | Some sal =>
    scoring sal (idnum o) (objdict c)
      (findall_words (default EmptyString (head (words o))))
      (gazescores c) (pointscores c)
  | None => none
  end.

(** The requests of one turn of the loop of [systemValidation]. *)
Definition row_requests (c : Controller) (o : Lego) : list Effect :=
  [Log Info "Finding NVB for reference to object %d" [AInt (idnum o)];
   CalculateNVB (idnum o)
     (findall_words (default EmptyString (head (words o))));
   FileWrite (idnum o) (correct_act c o)].

(** The action [objectRefCallback] proposes: the selector's when nonverbal
    behavior is on, ['none'] when it is off. *)
Definition proposed (s : Session) (m : ScriptObjectRef) : Action :=
  match nvb (self s), saliency_scores (self s) with
  | true, Some sal =>
    scoring sal (ref_object_id m) (objdict (self s))
      (findall_words (ref_words m)) (gazescores (self s))
      (pointscores (self s))
  | _, _ => none
  end.

(** Requests that do not go to the robot. *)
Definition quiet (e : Effect) : bool := negb (is_robot_action e).

End Model.

(** *** Relations between the controller before and after, and kinds of
    requests *)

(** Any request. *)
Definition any (e : Effect) : bool := true.

(** Any request but a run of the selector or of the saliency computation. *)
Definition no_selection (e : Effect) : bool := negb (is_selection e).

(** The score stores and the saliency scores are the same. *)
Definition same_scores (c c' : Controller) : Prop :=
  gazescores c' = gazescores c /\ pointscores c' = pointscores c
  /\ saliency_scores c' = saliency_scores c.

(** A score store that holds a record still holds one. *)
Definition scores_stay (c c' : Controller) : Prop :=
  (gazescores c <> ∅ -> gazescores c' <> ∅)
  /\ (pointscores c <> ∅ -> pointscores c' <> ∅).

(** The object at [k] is the same. *)
Definition same_at (k : Z) (c c' : Controller) : Prop :=
  objdict c' !! k = objdict c !! k.

(** While the main thread waits the saliency scores are unassigned; once
    it has left the loop both score stores hold a record. *)
Definition waiting_inv (mc : Machine) : Prop :=
  (phase mc = Waiting -> saliency_scores (self (session mc)) = None)
  /\ (phase mc <> Waiting ->
      gazescores (self (session mc)) <> ∅
      /\ pointscores (self (session mc)) <> ∅).

(** The scripts, the interrupt flag and the recording process are the
    same. *)
Definition same_setup (c c' : Controller) : Prop :=
  hriScript c' = hriScript c /\ interrupt c' = interrupt c
  /\ rosbags c' = rosbags c.

(** The session after one [sleep(d)]. *)
Definition slept (s : Session) (d : Qc) : Session :=
  mkSession (self s)
    (set_clock (set_trace (world s) (trace (world s) ++ [Sleep d]))
       (clock (world s) + d)%Qc).

(** *** Frame conditions on the world *)

(** [m] relates the world before and after by [W], whatever its outcome. *)
Definition world_respects (W : World -> World -> Prop) {A} (m : M A) : Prop :=
  forall s, W (world s) (world (m s).2).

(** Relations that hold whatever is written to the trace, to the clock, to
    the count of numbers drawn. *)
Definition trace_closed (W : World -> World -> Prop) : Prop :=
  forall w tr, W w (set_trace w tr).

Definition clock_closed (W : World -> World -> Prop) : Prop :=
  forall w t, W w (set_clock w t).

Definition drawn_closed (W : World -> World -> Prop) : Prop :=
  forall w n, W w (set_drawn w n).

(** The clock and the time the robot takes are the same. *)
Definition same_time (w w' : World) : Prop :=
  clock w' = clock w /\ latency w' = latency w.

(** The time the robot takes is the same. *)
Definition same_latency (w w' : World) : Prop := latency w' = latency w.

(** The process table is the same. *)
Definition same_procs (w w' : World) : Prop := procs w' = procs w.

(** *** Words *)

(** A string of characters of the class [[\w']] only. *)
Fixpoint all_word_chars (t : string) : bool :=
  match t with
  | EmptyString => true
  | String ch rest => is_word_char ch && all_word_chars rest
  end.

(** *** Readings of the trace *)

(** The gestures of the validation phase, oldest first. *)
Definition gestured (tr : list Effect) : list (Action * list Qc) :=
  omap (fun e => match e with
                 | DoGesture a l (Some false) => Some (a, l)
                 | _ => None
                 end) tr.

(** The lines written to the file of correct actions, oldest first. *)
Definition written (tr : list Effect) : list (Z * Action) :=
  omap (fun e => match e with
                 | FileWrite i a => Some (i, a)
                 | _ => None
                 end) tr.

(** *** initializeObjects *)

(** The three hard-coded test objects, stored under their [idnum]. *)
Definition initializeObjects : M unit :=
  let o1 := mkLego 1 [ratio 0 1; ratio 0 1; ratio 0 1] [255; 40; 40]
              [200; 0; 0] ["small"; "red"; "cube"] in
  let o2 := mkLego 2 [ratio 1 2; ratio 1 2; ratio 0 1] [40; 255; 40]
              [0; 100; 0] ["small"; "green"; "cube"] in
  let o3 := mkLego 3 [ratio 1 1; ratio 0 1; ratio 0 1] [40; 40; 255]
              [0; 0; 100] ["large"; "blue"; "block"] in
  (let* c := get_self in
   put_self (set_objdict c (<[idnum o1 := o1]> (objdict c)))) ;;
  (let* c := get_self in
   put_self (set_objdict c (<[idnum o2 := o2]> (objdict c)))) ;;
  (let* c := get_self in
   put_self (set_objdict c (<[idnum o3 := o3]> (objdict c)))).

(** *** Runs of messages, and what they leave *)

(** A run of score messages, delivered one after the other. *)
Definition gazepointInfoCallbacks (msgs : list GazePointInfo) : M unit :=
  for_each msgs gazepointInfoCallback.

(** The scores of the last message of a run with type [ty] and target
    [id]. *)
Fixpoint last_scores (ty : string) (id : Z) (msgs : list GazePointInfo)
    : option (list Qc) :=
  match msgs with
  | [] => None
  | m :: rest =>
    match last_scores ty id rest with
    | Some x => Some x
    | None =>
      if String.eqb (gp_type m) ty && bool_decide (gp_target_id m = id)
      then Some (gp_scores m) else None
    end
  end.

(** The registry is keyed by [idnum]. *)
Definition keyed (c : Controller) : Prop :=
  forall k o, objdict c !! k = Some o -> idnum o = k.

(** Every object is still there, with its ID, its colors and its words;
    a registry keyed by [idnum] still is. *)
Definition registry_extends (c c' : Controller) : Prop :=
  (keyed c -> keyed c')
  /\ forall k o, objdict c !! k = Some o ->
       exists o', objdict c' !! k = Some o' /\ idnum o' = idnum o
                  /\ color_upper o' = color_upper o
                  /\ color_lower o' = color_lower o /\ words o' = words o.

(** The words [startup] assigns. *)
Definition startup_words (k : Z) : option (list string) :=
  if bool_decide (k = 0) then Some ["small red"]
  else if bool_decide (k = 1) then Some ["large orange"]
  else if bool_decide (k = 2) then Some ["small yellow"]
  else if bool_decide (k = 3) then Some ["large lime"]
  else if bool_decide (k = 4) then Some ["small green"]
  else if bool_decide (k = 5) then Some ["large blue"]
  else None.

(** An object after [startup]. *)
Definition started (k : Z) (o : Lego) : Lego :=
  match startup_words k with
  | Some w => set_words o w
  | None => o
  end.

(** *** Sessions and requests the properties speak of *)

(** The session once the robot stands and idles: the first three
    statements of [startup]. *)
Definition stood (s : Session) : Session :=
  (request StartIdle (slept (request Stand s).2 (ratio 5 1))).2.

(** The IDs [startup] expects. *)
Definition six_ids : gset Z := list_to_set [0; 1; 2; 3; 4; 5].

(** The session with [tr] added to the trace. *)
Definition traced (s : Session) (tr : list Effect) : Session :=
  mkSession (self s) (set_trace (world s) (trace (world s) ++ tr)).

(** The loop that acts the list out. *)
Definition act_out (action_list : list Entry) : M unit :=
  for_each action_list (fun action =>
    let '(act, location, word) := action in
    let prompt := "Touch the " +:+ word +:+ " block." in
    actOutReference prompt act location).

(** The requests of [shutdown] before it signals a process. *)
Definition shutdown_prologue (pid : Z) : list Effect :=
  [Log Warn "Shutting down..." []; RobotShutdown;
   Log Info "Ending rosbag recording" []; Ps pid].


(** The main thread is past the last line of [__init__]. *)
Definition past_init (ph : Phase) : bool :=
  match ph with
  | Waiting | Settling | Precomputing => false
  | _ => true
  end.

End Hri.

(** ** analysis/parseRosbags.py *)

Module Rosbags.

(** A message of one of the three topics read from the bag. *)
Inductive Msg : Type :=
| script_status (data : string)
| robot_behavior (object_id : Z) (action : string)
| human_behavior (target : list Z) (effector : list string).

(** The variables of [system_validation]: the trackers and the totals. *)
Record Vars : Type := mkVars {
  start_time : option Qc;
  target_obj : option Z;
  nvb_action : option string;
  total_actions : gmap string Qc;
  accuracy : gmap string Qc;
  responsetime : gmap string Qc
}.

Definition action_list : list string := ["none"; "look"; "point"; "lookandpoint"].

Definition t_window : Qc := ratio 4 1.

(** [dict((act, 0.0) for act in action_list)]. *)
Definition zeros : gmap string Qc :=
  list_to_map (map (fun act => (act, ratio 0 1)) action_list).

Definition initial : Vars := mkVars None None None zeros zeros zeros.

(** How one turn of the loop ends. *)
Inductive Turn : Type :=
| Continue (v : Vars)
| Break (v : Vars)
| Raised (e : exn) (v : Vars).

Definition vars_of (r : Turn) : Vars :=
  match r with Continue v | Break v | Raised _ v => v end.

(** The branch of a robot behavior: the trackers are set, then the count of
    the action is incremented. *)
Definition on_robot_behavior (v : Vars) (t : Qc) (object_id : Z)
    (action : string) : Turn :=
  let v1 := mkVars (Some t) (Some object_id) (Some action)
              (total_actions v) (accuracy v) (responsetime v) in
  match total_actions v1 !! action with
  | None => Raised KeyError v1
  | Some n =>
    Continue (mkVars (start_time v1) (target_obj v1) (nvb_action v1)
                (<[action := (n + ratio 1 1)%Qc]> (total_actions v1))
                (accuracy v1) (responsetime v1))
  end.

(** A successful touch: the totals of the tracked action grow, the
    trackers are reset. *)
Definition credit (v : Vars) (t : Qc) : Turn :=
  match nvb_action v with
  | None => Raised AssertionError v
  | Some a =>
    if bool_decide (a ∈ action_list) then
      match accuracy v !! a with
      | None => Raised KeyError v
      | Some n =>
        let v1 := mkVars (start_time v) (target_obj v) (nvb_action v)
                    (total_actions v)
                    (<[a := (n + ratio 1 1)%Qc]> (accuracy v)) (responsetime v) in
        match start_time v1 with
        | None => Raised TypeError v1
        | Some t0 =>
          let touch_time := (t - t0)%Qc in
          match responsetime v1 !! a with
          | None => Raised KeyError v1
          | Some r =>
            Continue
              (mkVars None None None (total_actions v1) (accuracy v1)
                 (<[a := (r + touch_time)%Qc]> (responsetime v1)))
          end
        end
      end
    else Raised AssertionError v
  end.

(** [for i in range(len(objlist))], over the indices [idxs] still to visit. *)
Fixpoint touches (v : Vars) (t : Qc) (objlist : list Z)
    (effectorlist : list string) (idxs : list nat) : Turn :=
  match idxs with
  | [] => Continue v
  | i :: idxs' =>
    match effectorlist !! i with
    | None => Raised IndexError v
    | Some eff =>
      if String.eqb eff "leftarm" || String.eqb eff "rightarm" then
        match objlist !! i with
        | None => Raised IndexError v
        | Some touch_obj =>
          if bool_decide (Some touch_obj = target_obj v) then credit v t
          else touches v t objlist effectorlist idxs'
        end
      else touches v t objlist effectorlist idxs'
    end
  end.

(** The branch of a human behavior; the guard reads [t - start_time] only
    when [target_obj] is set. *)
Definition on_human_behavior (v : Vars) (t : Qc) (objlist : list Z)
    (effectorlist : list string) : Turn :=
  match target_obj v with
  | None => Continue v
  | Some _ =>
    match start_time v with
    | None => Raised TypeError v
    | Some t0 =>
      if Qc_ltb (t - t0) t_window then
        if negb (0 <? length objlist)%nat then Raised AssertionError v
        else if negb (length objlist =? length effectorlist)%nat
        then Raised AssertionError v
        else touches v t objlist effectorlist (seq 0 (length objlist))
      else Continue v
    end
  end.

(** The body of the loop over the messages. *)
Definition turn (v : Vars) (m : Msg) (t : Qc) : Turn :=
  match m with
  | script_status data =>
    if String.eqb data "HRIConstruction" then Break v else Continue v
  | robot_behavior object_id action => on_robot_behavior v t object_id action
  | human_behavior target effector => on_human_behavior v t target effector
  end.

(** The loop: the variables when it ends, by exhaustion, [break] or an
    exception. *)
Fixpoint read_messages (v : Vars) (bag : list (Msg * Qc)) : Turn :=
  match bag with
  | [] => Continue v
  | (m, t) :: bag' =>
    match turn v m t with
    | Continue v' => read_messages v' bag'
    | stop => stop
    end
  end.

(** The totals [system_validation] prints as raw data. *)
Definition system_validation (bag : list (Msg * Qc)) : Turn :=
  read_messages initial bag.

(** Whether a touch of the target is still to be credited to action [a]. *)
Definition pending (v : Vars) (a : string) : Qc :=
  if bool_decide (nvb_action v = Some a) then ratio 1 1 else ratio 0 1.

(** No action is credited with more touches than it has behaviors, counting
    the touch that may still come. *)
Definition within_total (v : Vars) : Prop :=
  forall a x y, accuracy v !! a = Some x -> total_actions v !! a = Some y ->
                (x + pending v a <= y)%Qc.

(** The accuracy count of an action does not exceed its total count. *)
Definition accuracy_le_total (v : Vars) : Prop :=
  forall a x y, accuracy v !! a = Some x -> total_actions v !! a = Some y ->
                (x <= y)%Qc.

(** The variables after the touch at time [t] is credited to action [a],
    tracked since [t0], whose totals were [n] and [r]. *)
Definition credited (v : Vars) (a : string) (n r t0 t : Qc) : Vars :=
  mkVars None None None (total_actions v)
    (<[a := (n + ratio 1 1)%Qc]> (accuracy v))
    (<[a := (r + (t - t0))%Qc]> (responsetime v)).




(** What a turn leaves: the invariant when the loop goes on or is left by
    [break], the bound itself when an exception ends it. *)
Definition turn_ok (r : Turn) : Prop :=
  match r with
  | Continue v' | Break v' => within_total v'
  | Raised _ v' => accuracy_le_total v'
  end.

(** *** The averages *)

(** What [system_validation] returns: the two data strings, here the
    numbers they list after the participant's ID, or the exception that
    ends it. *)
Inductive Report : Type :=
| Averages (accuracy_data rt_data : list Qc)
| ZeroDivisionError
| Uncaught (e : exn).

(** The loop over [action_list] that divides the totals. *)
Fixpoint average (v : Vars) (actions : list string)
    (accuracy_data rt_data : list Qc) : Report :=
  match actions with
  | [] => Averages accuracy_data rt_data
  | action :: rest =>
    match accuracy v !! action, total_actions v !! action with
    | Some x, Some n =>
      if bool_decide (n = ratio 0 1) then ZeroDivisionError
      else
        match responsetime v !! action with
        | Some r =>
          average v rest (accuracy_data ++ [(x / n)%Qc])
            (rt_data ++ [(r / n)%Qc])
        | None => Uncaught KeyError
        end
    | _, _ => Uncaught KeyError
    end
  end.

(** The whole function: the loop over the messages, then the averages. *)
Definition system_validation_report (bag : list (Msg * Qc)) : Report :=
  match system_validation bag with
  | Continue v | Break v => average v action_list [] []
  | Raised e _ => Uncaught e
  end.

(** *** Readings of a stream *)

(** The messages before the first script status ['HRIConstruction']. *)
Fixpoint before_break (bag : list (Msg * Qc)) : list (Msg * Qc) :=
  match bag with
  | [] => []
  | (script_status data, t) :: rest =>
    if String.eqb data "HRIConstruction" then []
    else (script_status data, t) :: before_break rest
  | mt :: rest => mt :: before_break rest
  end.

(** The number of robot behaviors with action [a]. *)
Fixpoint behaviors (a : string) (bag : list (Msg * Qc)) : nat :=
  match bag with
  | [] => 0
  | (robot_behavior _ action, _) :: rest =>
    (if String.eqb action a then 1 else 0) + behaviors a rest
  | _ :: rest => behaviors a rest
  end.

(** The time stamps do not decrease, from [t0] on. *)
Fixpoint chronological_from (t0 : Qc) (bag : list (Msg * Qc)) : Prop :=
  match bag with
  | [] => True
  | (_, t) :: rest => (t0 <= t)%Qc /\ chronological_from t rest
  end.

Definition chronological (bag : list (Msg * Qc)) : Prop :=
  match bag with
  | [] => True
  | (_, t) :: rest => chronological_from t rest
  end.

(** The response time of an action is at most the window times its
    accuracy count. *)
Definition within_window (v : Vars) : Prop :=
  forall a x r, accuracy v !! a = Some x -> responsetime v !! a = Some r ->
                (r <= t_window * x)%Qc.

(** No total is negative, and the tracked start is not after [lb]. *)
Definition nonnegative (lb : Qc) (v : Vars) : Prop :=
  (forall a r, responsetime v !! a = Some r -> (ratio 0 1 <= r)%Qc)
  /\ (forall t0, start_time v = Some t0 -> (t0 <= lb)%Qc).

(** The loop ended by exhaustion or by [break]. *)
Definition ended (r : Turn) : Prop :=
  match r with Continue _ | Break _ => True | Raised _ _ => False end.

(** The keys of the two totals a human behavior writes are kept. *)
Definition has_totals (a : string) (v : Vars) : Prop :=
  is_Some (accuracy v !! a) /\ is_Some (responsetime v !! a).

(** The averages of accuracy are at most 1, those of the response time at
    most the window. *)
Definition bounded (accuracy_data rt_data : list Qc) : Prop :=
  Forall (fun x => (x <= ratio 1 1)%Qc) accuracy_data
  /\ Forall (fun r => (r <= t_window)%Qc) rt_data.

End Rosbags.

(** ** Sample sessions *)

Module Samples.

Import Hri.

(** A stand-in for the scoring of the NVB model. *)
Definition scoring (sal : gmap Z Qc) (target_id : Z) (objs : gmap Z Lego)
    (words_list : list string) (gaze point_ : gmap Z (list Qc)) : Action :=
  match gaze !! target_id, point_ !! target_id with
  | Some _, Some _ => if (length words_list <=? 1)%nat then look else point
  | _, _ => lookandpoint
  end.

(** A stand-in for the saliency computation. *)
Definition saliency_of (frame : Z) (objs : gmap Z Lego) : gmap Z Qc :=
  (fun _ => ratio 1 2) <$> objs.

Definition brick (id : Z) (w : list string) : Lego :=
  mkLego id [ratio id 1; ratio 1 2; ratio 0 1] [255; 40; 40] [200; 0; 0] w.

(** The six objects of the experiment, after [startup]. *)
Definition bricks : gmap Z Lego :=
  list_to_map
    [(0, brick 0 ["small red"]); (1, brick 1 ["large orange"]);
     (2, brick 2 ["small yellow"]); (3, brick 3 ["large lime"]);
     (4, brick 4 ["small green"]); (5, brick 5 ["large blue"])].

(** The same with a seventh object as the sensor callback inserts it. *)
Definition bricks_and_stray : gmap Z Lego := <[6 := brick 6 []]> bricks.

Definition scores : gmap Z (list Qc) :=
  {[0 := [ratio 9 10; ratio 1 20; ratio 1 20]]}.

Definition controller (objs : gmap Z Lego) : Controller :=
  mkController 7 objs true true "hri.txt" "validation.txt" scores scores
    (Some (saliency_of 1 objs)) (Some 100).

(** The recording process 100, started by process 50, and its two
    children. *)
Definition processes : gmap Z Proc :=
  list_to_map [(100, mkProc 50 false); (101, mkProc 100 false);
               (102, mkProc 100 false)].

(** A world in which every request to the robot takes [cost] seconds. *)
Definition world_with (cost : Qc) : World :=
  mkWorld (ratio 0 1) [] (Some 1) processes (fun _ => cost) (fun n => n) 0.

Definition session : Session := mkSession (controller bricks) (world_with (ratio 1 1)).

(** Each request takes three seconds: two of them exceed the budget. *)
Definition slow_session : Session :=
  mkSession (controller bricks) (world_with (ratio 3 1)).

Definition stray_session : Session :=
  mkSession (controller bricks_and_stray) (world_with (ratio 1 1)).

(** The registry is filled, the saliency scores are not yet assigned. *)
Definition early_session : Session :=
  mkSession
    (mkController 7 bricks true true "hri.txt" "validation.txt" scores scores
       None (Some 100))
    (world_with (ratio 1 1)).

(** The constructor entering [waitForGazePointScores]. *)
Definition constructing : Machine :=
  mkMachine Waiting
    (mkSession
       (mkController 7 ∅ true true "hri.txt" "validation.txt" ∅ ∅ None (Some 100))
       (world_with (ratio 1 1))).

Definition updates : list ObjectsInfo :=
  [mkObjectsInfo 0 [ratio 1 1; ratio 2 1; ratio 3 1] [255; 40; 40] [200; 0; 0];
   mkObjectsInfo 1 [ratio 0 1; ratio 0 1; ratio 1 1] [40; 255; 40] [0; 100; 0];
   mkObjectsInfo 0 [ratio 1 1; ratio 2 1; ratio 4 1] [255; 40; 40] [200; 0; 0]].

(** The updates that fill the registry with the six objects. *)
Definition six_updates : list ObjectsInfo :=
  map (fun id => mkObjectsInfo id [ratio 1 2; ratio 0 1; ratio id 1]
                   [255; 40; 40] [200; 0; 0])
      [0; 1; 2; 3; 4; 5].

(** The constructor waits for the scores; the six objects have arrived,
    no score has. *)
Definition waiting : Machine :=
  run scoring saliency_of constructing (MainThread :: map ObjectsInfoMsg six_updates).

(** A whole session: the scores and the objects arrive, then the main
    thread leaves the loop, finishes [__init__], runs [main] and exits. *)
Definition whole_session : list Event :=
  [MainThread;
   GazePointInfoMsg (mkGazePointInfo "gaze" 0 [ratio 9 10; ratio 1 20]);
   GazePointInfoMsg (mkGazePointInfo "point" 0 [ratio 3 10; ratio 3 10])]
  ++ map ObjectsInfoMsg six_updates
  ++ [MainThread; MainThread; MainThread; MainThread; MainThread; MainThread;
      ScriptObjectRefMsg (mkScriptObjectRef 2 "the small yellow block");
      MainThread].

(** A recorded stream: two robot behaviors and three human behaviors. *)
Definition bag : list (Rosbags.Msg * Qc) :=
  [(Rosbags.robot_behavior 3 "look", ratio 10 1);
   (Rosbags.human_behavior [2; 3] ["head"; "leftarm"], ratio 11 1);
   (Rosbags.human_behavior [3] ["rightarm"], ratio 12 1);
   (Rosbags.robot_behavior 4 "point", ratio 20 1);
   (Rosbags.human_behavior [4] ["rightarm"], ratio 25 1)].

(** The same stream, then the construction task begins. *)
Definition bag_and_task : list (Rosbags.Msg * Qc) :=
  bag ++ (Rosbags.script_status "HRIConstruction", ratio 30 1)
      :: [(Rosbags.robot_behavior 5 "none", ratio 31 1)].

End Samples.

(** * Properties *)

Import Hri.

(** Arithmetic on [Qc] goes through [Q], where [lra] decides it. *)
Ltac qc_to_q :=
  unfold Qc_ltb, ratio in *;
  repeat match goal with
  | |- @eq Qc _ _ => apply Qc_is_canon
  | H : @eq Qc _ _ |- _ => apply (f_equal this) in H
  end;
  unfold Qcle, Qclt, Qcminus, Qcopp, Qcplus, Qcmult, Q2Qc in *;
  cbn [this] in *;
  repeat rewrite Qred_correct in *.

(** [lra] is given the order facts only. *)
Ltac qc_lra :=
  qc_to_q;
  repeat match goal with
  | H : @eq ?T _ _ |- _ =>
    lazymatch T with Q => fail | _ => clear H end
  | H : ~ @eq ?T _ _ |- _ =>
    lazymatch T with Q => fail | _ => clear H end
  end;
  lra.

(** ** The embedding at work *)

Section Checks.

Import Rosbags.

Example findall_words_prompt :
  findall_words "Touch the small red, isn't_it? block."
  = ["Touch"; "the"; "small"; "red"; "isn't_it"; "block"].
Proof. reflexivity. Qed.

Example convertCoords_short :
  convertCoords [ratio 1 1; ratio 2 1] = Raise IndexError.
Proof. reflexivity. Qed.

Example shuffle_five :
  (random_shuffle [1; 2; 3; 4; 5]%nat Samples.session).1
  = Ok [5; 4; 3; 2; 1]%nat.
Proof. reflexivity. Qed.

Example main_sample : (main Samples.scoring Samples.session).1 = Ok tt.
Proof. vm_compute. reflexivity. Qed.

(** The whole sample session ends at the exit of the interpreter, the
    [atexit] handler still to run, with a gesture for the reference sent
    during the script. *)
Example whole_session_phase :
  let mc := run Samples.scoring Samples.saliency_of Samples.constructing
              Samples.whole_session in
  phase mc = Exiting
  /\ existsb (fun e => match e with DoGesture _ _ None => true | _ => false end)
       (trace (world (session mc))) = true
  /\ (shutdown (session mc)).1 = Raise AssertionError.
Proof. vm_compute. repeat split; reflexivity. Qed.

(** The first touch of object 3 (the second entry of the message at time
    11) is credited to look with a response time of 1 s; the touch at time
    12 finds the trackers reset; the touch of object 4 comes after the
    window. *)
Example bag_totals :
  let v := vars_of (system_validation Samples.bag) in
  accuracy v !! "look" = Some (ratio 1 1)
  /\ total_actions v !! "look" = Some (ratio 1 1)
  /\ responsetime v !! "look" = Some (ratio 1 1)
  /\ accuracy v !! "point" = Some (ratio 0 1)
  /\ total_actions v !! "point" = Some (ratio 1 1).
Proof. vm_compute. repeat split; reflexivity. Qed.

End Checks.

(** Unfolding the monad. *)
Ltac unfold_m :=
  unfold request, log, emit, time, sleep, assert_, attempt, lift, get_self,
    put_self, get_world, put_world, bind, ret, raise in *.

(** ** convertCoords *)

Section ConvertCoords.

Lemma convertCoords_point (a b c : Qc) :
  convertCoords [a; b; c] = Ok [c; a; (b + ratio 4 10)%Qc].
Proof.
  unfold convertCoords; cbn. repeat f_equal; qc_lra.
Qed.

Lemma convertCoords_defined (p : list Qc) :
  (3 <= length p)%nat -> exists a b c, convertCoords p = Ok [a; b; c].
Proof.
  destruct p as [|a [|b [|c p]]]; cbn; try lia. intros _.
  unfold convertCoords; cbn. eauto.
Qed.

Lemma robotToSensor_point (x y z : Qc) :
  robotToSensor [x; y; z] = Ok [y; (z - ratio 4 10)%Qc; x].
Proof.
  unfold robotToSensor; cbn. repeat f_equal; qc_lra.
Qed.

(** C4. [convertCoords] subtracts the origin offset [[0, -0.4, 0]] and
    permutes the axes: robot.x = sensor.z, robot.y = sensor.x,
    robot.z = sensor.y (+ 0.4). It is invertible: [robotToSensor] undoes it
    on every 3D point, and it undoes [robotToSensor]. *)
Theorem convertCoords_invertible (a b c : Qc) :
  convertCoords [a; b; c]
    = Ok [(c - ratio 0 1)%Qc; (a - ratio 0 1)%Qc; (b - ratio (-4) 10)%Qc]
  /\ convertCoords [a; b; c] = Ok [c; a; (b + ratio 4 10)%Qc]
  /\ (exists r, convertCoords [a; b; c] = Ok r /\ robotToSensor r = Ok [a; b; c])
  /\ (exists k, robotToSensor [a; b; c] = Ok k /\ convertCoords k = Ok [a; b; c]).
Proof.
  split; [reflexivity|]. split; [apply convertCoords_point|]. split.
  - eexists. split; [apply convertCoords_point|].
    rewrite robotToSensor_point. repeat f_equal. qc_lra.
  - eexists. split; [apply robotToSensor_point|].
    rewrite convertCoords_point. repeat f_equal. qc_lra.
Qed.

End ConvertCoords.

(** ** objectsInfoCallback *)

Section ObjectRegistry.

Implicit Types (s : Session) (m : ObjectsInfo).

Lemma set_loc_same (o : Lego) : set_loc o (loc o) = o.
Proof. by destruct o. Qed.

Lemma objectsInfoCallback_step m s pos :
  convertCoords (oi_pos m) = Ok pos ->
  exists s', objectsInfoCallback m s = (Ok tt, s')
    /\ upsert_cases m s s' pos
    /\ (exists o, objdict (self s') !! oi_object_id m = Some o /\ loc o = pos)
    /\ (forall id, id <> oi_object_id m ->
          objdict (self s') !! id = objdict (self s) !! id).
Proof.
  intros Hpos. unfold objectsInfoCallback, upsert_cases. unfold_m.
  rewrite Hpos. cbn.
  destruct (objdict (self s) !! oi_object_id m) as [o|] eqn:Hlook.
  - case_bool_decide as Heq.
    + exists s. split; [done|]. split; [|split].
      * split; [done|]. intros Hne. by destruct Hne.
      * eauto.
      * done.
    + eexists. split; [done|]. cbn. split; [|split].
      * split; [intros ->; by destruct Heq | done].
      * exists (set_loc o pos). by rewrite lookup_insert_eq.
      * intros id Hid. by rewrite lookup_insert_ne.
  - eexists. split; [done|]. cbn. split; [done|]. split.
    + eexists. by rewrite lookup_insert_eq.
    + intros id Hid. by rewrite lookup_insert_ne.
Qed.

(** C5. After any run of well-formed object updates the registry holds, for
    every ID the run names, the converted position of the last update for
    that ID, and is unchanged at every other ID. One update of an existing
    ID replaces the stored position only when the new one differs and
    touches nothing else; one update of an unseen ID inserts a new object
    with the given colors and no descriptor words. *)
Theorem registry_reflects_last_update s (msgs : list ObjectsInfo) :
  Forall (fun m => (3 <= length (oi_pos m))%nat) msgs ->
  (exists s', objectsInfoCallbacks msgs s = (Ok tt, s')
     /\ forall id,
          match last_update id msgs with
          | Some m =>
            exists o, objdict (self s') !! id = Some o
                      /\ convertCoords (oi_pos m) = Ok (loc o)
          | None => objdict (self s') !! id = objdict (self s) !! id
          end)
  /\ Forall (fun m => forall s0, exists pos s1,
               convertCoords (oi_pos m) = Ok pos
               /\ objectsInfoCallback m s0 = (Ok tt, s1)
               /\ upsert_cases m s0 s1 pos) msgs.
Proof.
  intros Hwf. split.
  - revert s. induction Hwf as [|m rest Hm _ IH]; intros s.
    + exists s. split; [done|]. intros id. done.
    + destruct (convertCoords_defined _ Hm) as (a & b & c & Hpos).
      destruct (objectsInfoCallback_step m s _ Hpos)
        as (s1 & Hrun & _ & (o & Ho & Hloc) & Hother).
      destruct (IH s1) as (s' & Hrest & Hlast).
      exists s'. split.
      * unfold objectsInfoCallbacks in *. cbn [for_each]. unfold bind at 1.
        by rewrite Hrun.
      * intros id. specialize (Hlast id). cbn [last_update].
        destruct (last_update id rest) as [m'|]; [done|].
        case_bool_decide as Hid.
        -- subst id. exists o. rewrite Hlast, Ho. split; [done|].
           by rewrite Hpos, Hloc.
        -- rewrite Hlast. apply Hother. congruence.
  - eapply Forall_impl; [|exact Hwf]. intros m Hm s0. cbn in Hm.
    destruct (convertCoords_defined _ Hm) as (a & b & c & Hpos).
    destruct (objectsInfoCallback_step m s0 _ Hpos) as (s1 & Hrun & Hcases & _).
    eauto 6.
Qed.

End ObjectRegistry.

(** ** findNVBForRef and objectRefCallback *)

Section Selector.

Variable scoring :
  gmap Z Qc -> Z -> gmap Z Lego -> list string ->
  gmap Z (list Qc) -> gmap Z (list Qc) -> Action.
Variable saliency_of : Z -> gmap Z Lego -> gmap Z Qc.

Implicit Types (s : Session).

Lemma all_actions_complete (a : Action) : a ∈ all_actions.
Proof. destruct a; unfold all_actions; set_solver. Qed.

(** The selector reads the store and adds to the trace only. *)
Lemma findNVBForRef_self target words s :
  self (findNVBForRef scoring target words s).2 = self s.
Proof.
  unfold findNVBForRef, calculateNVBForRef. unfold_m. cbn.
  destruct (saliency_scores (self s)); [|done]. cbn.
  by destruct (objdict (self s) !! target).
Qed.

Lemma findNVBForRef_outcome target words s :
  (findNVBForRef scoring target words s).1
  = match saliency_scores (self s) with
    | None => Raise AttributeError
    | Some sal =>
      match objdict (self s) !! target with
      | None => Raise KeyError
      | Some _ =>
        Ok (scoring sal target (objdict (self s)) (findall_words words)
              (gazescores (self s)) (pointscores (self s)))
      end
    end.
Proof.
  unfold findNVBForRef, calculateNVBForRef. unfold_m. cbn.
  destruct (saliency_scores (self s)); [|done]. cbn.
  by destruct (objdict (self s) !! target).
Qed.

(** C6. A reference to a target that is not in the registry: the lookup
    signals the missing key, the handler catches it, logs the failure and
    returns normally. Nothing is sent to the robot, the controller (the
    registry and the score stores with it) is unchanged, and the session
    stays in the phase it was in. *)
Theorem objectRefCallback_unknown_target s (m : ScriptObjectRef) :
  objdict (self s) !! ref_object_id m = None ->
  dict_getitem (objdict (self s)) (ref_object_id m) = Raise KeyError
  /\ objectRefCallback scoring m s
     = (Ok tt,
        mkSession (self s)
          (set_trace (world s)
             (trace (world s)
              ++ [Log Info "Script object reference received: %d, %s"
                    [AInt (ref_object_id m); AStr (ref_words m)];
                  Log Err "No object with ID %d in objects dictionary, object reference fails"
                    [AInt (ref_object_id m)]])))
  /\ forall ph, ph <> Exited ->
       let mc := mkMachine ph s in
       let mc' := step scoring saliency_of mc (ScriptObjectRefMsg m) in
       phase mc' = ph
       /\ self (session mc') = self s
       /\ forallb (fun e => negb (is_robot_action e))
            (requests_of scoring saliency_of mc (ScriptObjectRefMsg m)) = true.
Proof.
  intros Hnone.
  assert (Hget : dict_getitem (objdict (self s)) (ref_object_id m) = Raise KeyError).
  { unfold dict_getitem. by rewrite Hnone. }
  assert (Hrun : objectRefCallback scoring m s
     = (Ok tt,
        mkSession (self s)
          (set_trace (world s)
             (trace (world s)
              ++ [Log Info "Script object reference received: %d, %s"
                    [AInt (ref_object_id m); AStr (ref_words m)];
                  Log Err "No object with ID %d in objects dictionary, object reference fails"
                    [AInt (ref_object_id m)]])))).
  { unfold objectRefCallback. unfold_m. cbn. rewrite Hget. cbn.
    unfold set_trace. cbn. by rewrite <- app_assoc. }
  split; [done|]. split; [done|].
  intros ph Hph mc mc'. subst mc mc'. unfold requests_of. cbn [step].
  unfold deliver. cbn [phase session]. rewrite Hrun.
  destruct ph; try done; cbn; rewrite drop_app_length; done.
Qed.

End Selector.

(** ** actOutReference *)

Section ActOutReference.

Implicit Types (s : Session) (prompt : string) (action : Action)
  (location : list Qc).

Lemma actOutReference_waittime_run prompt action location s :
  exists s1,
    actOutReference_waittime prompt action location s
    = (Ok (ratio 5 1 - dispatch_overhead prompt action location (world s))%Qc, s1)
    /\ self s1 = self s
    /\ clock (world s1)
       = (clock (world s) + dispatch_overhead prompt action location (world s))%Qc.
Proof.
  unfold actOutReference_waittime, dispatch_overhead. unfold_m. cbn.
  eexists. split.
  - f_equal. f_equal. qc_to_q. ring.
  - split; [reflexivity|]. cbn. qc_to_q. ring.
Qed.

Lemma Qc_ltb_true (x y : Qc) : Qc_ltb x y = true <-> (x < y)%Qc.
Proof. unfold Qc_ltb. apply bool_decide_eq_true. Qed.

Lemma Qc_ltb_false (x y : Qc) : Qc_ltb x y = false <-> (y <= x)%Qc.
Proof.
  unfold Qc_ltb. rewrite bool_decide_eq_false. symmetry. apply Qcle_ngt.
Qed.

(** C2, as the code has it. The length passed to [sleep] is the 5-second
    budget minus the dispatch overhead, without a clamp. When the overhead
    is at most the budget the wait is not negative, the call returns and
    the action plus the wait take exactly the budget; when the overhead
    exceeds the budget the wait is negative. *)
Theorem actOutReference_budget prompt action location s :
  let overhead := dispatch_overhead prompt action location (world s) in
  (actOutReference_waittime prompt action location s).1
  = Ok (ratio 5 1 - overhead)%Qc
  /\ ((overhead <= ratio 5 1)%Qc ->
      (ratio 0 1 <= ratio 5 1 - overhead)%Qc
      /\ (actOutReference prompt action location s).1 = Ok tt
      /\ clock (world (actOutReference prompt action location s).2)
         = (clock (world s) + ratio 5 1)%Qc)
  /\ ((ratio 5 1 < overhead)%Qc -> (ratio 5 1 - overhead < ratio 0 1)%Qc).
Proof.
  intros overhead.
  destruct (actOutReference_waittime_run prompt action location s)
    as (s1 & Hrun & Hself & Hclock).
  fold overhead in Hrun, Hclock.
  split; [by rewrite Hrun|]. split.
  - intros Hle.
    assert (Hwait : (ratio 0 1 <= ratio 5 1 - overhead)%Qc) by qc_lra.
    split; [done|].
    assert (Hact : actOutReference prompt action location s
                   = sleep (ratio 5 1 - overhead)%Qc s1).
    { unfold actOutReference, bind. by rewrite Hrun. }
    rewrite Hact. unfold sleep. apply Qc_ltb_false in Hwait. rewrite Hwait.
    unfold emit, get_world, put_world, bind. cbn.
    split; [done|]. rewrite Hclock. qc_to_q. ring.
  - intros Hlt. qc_lra.
Qed.

End ActOutReference.

(** ** Frame rules *)

Section Frame.

Context (R : Controller -> Controller -> Prop) `{!PreOrder R}.
Context (P : Effect -> bool).

Lemma respects_ret {A} (a : A) : respects R P (ret a).
Proof. intros s. split; [done|]. exists []. by rewrite app_nil_r. Qed.

Lemma respects_raise {A} (e : exn) : respects R P (@raise A e).
Proof. intros s. split; [done|]. exists []. by rewrite app_nil_r. Qed.

Lemma respects_lift {A} (r : result A) : respects R P (lift r).
Proof. intros s. split; [done|]. exists []. by rewrite app_nil_r. Qed.

Lemma respects_get_self : respects R P get_self.
Proof. intros s. split; [done|]. exists []. by rewrite app_nil_r. Qed.

Lemma respects_get_world : respects R P get_world.
Proof. intros s. split; [done|]. exists []. by rewrite app_nil_r. Qed.

Lemma respects_time : respects R P time.
Proof. intros s. split; [done|]. exists []. by rewrite app_nil_r. Qed.

Lemma respects_assert (b : bool) : respects R P (assert_ b).
Proof. destruct b; [apply respects_ret | apply respects_raise]. Qed.

Lemma respects_bind {A B} (m : M A) (k : A -> M B) :
  respects R P m -> (forall a, respects R P (k a)) -> respects R P (bind m k).
Proof.
  intros Hm Hk s. unfold bind. destruct (Hm s) as (HR & tr & Htr & HP).
  destruct (m s) as [[a|e] s1]; cbn in *.
  - destruct (Hk a s1) as (HR' & tr' & Htr' & HP'). split.
    + by etrans.
    + exists (tr ++ tr'). rewrite Htr', Htr, app_assoc. split; [done|].
      rewrite forallb_app. by rewrite HP, HP'.
  - eauto.
Qed.

Lemma respects_attempt {A} (m : M A) :
  respects R P m -> respects R P (attempt m).
Proof.
  intros Hm s. unfold attempt. specialize (Hm s). by destruct (m s).
Qed.

Lemma respects_emit (e : Effect) : P e = true -> respects R P (emit e).
Proof.
  intros He s. split; [done|]. exists [e]. cbn. by rewrite He.
Qed.

Lemma respects_log lvl fmt args :
  P (Log lvl fmt args) = true -> respects R P (log lvl fmt args).
Proof. apply respects_emit. Qed.

Lemma respects_request (e : Effect) : P e = true -> respects R P (request e).
Proof.
  intros He s. split; [done|]. exists [e]. cbn. by rewrite He.
Qed.

Lemma respects_sleep (d : Qc) : P (Sleep d) = true -> respects R P (sleep d).
Proof.
  intros He s. unfold sleep. destruct (Qc_ltb d (ratio 0 1)).
  - apply respects_raise.
  - split; [done|]. exists [Sleep d]. cbn. by rewrite He.
Qed.

Lemma respects_for_each {A} (l : list A) (body : A -> M unit) :
  (forall a, respects R P (body a)) -> respects R P (for_each l body).
Proof.
  intros Hbody. induction l as [|a l IH]; cbn [for_each].
  - apply respects_ret.
  - apply respects_bind; [apply Hbody | intros _; apply IH].
Qed.

Lemma respects_fold_each {A B} (l : list A) (acc : B) (body : B -> A -> M B) :
  (forall b a, respects R P (body b a)) -> respects R P (fold_each l acc body).
Proof.
  intros Hbody. revert acc. induction l as [|a l IH]; intros acc; cbn [fold_each].
  - apply respects_ret.
  - apply respects_bind; [apply Hbody | intros acc'; apply IH].
Qed.

End Frame.

Create HintDb frame.

#[local] Hint Resolve respects_ret respects_raise respects_lift respects_get_self
  respects_get_world respects_time respects_assert respects_attempt : frame.
#[local] Hint Extern 0 (PreOrder _) => apply _ : frame.
#[local] Hint Extern 1 (respects _ _ (bind _ _)) =>
  apply respects_bind; [apply _| |intros] : frame.
#[local] Hint Extern 1 (respects _ _ (emit _)) =>
  apply respects_emit; [apply _|reflexivity] : frame.
#[local] Hint Extern 1 (respects _ _ (log _ _ _)) =>
  apply respects_log; [apply _|reflexivity] : frame.
#[local] Hint Extern 1 (respects _ _ (request _)) =>
  apply respects_request; [apply _|reflexivity] : frame.
#[local] Hint Extern 1 (respects _ _ (sleep _)) =>
  apply respects_sleep; [apply _|reflexivity] : frame.
#[local] Hint Extern 1 (respects _ _ (for_each _ _)) =>
  apply respects_for_each; [apply _|intros] : frame.
#[local] Hint Extern 1 (respects _ _ (fold_each _ _ _)) =>
  apply respects_fold_each; [apply _|intros] : frame.
#[local] Hint Extern 2 (respects _ _ (match ?x with _ => _ end)) =>
  destruct x : frame.
#[local] Hint Extern 2 (respects _ _ (if ?x then _ else _)) =>
  destruct x : frame.

Ltac frame := eauto 60 with frame.

(** ** random.shuffle *)

Section Shuffle.

Context {A : Type}.
Implicit Types (x : list A) (s : Session).

Lemma insert_head_Permutation x (j : nat) (a b : A) :
  x !! j = Some b -> b :: <[j:=a]> x ≡ₚ a :: x.
Proof.
  revert j. induction x as [|h t IH]; intros [|j] Hj; cbn in *; try done.
  - injection Hj as ->. apply Permutation_swap.
  - rewrite (Permutation_swap h b), (IH j Hj). apply Permutation_swap.
Qed.

Lemma swap_Permutation x (i j : nat) :
  (i < length x)%nat -> (j < length x)%nat ->
  exists x', swap x i j = Ok x' /\ x' ≡ₚ x.
Proof.
  intros Hi Hj. unfold swap.
  destruct (lookup_lt_is_Some_2 x i Hi) as [xi Hxi].
  destruct (lookup_lt_is_Some_2 x j Hj) as [xj Hxj].
  rewrite Hxi, Hxj. eexists. split; [done|].
  clear Hi Hj. revert i j Hxi Hxj.
  induction x as [|h t IH]; intros [|i] [|j] Hxi Hxj; cbn in *; try done.
  - injection Hxi as ->. by injection Hxj as ->.
  - injection Hxi as ->. by apply insert_head_Permutation.
  - injection Hxj as ->. by apply insert_head_Permutation.
  - by rewrite (IH i j).
Qed.

Lemma random_below_run (n : nat) s :
  random_below n s
  = (Ok (random (world s) (drawn (world s)) mod n)%nat,
     mkSession (self s) (set_drawn (world s) (S (drawn (world s))))).
Proof. done. Qed.

Lemma shuffle_down_Permutation (i : nat) x s :
  (i < length x)%nat ->
  exists x' s', shuffle_down i x s = (Ok x', s') /\ x' ≡ₚ x /\ self s' = self s.
Proof.
  revert x s. induction i as [|i IH]; intros x s Hi.
  - by exists x, s.
  - cbn [shuffle_down]. unfold bind at 1. rewrite random_below_run.
    set (j := (random (world s) (drawn (world s)) mod S (S i))%nat).
    assert (Hj : (j < length x)%nat).
    { pose proof (Nat.mod_upper_bound (random (world s) (drawn (world s)))
                    (S (S i))). lia. }
    destruct (swap_Permutation x (S i) j Hi Hj) as (x1 & Hswap & Hperm).
    unfold bind, lift. rewrite Hswap.
    destruct (IH x1 (mkSession (self s) (set_drawn (world s) (S (drawn (world s))))))
      as (x' & s' & Hrun & Hperm' & Hself).
    { apply Permutation_length in Hperm. lia. }
    exists x', s'. split; [done|]. split; [by etrans|done].
Qed.

Lemma random_shuffle_Permutation x s :
  exists x' s', random_shuffle x s = (Ok x', s') /\ x' ≡ₚ x /\ self s' = self s.
Proof.
  unfold random_shuffle. destruct x as [|a x].
  - by exists [], s.
  - apply shuffle_down_Permutation. cbn. lia.
Qed.

End Shuffle.

(** ** systemValidation *)

Section SystemValidation.

Variable scoring :
  gmap Z Qc -> Z -> gmap Z Lego -> list string ->
  gmap Z (list Qc) -> gmap Z (list Qc) -> Action.

Implicit Types (s : Session) (o : Lego) (acc : list Entry).

Lemma append_actions_eq acc o (word : string) :
  append_actions acc o word
  = acc ++ map (fun a => (a, loc o, word)) all_actions.
Proof. unfold append_actions. cbn. by rewrite <- !app_assoc. Qed.

Lemma findNVBForRef_quiet target words :
  respects eq quiet (findNVBForRef scoring target words).
Proof. unfold findNVBForRef, calculateNVBForRef. frame. Qed.

Lemma validation_row_quiet acc o :
  respects eq quiet (validation_row scoring acc o).
Proof.
  unfold validation_row. pose proof findNVBForRef_quiet. frame.
Qed.

Lemma buildActionList_quiet : respects eq quiet (buildActionList scoring).
Proof.
  unfold buildActionList. pose proof validation_row_quiet. frame.
Qed.

Lemma validation_row_empty acc o s :
  words o = [] -> validation_row scoring acc o s = (Raise AssertionError, s).
Proof. intros Hw. unfold validation_row. by rewrite Hw. Qed.

Lemma validation_row_ok acc o s :
  words o <> [] ->
  saliency_scores (self s) <> None ->
  is_Some (objdict (self s) !! idnum o) ->
  exists s',
    validation_row scoring acc o s
    = (Ok (acc ++ map entry_of (map (fun a => (a, o)) all_actions)), s')
    /\ self s' = self s.
Proof.
  intros Hw Hsal [o' Ho'].
  destruct (words o) as [|w ws] eqn:Hwords; [done|].
  destruct (saliency_scores (self s)) as [sal|] eqn:Hsal'; [|done].
  unfold validation_row. rewrite Hwords. unfold_m.
  cbn -[findNVBForRef append_actions].
  pose proof (findNVBForRef_outcome scoring (idnum o) w s) as Hout.
  pose proof (findNVBForRef_self scoring (idnum o) w s) as Hself.
  rewrite Hsal', Ho' in Hout.
  destruct (findNVBForRef scoring (idnum o) w s) as [r s1].
  cbn [fst snd] in Hout, Hself. subst r.
  eexists. split.
  - rewrite append_actions_eq. unfold entry_of. cbn. rewrite Hwords.
    reflexivity.
  - exact Hself.
Qed.

Lemma fold_validation_ok (objs : list Lego) acc s :
  Forall (fun o => words o <> [] /\ is_Some (objdict (self s) !! idnum o)) objs ->
  saliency_scores (self s) <> None ->
  exists s',
    fold_each objs acc (validation_row scoring) s
    = (Ok (acc ++ map entry_of (action_pairs objs)), s')
    /\ self s' = self s.
Proof.
  intros Hobjs Hsal. revert acc s Hobjs Hsal.
  induction objs as [|o objs IH]; intros acc s Hobjs Hsal.
  - exists s. cbn. by rewrite app_nil_r.
  - inversion Hobjs as [|? ? [Hw Hin] Hrest]; subst.
    destruct (validation_row_ok acc o s Hw Hsal Hin) as (s1 & Hrow & Hself).
    destruct (IH (acc ++ map entry_of (map (fun a => (a, o)) all_actions)) s1)
      as (s' & Hfold & Hself').
    { by rewrite Hself. }
    { by rewrite Hself. }
    exists s'. split; [|congruence].
    cbn [fold_each]. unfold bind. rewrite Hrow, Hfold.
    unfold action_pairs. cbn [flat_map]. rewrite map_app.
    by rewrite <- app_assoc.
Qed.

Lemma fold_validation_empty (objs : list Lego) acc s :
  Forall (fun o => is_Some (objdict (self s) !! idnum o)) objs ->
  Exists (fun o => words o = []) objs ->
  saliency_scores (self s) <> None ->
  (fold_each objs acc (validation_row scoring) s).1 = Raise AssertionError.
Proof.
  intros Hobjs Hbad Hsal. revert acc s Hobjs Hsal.
  induction objs as [|o objs IH]; intros acc s Hobjs Hsal.
  - inversion Hbad.
  - inversion Hobjs as [|? ? Hin Hrest]; subst. cbn [fold_each]. unfold bind.
    destruct (words o) as [|w ws] eqn:Hwords.
    + by rewrite validation_row_empty.
    + destruct (validation_row_ok acc o s) as (s1 & Hrow & Hself);
        [by rewrite Hwords | done | done |].
      rewrite Hrow. apply IH.
      * inversion Hbad; subst; [congruence | done].
      * by rewrite Hself.
      * by rewrite Hself.
Qed.

Lemma action_pairs_length (objs : list Lego) :
  length (action_pairs objs) = (4 * length objs)%nat.
Proof.
  induction objs as [|o objs IH]; [done|].
  unfold action_pairs in *. cbn [flat_map]. rewrite length_app, IH. cbn. lia.
Qed.

Lemma elem_of_action_pairs (objs : list Lego) (a : Action) o :
  (a, o) ∈ action_pairs objs <-> o ∈ objs.
Proof.
  unfold action_pairs. rewrite list_elem_of_In, in_flat_map. split.
  - intros (o' & Hin & Hpair). apply in_map_iff in Hpair as (a' & Heq & _).
    injection Heq as -> ->. by apply list_elem_of_In.
  - intros Hin. exists o. split; [by apply list_elem_of_In|].
    apply (in_map (fun a' => (a', o))). apply list_elem_of_In, all_actions_complete.
Qed.

Lemma action_pairs_NoDup (objs : list Lego) :
  NoDup objs -> NoDup (action_pairs objs).
Proof.
  induction 1 as [|o objs Hnotin Hnd IH]; [constructor|].
  unfold action_pairs in *. cbn [flat_map]. apply list.NoDup_app. split; [|split].
  - cbn. repeat (constructor; [rewrite list_elem_of_In; cbn; intuition congruence|]).
    constructor.
  - intros [a o'] Hin Hin'.
    apply list_elem_of_In, in_map_iff in Hin as (a' & Heq & _).
    injection Heq as -> ->.
    apply (elem_of_action_pairs objs a o') in Hin'. done.
  - exact IH.
Qed.

(** The values of a registry keyed by [idnum] are pairwise distinct. *)
Lemma registry_values_NoDup (d : gmap Z Lego) :
  (forall k o, d !! k = Some o -> idnum o = k) ->
  NoDup (map_to_list d).*2.
Proof.
  intros Hkey. apply (NoDup_fmap_1 idnum).
  replace (idnum <$> (map_to_list d).*2) with ((map_to_list d).*1).
  { apply NoDup_fst_map_to_list. }
  rewrite <- list_fmap_compose. apply list_fmap_ext.
  intros i [k o] Hin. cbn. symmetry. apply Hkey.
  apply elem_of_map_to_list. eapply list_elem_of_lookup_2, Hin.
Qed.

Lemma elem_of_registry_values (d : gmap Z Lego) o :
  o ∈ (map_to_list d).*2 <-> exists k, d !! k = Some o.
Proof.
  rewrite list_elem_of_fmap. split.
  - intros ([k o'] & -> & Hin). exists k. by apply elem_of_map_to_list.
  - intros [k Hk]. exists (k, o). split; [done|]. by apply elem_of_map_to_list.
Qed.

Lemma systemValidation_unfold s :
  systemValidation scoring s
  = match buildActionList scoring s with
    | (Ok l, s1) =>
      match random_shuffle l s1 with
      | (Ok l', s2) =>
        (let* c := get_self in
         request (ReadScript (validationScript c) None) ;;
         for_each l' (fun action =>
           let '(act, location, word) := action in
           let prompt := "Touch the " +:+ word +:+ " block." in
           actOutReference prompt act location)) s2
      | (Raise e, s2) => (Raise e, s2)
      end
    | (Raise e, s1) => (Raise e, s1)
    end.
Proof.
  unfold systemValidation. unfold bind at 1.
  destruct (buildActionList scoring s) as [[l|e] s1]; [|done].
  unfold bind at 1. by destruct (random_shuffle l s1) as [[l'|e] s2].
Qed.

(** C3. When every object of the registry has descriptor words (and the
    registry is keyed by [idnum], the saliency scores assigned), the action
    list [systemValidation] builds has 4 entries per object; it is, entry by
    entry, the list of all (action, object) pairs, which holds every pair of
    an action and a registry object and none twice; and the list
    [random.shuffle] leaves, the one acted out, is a permutation of it. *)
Theorem validation_action_list s :
  (forall k o, objdict (self s) !! k = Some o -> idnum o = k /\ words o <> []) ->
  saliency_scores (self s) <> None ->
  let objs := (map_to_list (objdict (self s))).*2 in
  exists l s1 l' s2,
    buildActionList scoring s = (Ok l, s1)
    /\ random_shuffle l s1 = (Ok l', s2)
    /\ length l = (4 * size (objdict (self s)))%nat
    /\ l = map entry_of (action_pairs objs)
    /\ NoDup (action_pairs objs)
    /\ (forall a o, (a, o) ∈ action_pairs objs
                    <-> exists k, objdict (self s) !! k = Some o)
    /\ l' ≡ₚ l
    /\ length l' = (4 * size (objdict (self s)))%nat
    /\ systemValidation scoring s
       = (let* c := get_self in
          request (ReadScript (validationScript c) None) ;;
          for_each l' (fun action =>
            let '(act, location, word) := action in
            let prompt := "Touch the " +:+ word +:+ " block." in
            actOutReference prompt act location)) s2.
Proof.
  intros Hreg Hsal objs.
  destruct (fold_validation_ok objs [] s) as (s1 & Hbuild & Hself); [|done|].
  { apply list.Forall_forall. intros o Ho.
    apply elem_of_registry_values in Ho as [k Hk].
    destruct (Hreg k o Hk) as [Hid Hw]. split; [done|]. rewrite Hid. eauto. }
  destruct (random_shuffle_Permutation (map entry_of (action_pairs objs)) s1)
    as (l' & s2 & Hshuffle & Hperm & _).
  assert (Hlen : length (map entry_of (action_pairs objs))
                 = (4 * size (objdict (self s)))%nat).
  { rewrite length_map, action_pairs_length. subst objs.
    by rewrite length_fmap, length_map_to_list. }
  exists (map entry_of (action_pairs objs)), s1, l', s2.
  split; [exact Hbuild|]. split; [exact Hshuffle|]. split; [exact Hlen|].
  split; [done|]. split.
  { apply action_pairs_NoDup, registry_values_NoDup.
    intros k o Hk. by destruct (Hreg k o Hk). }
  split.
  { intros a o. rewrite elem_of_action_pairs. apply elem_of_registry_values. }
  split; [done|]. split; [by rewrite (Permutation_length Hperm)|].
  assert (Hb : buildActionList scoring s
               = (Ok (map entry_of (action_pairs objs)), s1)) by exact Hbuild.
  by rewrite systemValidation_unfold, Hb, Hshuffle.
Qed.

Lemma systemValidation_asserts s :
  (forall k o, objdict (self s) !! k = Some o -> idnum o = k) ->
  saliency_scores (self s) <> None ->
  (exists k o, objdict (self s) !! k = Some o /\ words o = []) ->
  exists s',
    systemValidation scoring s = (Raise AssertionError, s')
    /\ self s' = self s
    /\ exists tr, trace (world s') = trace (world s) ++ tr
                  /\ forallb quiet tr = true.
Proof.
  intros Hreg Hsal (k & o & Hk & Hw).
  pose proof (fold_validation_empty (map_to_list (objdict (self s))).*2 [] s)
    as Hfold.
  destruct (buildActionList_quiet s) as (Hself & tr & Htr & Hquiet).
  rewrite systemValidation_unfold.
  assert (Hbuild : (buildActionList scoring s).1 = Raise AssertionError).
  { apply Hfold; [| |done].
    - apply list.Forall_forall. intros o' Ho'.
      apply elem_of_registry_values in Ho' as [k' Hk'].
      rewrite (Hreg k' o' Hk'). eauto.
    - apply list.Exists_exists. exists o. split; [|done].
      apply elem_of_registry_values. eauto. }
  destruct (buildActionList scoring s) as [r s1]. cbn in Hbuild. subst r.
  exists s1. split; [done|]. split; [done|]. eauto.
Qed.

End SystemValidation.

(** ** system_validation of the rosbag analysis *)

Section RosbagAnalysis.

Import Rosbags.

Implicit Types (v : Vars) (t : Qc).

Lemma pending_nonneg v (a : string) : (ratio 0 1 <= pending v a)%Qc.
Proof. unfold pending. case_bool_decide; qc_lra. Qed.

Lemma within_total_accuracy v : within_total v -> accuracy_le_total v.
Proof.
  intros Hv a x y Hx Hy. pose proof (Hv a x y Hx Hy).
  pose proof (pending_nonneg v a). qc_lra.
Qed.

Lemma initial_within_total : within_total initial.
Proof.
  intros a x y Hx Hy. cbn in Hx, Hy. rewrite Hx in Hy. injection Hy as <-.
  unfold pending, initial. cbn [nvb_action].
  rewrite bool_decide_eq_false_2 by done. qc_lra.
Qed.

Lemma on_robot_behavior_ok v t (object_id : Z) (action : string) :
  within_total v -> turn_ok (on_robot_behavior v t object_id action).
Proof.
  intros Hv. unfold on_robot_behavior. cbn.
  destruct (total_actions v !! action) as [n|] eqn:Hn; cbn.
  - intros a x y Hx Hy. cbn in *. unfold pending. cbn.
    destruct (decide (action = a)) as [->|Hne].
    + rewrite lookup_insert_eq in Hy. injection Hy as <-.
      pose proof (Hv a x n Hx Hn). pose proof (pending_nonneg v a).
      rewrite bool_decide_eq_true_2 by done. qc_lra.
    + rewrite lookup_insert_ne in Hy by done.
      pose proof (Hv a x y Hx Hy). pose proof (pending_nonneg v a).
      rewrite bool_decide_eq_false_2 by congruence. qc_lra.
  - intros a x y Hx Hy. cbn in *.
    pose proof (Hv a x y Hx Hy). pose proof (pending_nonneg v a). qc_lra.
Qed.

Lemma credit_cases v t :
  within_total v ->
  match credit v t with
  | Continue v' =>
    within_total v'
    /\ exists a n r t0,
         nvb_action v = Some a /\ accuracy v !! a = Some n
         /\ responsetime v !! a = Some r /\ start_time v = Some t0
         /\ v' = credited v a n r t0 t
  | Break _ => False
  | Raised _ v' => accuracy_le_total v'
  end.
Proof.
  intros Hv. unfold credit.
  destruct (nvb_action v) as [a|] eqn:Ha; [|by apply within_total_accuracy].
  case_bool_decide; [|by apply within_total_accuracy].
  destruct (accuracy v !! a) as [n|] eqn:Hn; [|by apply within_total_accuracy].
  assert (Hstep : forall b x y,
            <[a := (n + ratio 1 1)%Qc]> (accuracy v) !! b = Some x ->
            total_actions v !! b = Some y -> (x <= y)%Qc).
  { intros b x y Hx Hy. destruct (decide (a = b)) as [->|Hne].
    - rewrite lookup_insert_eq in Hx. injection Hx as <-.
      pose proof (Hv b n y Hn Hy) as Hb. unfold pending in Hb.
      rewrite Ha, bool_decide_eq_true_2 in Hb by done. qc_lra.
    - rewrite lookup_insert_ne in Hx by done.
      pose proof (Hv b x y Hx Hy). pose proof (pending_nonneg v b). qc_lra. }
  cbn. destruct (start_time v) as [t0|] eqn:Ht0; [|exact Hstep].
  destruct (responsetime v !! a) as [r|] eqn:Hr; [|exact Hstep].
  split.
  - intros b x y Hx Hy. cbn in *. pose proof (Hstep b x y Hx Hy).
    unfold pending. cbn [nvb_action]. rewrite bool_decide_eq_false_2 by done.
    qc_lra.
  - by exists a, n, r, t0.
Qed.

Lemma touches_cases v t (objlist : list Z) (effectorlist : list string)
    (idxs : list nat) :
  within_total v ->
  match touches v t objlist effectorlist idxs with
  | Continue v' =>
    within_total v'
    /\ (v' = v
        \/ exists a n r t0,
             nvb_action v = Some a /\ accuracy v !! a = Some n
             /\ responsetime v !! a = Some r /\ start_time v = Some t0
             /\ v' = credited v a n r t0 t)
  | Break _ => False
  | Raised _ v' => accuracy_le_total v'
  end.
Proof.
  intros Hv. induction idxs as [|i idxs IH]; cbn [touches].
  - by split; [|left].
  - destruct (effectorlist !! i) as [eff|]; [|by apply within_total_accuracy].
    destruct (String.eqb eff "leftarm" || String.eqb eff "rightarm"); [|exact IH].
    destruct (objlist !! i) as [touch_obj|]; [|by apply within_total_accuracy].
    case_bool_decide; [|exact IH].
    pose proof (credit_cases v t Hv) as Hc.
    destruct (credit v t); [|done|done]. destruct Hc as [Hc1 Hc2]. eauto.
Qed.

Lemma on_human_behavior_cases v t (objlist : list Z)
    (effectorlist : list string) :
  within_total v ->
  match on_human_behavior v t objlist effectorlist with
  | Continue v' =>
    within_total v'
    /\ (v' = v
        \/ exists a n r t0,
             nvb_action v = Some a /\ accuracy v !! a = Some n
             /\ responsetime v !! a = Some r /\ start_time v = Some t0
             /\ (t - t0 < t_window)%Qc
             /\ v' = credited v a n r t0 t)
  | Break _ => False
  | Raised _ v' => accuracy_le_total v'
  end.
Proof.
  intros Hv. unfold on_human_behavior.
  destruct (target_obj v); [|by split; [|left]].
  destruct (start_time v) as [t0|] eqn:Ht0; [|by apply within_total_accuracy].
  destruct (Qc_ltb (t - t0) t_window) eqn:Hwin; [|by split; [|left]].
  apply Qc_ltb_true in Hwin.
  destruct (negb _); [by apply within_total_accuracy|].
  destruct (negb _); [by apply within_total_accuracy|].
  pose proof (touches_cases v t objlist effectorlist
                (seq 0 (length objlist)) Hv) as Hc.
  destruct (touches _ _ _ _ _); [|done|done].
  destruct Hc as [Hc1 [->|(a & n & r & t1 & ? & ? & ? & Ht1 & ->)]].
  - by split; [|left].
  - split; [done|]. right. rewrite Ht0 in Ht1. injection Ht1 as <-.
    by exists a, n, r, t0.
Qed.

Lemma turn_preserves v (m : Msg) t : within_total v -> turn_ok (turn v m t).
Proof.
  intros Hv. destruct m as [data|object_id action|target effector]; cbn [turn].
  - by destruct (String.eqb data "HRIConstruction").
  - by apply on_robot_behavior_ok.
  - pose proof (on_human_behavior_cases v t target effector Hv) as Hc.
    destruct (on_human_behavior _ _ _ _); cbn; [by destruct Hc|done|done].
Qed.

Lemma read_messages_ok v (bag : list (Msg * Qc)) :
  within_total v -> turn_ok (read_messages v bag).
Proof.
  revert v. induction bag as [|[m t] bag IH]; intros v Hv; cbn [read_messages].
  - done.
  - pose proof (turn_preserves v m t Hv) as Hturn.
    destruct (turn v m t); cbn in Hturn; [by apply IH|done|done].
Qed.

Lemma turn_ok_accuracy (r : Turn) : turn_ok r -> accuracy_le_total (vars_of r).
Proof. destruct r; cbn; auto using within_total_accuracy. Qed.




End RosbagAnalysis.

(** ** What each part of the controller leaves unchanged *)

Section ControllerFrames.

Variable scoring :
  gmap Z Qc -> Z -> gmap Z Lego -> list string ->
  gmap Z (list Qc) -> gmap Z (list Qc) -> Action.
Variable saliency_of : Z -> gmap Z Lego -> gmap Z Qc.

#[local] Instance same_scores_preorder : PreOrder same_scores.
Proof.
  split.
  - by intros c.
  - intros c1 c2 c3 (? & ? & ?) (? & ? & ?). repeat split; congruence.
Qed.

#[local] Instance scores_stay_preorder : PreOrder scores_stay.
Proof.
  split.
  - by intros c.
  - intros c1 c2 c3 [? ?] [? ?]. split; auto.
Qed.

Lemma respects_weaken (R R' : Controller -> Controller -> Prop)
    (P P' : Effect -> bool) {A} (m : M A) :
  (forall c c', R c c' -> R' c c') ->
  (forall e, P e = true -> P' e = true) ->
  respects R P m -> respects R' P' m.
Proof.
  intros HR HP Hm s. destruct (Hm s) as (Hs & tr & Htr & Hall).
  split; [auto|]. exists tr. split; [done|].
  apply forallb_forall. intros e He. apply HP.
  by eapply forallb_forall in Hall.
Qed.

Lemma respects_unchanged_world {A} (m : M A) (P : Effect -> bool) :
  (forall s, self (m s).2 = self s /\ trace (world (m s).2) = trace (world s)) ->
  respects eq P m.
Proof.
  intros Hm s. destruct (Hm s) as [Hs Ht]. split; [done|].
  exists []. by rewrite app_nil_r.
Qed.

Lemma random_below_frame (n : nat) (P : Effect -> bool) :
  respects eq P (random_below n).
Proof. by apply respects_unchanged_world. Qed.

Lemma shuffle_down_frame {A} (i : nat) (x : list A) (P : Effect -> bool) :
  respects eq P (shuffle_down i x).
Proof.
  revert x. induction i as [|i IH]; intros x; cbn [shuffle_down].
  - apply respects_ret, _.
  - pose proof (random_below_frame (S (S i)) P). frame.
Qed.

Lemma actOutReference_frame prompt action location :
  respects eq any (actOutReference prompt action location).
Proof. unfold actOutReference, actOutReference_waittime. frame. Qed.

Lemma systemValidation_frame : respects eq any (systemValidation scoring).
Proof.
  unfold systemValidation, random_shuffle.
  pose proof (respects_weaken eq eq quiet any (buildActionList scoring)
                (fun _ _ H => H) (fun _ _ => eq_refl)
                (buildActionList_quiet scoring)).
  pose proof (fun A i x => @shuffle_down_frame A i x any).
  pose proof actOutReference_frame.
  apply respects_bind; [apply _|done|]. intros l.
  apply respects_bind; [apply _|done|]. intros l'. frame.
Qed.

Lemma ps_ppid_frame (p : Z) : respects eq any (ps_ppid p).
Proof. unfold ps_ppid. frame. Qed.

Lemma os_kill_frame (pid : Z) : respects eq any (os_kill pid).
Proof.
  intros s. unfold os_kill. unfold_m. cbn.
  destruct (procs (world s) !! pid); cbn; (split; [done|]);
    by exists [Kill pid].
Qed.

Lemma popen_terminate_frame (pid : Z) : respects eq any (popen_terminate pid).
Proof.
  intros s. unfold popen_terminate. unfold_m. cbn.
  destruct (procs (world s) !! pid); cbn; (split; [done|]);
    by exists [Terminate pid].
Qed.

Lemma shutdown_frame : respects eq any shutdown.
Proof.
  unfold shutdown. pose proof ps_ppid_frame. pose proof os_kill_frame.
  pose proof popen_terminate_frame. frame.
Qed.

Lemma objectRefCallback_frame (m : ScriptObjectRef) :
  respects eq any (objectRefCallback scoring m).
Proof.
  unfold objectRefCallback.
  pose proof (fun t w => respects_weaken eq eq quiet any
                (findNVBForRef scoring t w)
                (fun _ _ H => H) (fun _ _ => eq_refl)
                (findNVBForRef_quiet scoring t w)).
  frame.
Qed.

Lemma poll_frame : respects eq no_selection waitForGazePointScores_poll.
Proof. unfold waitForGazePointScores_poll. frame. Qed.

Lemma settle_frame : respects eq no_selection waitForGazePointScores_settle.
Proof. unfold waitForGazePointScores_settle. frame. Qed.

Lemma objectsInfoCallback_frame (m : ObjectsInfo) :
  respects same_scores no_selection (objectsInfoCallback m).
Proof.
  intros s. unfold objectsInfoCallback. unfold_m.
  destruct (convertCoords (oi_pos m)) as [pos|e]; cbn.
  - destruct (objdict (self s) !! oi_object_id m) as [o|]; cbn.
    + case_bool_decide; cbn; (split; [done|]); exists []; by rewrite app_nil_r.
    + split; [done|]. by eexists [_].
  - split; [done|]. exists []. by rewrite app_nil_r.
Qed.

Lemma gazepointInfoCallback_frame (m : GazePointInfo) :
  respects (fun c c' => saliency_scores c' = saliency_scores c
                        /\ scores_stay c c')
    no_selection (gazepointInfoCallback m).
Proof.
  intros s. unfold gazepointInfoCallback. unfold_m.
  destruct (String.eqb (gp_type m) "gaze"); cbn.
  - split; [|exists []; by rewrite app_nil_r].
    split; [done|]. split; [|done]. intros _. apply insert_non_empty.
  - destruct (String.eqb (gp_type m) "point"); cbn.
    + split; [|exists []; by rewrite app_nil_r].
      split; [done|]. split; [done|]. intros _. apply insert_non_empty.
    + split; [|by eexists [_]]. done.
Qed.

Lemma assign_words_frame (k : Z) (w : list string) :
  respects same_scores any (assign_words k w).
Proof.
  intros s. unfold assign_words. unfold_m. cbn.
  destruct (dict_getitem (objdict (self s)) k); cbn;
    (split; [done|]); exists []; by rewrite app_nil_r.
Qed.

Lemma startup_frame : respects same_scores any startup.
Proof. unfold startup. pose proof assign_words_frame. frame. Qed.

Lemma precomputeSaliencyScores_frame (cameraID : Z) :
  respects same_scores any (precomputeSaliencyScores saliency_of cameraID).
Proof. unfold precomputeSaliencyScores, calculateSaliencyScores. frame. Qed.

Lemma init_saliency_scores_frame :
  respects scores_stay any (init_saliency_scores saliency_of).
Proof.
  intros s.
  destruct (precomputeSaliencyScores_frame 0 s) as ((Hg & Hp & _) & tr & Htr & _).
  unfold init_saliency_scores, bind.
  destruct (precomputeSaliencyScores saliency_of 0 s) as [[sal|e] s1];
    cbn in *;
    (split; [unfold scores_stay; cbn; by rewrite Hg, Hp|]);
    exists tr; (split; [done|]); by apply forallb_forall.
Qed.

End ControllerFrames.

(** ** The precondition of systemValidation on descriptor words *)

Section ValidationPrecondition.

Variable scoring :
  gmap Z Qc -> Z -> gmap Z Lego -> list string ->
  gmap Z (list Qc) -> gmap Z (list Qc) -> Action.

Implicit Types (s : Session).

#[local] Instance same_at_preorder (k : Z) : PreOrder (same_at k).
Proof.
  split; [by intros c|]. unfold same_at. intros c1 c2 c3 ? ?. congruence.
Qed.

Lemma assign_words_other (k j : Z) (w : list string) :
  j <> k -> respects (same_at k) any (assign_words j w).
Proof.
  intros Hne s. unfold assign_words. unfold_m. cbn.
  destruct (dict_getitem (objdict (self s)) j); cbn.
  - split; [|exists []; by rewrite app_nil_r].
    unfold same_at. cbn. by rewrite lookup_insert_ne.
  - split; [done|]. exists []. by rewrite app_nil_r.
Qed.

#[local] Hint Extern 1 (respects (same_at _) _ (assign_words _ _)) =>
  apply assign_words_other; lia : frame.

(** [startup] assigns words to the objects 0 to 5 and to no other. *)
Lemma startup_other_ids (k : Z) s :
  ~ (0 <= k <= 5) -> objdict (self (startup s).2) !! k = objdict (self s) !! k.
Proof.
  intros Hk.
  assert (Hframe : respects (same_at k) any startup).
  { unfold startup. frame. }
  by destruct (Hframe s).
Qed.

(** C9. [systemValidation] requires descriptor words of every object. On a
    registry keyed by [idnum], with the saliency scores assigned: if an
    object has no descriptor words, [systemValidation] raises
    [AssertionError]; the object is not skipped, the controller is unchanged
    and nothing has been sent to the robot. Such an object is what the
    sensor callback inserts for an unseen ID, and [startup] assigns words
    to the IDs 0 to 5 only. *)
Theorem systemValidation_empty_words s :
  (forall k o, objdict (self s) !! k = Some o -> idnum o = k) ->
  saliency_scores (self s) <> None ->
  ((exists k o, objdict (self s) !! k = Some o /\ words o = []) ->
   exists s',
     systemValidation scoring s = (Raise AssertionError, s')
     /\ self s' = self s
     /\ exists tr, trace (world s') = trace (world s) ++ tr
                   /\ forallb quiet tr = true)
  /\ (forall m : ObjectsInfo,
        (3 <= length (oi_pos m))%nat ->
        objdict (self s) !! oi_object_id m = None ->
        exists s1 s',
          objectsInfoCallback m s = (Ok tt, s1)
          /\ systemValidation scoring s1 = (Raise AssertionError, s'))
  /\ (forall k s0, ~ (0 <= k <= 5) ->
        objdict (self (startup s0).2) !! k = objdict (self s0) !! k).
Proof.
  intros Hreg Hsal. split; [by apply systemValidation_asserts|]. split.
  - intros m Hm Hnone.
    destruct (convertCoords_defined _ Hm) as (a & b & c & Hpos).
    destruct (objectsInfoCallback_step m s _ Hpos)
      as (s1 & Hrun & Hcases & _ & Hother).
    unfold upsert_cases in Hcases. rewrite Hnone in Hcases.
    destruct (objectsInfoCallback_frame m s) as [(_ & _ & Hsal1) _].
    rewrite Hrun in Hsal1. cbn in Hsal1.
    destruct (systemValidation_asserts scoring s1) as (s' & Hval & _).
    + intros k o. rewrite Hcases.
      destruct (decide (k = oi_object_id m)) as [->|Hne].
      * rewrite lookup_insert_eq. by intros [= <-].
      * rewrite lookup_insert_ne by done. apply Hreg.
    + by rewrite Hsal1.
    + eexists (oi_object_id m), _. rewrite Hcases, lookup_insert_eq. done.
    + eauto.
  - intros k s0. apply startup_other_ids.
Qed.

End ValidationPrecondition.

(** ** waitForGazePointScores and the session *)

Section Readiness.

Variable scoring :
  gmap Z Qc -> Z -> gmap Z Lego -> list string ->
  gmap Z (list Qc) -> gmap Z (list Qc) -> Action.
Variable saliency_of : Z -> gmap Z Lego -> gmap Z Qc.

Implicit Types (s : Session) (mc : Machine) (ev : Event).

Lemma sleep_run (d : Qc) s :
  (ratio 0 1 <= d)%Qc -> sleep d s = (Ok tt, slept s d).
Proof.
  intros Hd. unfold sleep. apply Qc_ltb_false in Hd. by rewrite Hd.
Qed.

Lemma poll_run s :
  waitForGazePointScores_poll s
  = if scores_arrived (self s) then (Ok true, s)
    else (Ok false, slept s (ratio 1 1)).
Proof.
  unfold waitForGazePointScores_poll, bind. cbn [get_self].
  destruct (scores_arrived (self s)); [done|].
  rewrite sleep_run; [done|]. qc_lra.
Qed.

Lemma scores_arrived_true (c : Controller) :
  scores_arrived c = true <-> gazescores c <> ∅ /\ pointscores c <> ∅.
Proof.
  unfold scores_arrived. rewrite andb_true_iff, !bool_decide_eq_true. done.
Qed.

Lemma no_selection_requests (tr : list Effect) :
  forallb no_selection tr = true -> existsb is_selection tr = false.
Proof.
  induction tr as [|e tr IH]; [done|]. cbn. unfold no_selection at 1.
  intros [He Htr]%andb_true_iff. apply negb_true_iff in He.
  by rewrite He, IH.
Qed.

(** While [saliency_scores] is unassigned a reference cannot reach the
    model: reading the attribute raises first. *)
Lemma objectRefCallback_before_saliency (m : ScriptObjectRef) s :
  saliency_scores (self s) = None ->
  exists tr, trace (world (objectRefCallback scoring m s).2) = trace (world s) ++ tr
             /\ forallb no_selection tr = true.
Proof.
  intros Hsal. unfold objectRefCallback, findNVBForRef. unfold_m. cbn.
  destruct (dict_getitem (objdict (self s)) (ref_object_id m)) as [o|[]]; cbn.
  2-8: eexists; rewrite <- ?app_assoc; split; [reflexivity|done].
  destruct (nvb (self s)); cbn.
  - rewrite Hsal. cbn. eexists. rewrite <- ?app_assoc. split; [reflexivity|done].
  - eexists. rewrite <- ?app_assoc. split; [reflexivity|done].
Qed.

Lemma requests_of_step mc ev (tr : list Effect) :
  trace (world (session (step scoring saliency_of mc ev)))
  = trace (world (session mc)) ++ tr ->
  requests_of scoring saliency_of mc ev = tr.
Proof. intros Htr. unfold requests_of. by rewrite Htr, drop_app_length. Qed.

(** A step taken while the main thread waits runs neither the selector nor
    the saliency computation. *)
Lemma waiting_step_no_selection mc ev :
  phase mc = Waiting ->
  saliency_scores (self (session mc)) = None ->
  existsb is_selection (requests_of scoring saliency_of mc ev) = false.
Proof.
  intros Hph Hsal. destruct mc as [ph s]. cbn in Hph, Hsal. subst ph.
  assert (Hdeliver : forall cb : M unit,
    (exists tr, trace (world (cb s).2) = trace (world s) ++ tr
                /\ forallb no_selection tr = true) ->
    existsb is_selection
      (drop (length (trace (world s)))
         (trace (world (session (deliver cb (mkMachine Waiting s)))))) = false).
  { intros cb (tr & Htr & Hall). cbn. rewrite Htr, drop_app_length.
    by apply no_selection_requests. }
  destruct ev as [m|m|m|]; unfold requests_of; cbn [step session].
  - apply Hdeliver. by destruct (objectsInfoCallback_frame m s).
  - apply Hdeliver. by destruct (gazepointInfoCallback_frame m s).
  - apply Hdeliver. by apply objectRefCallback_before_saliency.
  - unfold step_main. cbn [phase session]. rewrite poll_run.
    destruct (scores_arrived (self s)); cbn.
    + by rewrite drop_all.
    + by rewrite drop_app_length.
Qed.

Lemma advance_phase {A} (ok : Phase) (r : result A * Session) :
  ok <> Waiting -> phase (advance ok r) <> Waiting.
Proof. intros Hok. by destruct r as [[a|e] s]. Qed.

Lemma advance_session {A} (ok : Phase) (r : result A * Session) :
  session (advance ok r) = r.2.
Proof. by destruct r as [[a|e] s]. Qed.

Lemma waiting_inv_step mc ev :
  waiting_inv mc -> waiting_inv (step scoring saliency_of mc ev).
Proof.
  intros [Hwait Hready]. destruct mc as [ph s]. cbn in Hwait, Hready.
  assert (Hdeliver : forall cb : M unit,
    respects (fun c c' => saliency_scores c' = saliency_scores c
                          /\ scores_stay c c') any cb ->
    waiting_inv (deliver cb (mkMachine ph s))).
  { intros cb Hcb. destruct (Hcb s) as [[Hsal [Hg Hp]] _].
    unfold deliver. cbn [phase session].
    destruct ph; (split; cbn; [intros Hph | intros Hph]); try done;
      try (rewrite Hsal; by apply Hwait);
      destruct Hready as [? ?]; auto. }
  assert (Hmain : forall {A} (ok : Phase) (m : M A),
    ok <> Waiting -> ph <> Waiting -> respects scores_stay any m ->
    waiting_inv (advance ok (m s))).
  { intros A ok m Hok Hph Hm. destruct (Hm s) as [[Hg Hp] _].
    destruct (Hready Hph) as [? ?]. split.
    - intros Hw. by apply advance_phase in Hw.
    - intros _. rewrite advance_session. auto. }
  destruct ev as [m|m|m|]; cbn [step].
  - apply Hdeliver. eapply respects_weaken; [| |apply objectsInfoCallback_frame].
    + intros c c' (Hg & Hp & Hs). split; [done|]. split; congruence.
    + done.
  - apply Hdeliver. eapply respects_weaken; [| |apply gazepointInfoCallback_frame];
      done.
  - apply Hdeliver. eapply respects_weaken; [| |apply objectRefCallback_frame].
    + by intros c c' <-.
    + done.
  - unfold step_main. cbn [phase session]. destruct ph.
    + rewrite poll_run. destruct (scores_arrived (self s)) eqn:Harr.
      * split; [done|]. intros _. by apply scores_arrived_true.
      * split; [intros _; by apply Hwait | done].
    + apply Hmain; [done|done|]. eapply respects_weaken; [| |apply settle_frame].
      * by intros c c' <-.
      * done.
    + apply Hmain; [done|done|]. apply init_saliency_scores_frame.
    + apply Hmain; [done|done|]. eapply respects_weaken; [| |apply startup_frame].
      * intros c c' (Hg & Hp & _). split; congruence.
      * done.
    + apply Hmain; [done|done|].
      eapply respects_weaken; [| |apply systemValidation_frame].
      * by intros c c' <-.
      * done.
    + apply Hmain; [done|done|].
      eapply respects_weaken with (R := eq) (P := any); [| |frame].
      * by intros c c' <-.
      * done.
    + destruct (shutdown_frame s) as [Hs _]. split; [done|]. intros _.
      cbn [session]. rewrite <- Hs. by apply Hready.
    + destruct (shutdown_frame s) as [Hs _]. split; [done|]. intros _.
      cbn [session]. rewrite <- Hs. by apply Hready.
    + done.
Qed.

Lemma waiting_inv_run mc (evs : list Event) :
  waiting_inv mc -> waiting_inv (run scoring saliency_of mc evs).
Proof.
  revert mc. induction evs as [|ev evs IH]; intros mc Hmc; [done|].
  cbn. by apply IH, waiting_inv_step.
Qed.

(** C8. In every state the session reaches from the entry of
    [waitForGazePointScores], a step in which the model selects an action
    or computes the saliency scores starts with a gaze record and a point
    record in the score stores. While it waits the main thread tests the
    stores, sleeps one second when a record is missing and tests again; it
    goes on only when both stores hold a record, and they do so ever
    after. While the main thread waits no step calls the model, whatever
    message is delivered: [findNVBForRef] is not gated and can be entered
    then, but not the model. *)
Theorem selector_waits_for_scores mc0 (evs : list Event) :
  entering_wait mc0 ->
  let mc := run scoring saliency_of mc0 evs in
  (forall ev,
     existsb is_selection (requests_of scoring saliency_of mc ev) = true ->
     gazescores (self (session mc)) <> ∅
     /\ pointscores (self (session mc)) <> ∅)
  /\ (phase mc = Waiting ->
      step scoring saliency_of mc MainThread
      = if scores_arrived (self (session mc))
        then mkMachine Settling (session mc)
        else mkMachine Waiting (slept (session mc) (ratio 1 1)))
  /\ (phase mc <> Waiting ->
      gazescores (self (session mc)) <> ∅
      /\ pointscores (self (session mc)) <> ∅)
  /\ (phase mc = Waiting ->
      forall ev,
        existsb is_selection (requests_of scoring saliency_of mc ev) = false).
Proof.
  intros [Hph Hsal] mc.
  assert (Hinv : waiting_inv mc).
  { apply waiting_inv_run. split; [done|]. by rewrite Hph. }
  destruct Hinv as [Hwait Hready]. split; [|split; [|split]].
  - intros ev Hsel. destruct (decide (phase mc = Waiting)) as [Hw|Hw].
    + rewrite waiting_step_no_selection in Hsel; [done|done|]. by apply Hwait.
    + by apply Hready.
  - intros Hw. cbn [step]. unfold step_main. rewrite Hw, poll_run.
    by destruct (scores_arrived (self (session mc))).
  - exact Hready.
  - intros Hw ev. apply waiting_step_no_selection; [done|]. by apply Hwait.
Qed.

End Readiness.

(** ** shutdown *)

Section Shutdown.

Implicit Types (s : Session) (ps : gmap Z Proc) (pid : Z).

Lemma bind_ok {A B} (m : M A) (k : A -> M B) s (b : B) s' :
  bind m k s = (Ok b, s') ->
  exists a s1, m s = (Ok a, s1) /\ k a s1 = (Ok b, s').
Proof.
  unfold bind. destruct (m s) as [[a|e] s1]; [eauto|done].
Qed.

(** Once the recording process has exited it has no child left. *)
Lemma no_children_after_exit ps pid :
  pid <> 1 -> children_of (signalled (omap (orphan pid) ps) pid) pid = [].
Proof.
  intros Hpid. unfold children_of.
  replace (filter (fun kv : Z * Proc => ppid kv.2 = pid)
             (signalled (omap (orphan pid) ps) pid)) with (∅ : gmap Z Proc).
  { by rewrite map_to_list_empty. }
  symmetry. apply map_empty. intros k. apply eq_None_not_Some.
  intros [q Hq]. apply map_lookup_filter_Some in Hq as [Hq Hpp]. cbn in Hpp.
  assert (Horphan : forall j q0, omap (orphan pid) ps !! j = Some q0 ->
                                 ppid q0 <> pid).
  { intros j q0 (q1 & Hq1 & _)%lookup_omap_Some. unfold orphan in Hq1.
    case_bool_decide as Hpp1.
    - destruct (defunct q1); [done|]. injection Hq1 as <-. cbn. congruence.
    - injection Hq1 as <-. done. }
  unfold signalled in Hq.
  apply lookup_alter_Some in Hq as [(_ & q0 & Hq0 & ->)|[_ Hq0]].
  - cbn in Hpp. by apply (Horphan k q0).
  - by apply (Horphan k q).
Qed.

Lemma popen_terminate_ok pid s s' :
  popen_terminate pid s = (Ok tt, s') ->
  self s' = self s
  /\ procs (world s')
     = signalled (omap (orphan pid) (procs (world s))) pid.
Proof.
  unfold popen_terminate. unfold_m. cbn.
  destruct (procs (world s) !! pid); [|done]. by intros [= <-].
Qed.

Lemma log_run lvl fmt args s :
  log lvl fmt args s
  = (Ok tt, mkSession (self s)
              (set_trace (world s) (trace (world s) ++ [Log lvl fmt args]))).
Proof. done. Qed.

(** A completed [shutdown] leaves the recording process without children. *)
Lemma shutdown_ok pid s :
  rosbags (self s) = Some pid ->
  (shutdown s).1 = Ok tt ->
  exists ps, procs (world (shutdown s).2) = signalled (omap (orphan pid) ps) pid.
Proof.
  intros Hros Hok. destruct (shutdown s) as [r s'] eqn:Hrun. cbn in Hok.
  subst r. unfold shutdown in Hrun.
  apply bind_ok in Hrun as ([] & s1 & H1 & Hrun).
  apply bind_ok in Hrun as ([] & s2 & H2 & Hrun).
  apply bind_ok in Hrun as ([] & s3 & H3 & Hrun).
  apply bind_ok in Hrun as (c & s4 & H4 & Hrun).
  injection H4 as <- <-.
  assert (Hself : self s3 = self s).
  { rewrite log_run in H1, H3. injection H1 as <-. injection H3 as <-.
    unfold request in H2. unfold_m. cbn in H2. by injection H2 as <-. }
  rewrite Hself, Hros in Hrun.
  apply bind_ok in Hrun as (out & s5 & H5 & Hrun). cbn zeta in Hrun.
  apply bind_ok in Hrun as ([] & s6 & H6 & Hrun).
  apply bind_ok in Hrun as ([] & s7 & H7 & Hrun).
  apply bind_ok in Hrun as ([] & s8 & H8 & Hrun).
  rewrite log_run in Hrun. injection Hrun as <-. cbn.
  apply popen_terminate_ok in H8 as [_ ->]. eauto.
Qed.

(** With no child of the recording process left, [ps] exits with status 1
    and the assertion on its status fails. *)
Lemma shutdown_without_children pid s :
  rosbags (self s) = Some pid ->
  children_of (procs (world s)) pid = [] ->
  (shutdown s).1 = Raise AssertionError.
Proof.
  intros Hros Hkids. unfold shutdown, ps_ppid. unfold_m. cbn.
  rewrite Hros. cbn. by rewrite Hkids.
Qed.

(** C7, on the code. A second [shutdown] after a completed one is not a
    no-op: the recording process has no child left, [ps] selects nothing and
    exits with status 1, and [assert retcode == 0] raises. [main] ends with
    [shutdown] and the [atexit] handler runs it again. *)
Theorem shutdown_twice_raises pid s :
  rosbags (self s) = Some pid ->
  pid <> 1 ->
  (shutdown s).1 = Ok tt ->
  (shutdown (shutdown s).2).1 = Raise AssertionError
  /\ forall scoring saliency_of,
       let mc1 := step scoring saliency_of (mkMachine Scripting s) MainThread in
       mc1 = mkMachine Exiting (shutdown s).2
       /\ step scoring saliency_of mc1 MainThread
          = mkMachine Exited (shutdown (shutdown s).2).2.
Proof.
  intros Hros Hpid Hok. split; [|done].
  destruct (shutdown_ok pid s Hros Hok) as [ps Hps].
  destruct (shutdown_frame s) as [Hself _].
  apply (shutdown_without_children pid).
  - by rewrite <- Hself.
  - rewrite Hps. by apply no_children_after_exit.
Qed.

End Shutdown.

(** ** main *)

Section Main.

Variable scoring :
  gmap Z Qc -> Z -> gmap Z Lego -> list string ->
  gmap Z (list Qc) -> gmap Z (list Qc) -> Action.
Variable saliency_of : Z -> gmap Z Lego -> gmap Z Qc.

(** The four moves of the main thread after [__init__] are [main], when
    no callback comes between them and [main] returns. *)
Lemma main_by_steps (s : Session) :
  (main scoring s).1 = Ok tt ->
  run scoring saliency_of (mkMachine Constructed s)
    [MainThread; MainThread; MainThread; MainThread]
  = mkMachine Exiting (main scoring s).2.
Proof.
  destruct (main scoring s) as [r s'] eqn:Hmain. cbn [fst snd]. intros ->.
  unfold main in Hmain.
  apply bind_ok in Hmain as ([] & s1 & H1 & Hmain).
  apply bind_ok in Hmain as ([] & s2 & H2 & Hmain).
  apply bind_ok in Hmain as ([] & s3 & H3 & Hmain).
  apply bind_ok in Hmain as ([] & s4 & H4 & Hmain).
  unfold run. cbn [foldl step]. unfold step_main at 4. cbn [phase session].
  rewrite H1. cbn [advance]. unfold step_main at 3. cbn [phase session].
  rewrite H2. cbn [advance]. unfold step_main at 2. cbn [phase session].
  unfold bind at 1. rewrite H3, H4. cbn [advance].
  unfold step_main. cbn [phase session]. by rewrite Hmain.
Qed.

End Main.

(** ** The properties on sample sessions *)

Section OnSamples.

Lemma bricks_keyed :
  forall k o, objdict (self Samples.session) !! k = Some o ->
              idnum o = k /\ words o <> [].
Proof.
  assert (H : map_Forall (fun k o => idnum o = k /\ words o <> []) Samples.bricks).
  { refine (bool_decide_eq_true_1 _ _). vm_compute. reflexivity. }
  exact H.
Defined.

Lemma stray_keyed :
  forall k o, objdict (self Samples.stray_session) !! k = Some o -> idnum o = k.
Proof.
  assert (H : map_Forall (fun k o => idnum o = k) Samples.bricks_and_stray).
  { refine (bool_decide_eq_true_1 _ _). vm_compute. reflexivity. }
  exact H.
Defined.

Lemma registry_reflects_last_update_witness :
  exists s', objectsInfoCallbacks Samples.updates Samples.session = (Ok tt, s').
Proof.
  destruct (registry_reflects_last_update Samples.session Samples.updates)
    as [(s' & Hrun & _) _].
  - repeat constructor; cbn; lia.
  - by exists s'.
Defined.

Lemma objectRefCallback_unknown_target_witness :
  dict_getitem (objdict (self Samples.session)) 9 = Raise KeyError.
Proof.
  apply (objectRefCallback_unknown_target Samples.scoring Samples.saliency_of
           Samples.session (mkScriptObjectRef 9 "the stray block")).
  reflexivity.
Defined.

Lemma validation_action_list_witness :
  exists l s1, buildActionList Samples.scoring Samples.session = (Ok l, s1)
               /\ length l = 24%nat.
Proof.
  destruct (validation_action_list Samples.scoring Samples.session)
    as (l & s1 & l' & s2 & Hbuild & _ & Hlen & _).
  - exact bricks_keyed.
  - discriminate.
  - exists l, s1. split; [exact Hbuild|]. exact Hlen.
Defined.

Lemma systemValidation_empty_words_witness :
  exists s', systemValidation Samples.scoring Samples.stray_session
             = (Raise AssertionError, s').
Proof.
  destruct (systemValidation_empty_words Samples.scoring Samples.stray_session)
    as [Hraise _].
  - exact stray_keyed.
  - discriminate.
  - destruct Hraise as (s' & Hrun & _).
    + exists 6, (Samples.brick 6 []). split; reflexivity.
    + by exists s'.
Defined.

Lemma shutdown_twice_raises_witness :
  (shutdown (shutdown Samples.session).2).1 = Raise AssertionError.
Proof.
  apply (shutdown_twice_raises 100 Samples.session).
  - reflexivity.
  - discriminate.
  - vm_compute. reflexivity.
Defined.

Lemma selector_waits_for_scores_witness :
  existsb is_selection
    (requests_of Samples.scoring Samples.saliency_of Samples.waiting
       (ScriptObjectRefMsg (mkScriptObjectRef 0 "small red")))
  = false.
Proof.
  destruct (selector_waits_for_scores Samples.scoring Samples.saliency_of
              Samples.constructing
              (MainThread :: map ObjectsInfoMsg Samples.six_updates))
    as (_ & _ & _ & Hwait).
  - split; reflexivity.
  - apply Hwait. vm_compute. reflexivity.
Defined.

(** C8, as stated, fails: the subscribers are registered before the wait,
    so a reference to a registered object that arrives while the
    constructor waits enters [findNVBForRef] with both score stores empty;
    reading [self.saliency_scores] then raises [AttributeError]. *)
Lemma findNVBForRef_entered_while_waiting :
  entering_wait Samples.constructing
  /\ phase Samples.waiting = Waiting
  /\ gazescores (self (session Samples.waiting)) = ∅
  /\ pointscores (self (session Samples.waiting)) = ∅
  /\ existsb enters_findNVBForRef
       (requests_of Samples.scoring Samples.saliency_of Samples.waiting
          (ScriptObjectRefMsg (mkScriptObjectRef 0 "small red")))
     = true
  /\ (objectRefCallback Samples.scoring (mkScriptObjectRef 0 "small red")
        (session Samples.waiting)).1
     = Raise AttributeError.
Proof.
  split; [by split|]. vm_compute. repeat split; reflexivity.
Qed.

Lemma actOutReference_budget_witness :
  (actOutReference "Touch the small red block." look
     [ratio 0 1; ratio 1 2; ratio 0 1] Samples.session).1 = Ok tt.
Proof.
  apply (actOutReference_budget "Touch the small red block." look
           [ratio 0 1; ratio 1 2; ratio 0 1] Samples.session).
  vm_compute. discriminate.
Defined.

(** C2, as stated, fails: when the two requests take three seconds each
    the length passed to [sleep] is [-1], and [sleep] refuses it. *)
Lemma actOutReference_negative_wait :
  exists waittime s1,
    actOutReference_waittime "Touch the small red block." look
      [ratio 0 1; ratio 1 2; ratio 0 1] Samples.slow_session
    = (Ok waittime, s1)
    /\ (waittime < ratio 0 1)%Qc
    /\ (actOutReference "Touch the small red block." look
          [ratio 0 1; ratio 1 2; ratio 0 1] Samples.slow_session).1
       = Raise IOError.
Proof.
  destruct (actOutReference_waittime_run "Touch the small red block." look
              [ratio 0 1; ratio 1 2; ratio 0 1] Samples.slow_session)
    as (s1 & Hrun & _).
  eexists _, s1. split; [exact Hrun|]. split.
  - vm_compute. reflexivity.
  - vm_compute. reflexivity.
Qed.

End OnSamples.

(** * More of the controller *)

(** ** Runs of sensor messages *)

Section SensorRuns.

Implicit Types (s : Session).

Lemma gazepointInfoCallback_run (m : GazePointInfo) s :
  exists s',
    gazepointInfoCallback m s = (Ok tt, s')
    /\ objdict (self s') = objdict (self s)
    /\ saliency_scores (self s') = saliency_scores (self s)
    /\ (forall id,
          gazescores (self s') !! id
          = if String.eqb (gp_type m) "gaze" && bool_decide (gp_target_id m = id)
            then Some (gp_scores m) else gazescores (self s) !! id)
    /\ (forall id,
          pointscores (self s') !! id
          = if String.eqb (gp_type m) "point" && bool_decide (gp_target_id m = id)
            then Some (gp_scores m) else pointscores (self s) !! id).
Proof.
  unfold gazepointInfoCallback. unfold_m.
  destruct (String.eqb (gp_type m) "gaze") eqn:Hgaze; cbn.
  - apply String.eqb_eq in Hgaze. rewrite Hgaze. cbn.
    eexists. split; [done|]. cbn. repeat split; try done.
    intros id. case_bool_decide as Hid.
    + subst id. by rewrite lookup_insert_eq.
    + by rewrite lookup_insert_ne.
  - destruct (String.eqb (gp_type m) "point"); cbn.
    + eexists. split; [done|]. cbn. repeat split; try done.
      intros id. case_bool_decide as Hid.
      * subst id. by rewrite lookup_insert_eq.
      * by rewrite lookup_insert_ne.
    + eexists. split; [done|]. cbn. repeat split; done.
Qed.

(** X1. After any run of score messages each store holds, for every target
    the run names under its type, the scores of the last such message, and
    is unchanged at the other targets; a message of another type changes
    neither store; the registry and the saliency scores are untouched, and
    the callback never raises. *)
Theorem score_stores_reflect_last_message s (msgs : list GazePointInfo) :
  exists s',
    gazepointInfoCallbacks msgs s = (Ok tt, s')
    /\ objdict (self s') = objdict (self s)
    /\ saliency_scores (self s') = saliency_scores (self s)
    /\ (forall id,
          gazescores (self s') !! id
          = match last_scores "gaze" id msgs with
            | Some x => Some x
            | None => gazescores (self s) !! id
            end)
    /\ (forall id,
          pointscores (self s') !! id
          = match last_scores "point" id msgs with
            | Some x => Some x
            | None => pointscores (self s) !! id
            end).
Proof.
  revert s. induction msgs as [|m rest IH]; intros s.
  - by exists s.
  - destruct (gazepointInfoCallback_run m s) as (s1 & Hrun & Ho & Hs & Hg & Hp).
    destruct (IH s1) as (s' & Hrest & Ho' & Hs' & Hg' & Hp').
    exists s'. split; [|split; [congruence|split; [congruence|split]]].
    + unfold gazepointInfoCallbacks in *. cbn [for_each]. unfold bind.
      by rewrite Hrun.
    + intros id. rewrite Hg'. cbn [last_scores].
      destruct (last_scores "gaze" id rest); [done|]. rewrite Hg.
      by destruct (_ && _).
    + intros id. rewrite Hp'. cbn [last_scores].
      destruct (last_scores "point" id rest); [done|]. rewrite Hp.
      by destruct (_ && _).
Qed.

(** X2. An object update whose position has fewer than three coordinates
    raises [IndexError] before anything is stored: the session is
    unchanged. *)
Theorem objectsInfoCallback_short_position (m : ObjectsInfo) s :
  (length (oi_pos m) < 3)%nat ->
  objectsInfoCallback m s = (Raise IndexError, s).
Proof.
  intros Hlen. unfold objectsInfoCallback, convertCoords. unfold_m.
  destruct (oi_pos m) as [|a [|b [|c p]]]; cbn in *; try done. lia.
Qed.

#[local] Instance registry_extends_preorder : PreOrder registry_extends.
Proof.
  split.
  - intros c. split; [done|]. intros k o Hk. by exists o.
  - intros c1 c2 c3 [Hk12 H12] [Hk23 H23]. split; [auto|].
    intros k o Hk. destruct (H12 k o Hk) as (o2 & Hk2 & ? & ? & ? & ?).
    destruct (H23 k o2 Hk2) as (o3 & Hk3 & ? & ? & ? & ?).
    exists o3. repeat split; congruence.
Qed.

Lemma objectsInfoCallback_extends (m : ObjectsInfo) :
  respects registry_extends no_selection (objectsInfoCallback m).
Proof.
  intros s. unfold objectsInfoCallback. unfold_m.
  destruct (convertCoords (oi_pos m)) as [pos|e]; cbn.
  2: { split; [done|]. exists []. by rewrite app_nil_r. }
  destruct (objdict (self s) !! oi_object_id m) as [o|] eqn:Hlook; cbn.
  - case_bool_decide; cbn.
    { split; [done|]. exists []. by rewrite app_nil_r. }
    split; [|exists []; by rewrite app_nil_r]. split.
    + intros Hkeyed k o'. cbn.
      destruct (decide (k = oi_object_id m)) as [->|Hne].
      * rewrite lookup_insert_eq. intros [= <-]. cbn. by apply Hkeyed.
      * rewrite lookup_insert_ne by done. apply Hkeyed.
    + intros k o' Hk. cbn.
      destruct (decide (k = oi_object_id m)) as [->|Hne].
      * rewrite lookup_insert_eq. rewrite Hlook in Hk. injection Hk as <-.
        by eexists.
      * rewrite lookup_insert_ne by done. by exists o'.
  - split; [|by eexists [_]]. split.
    + intros Hkeyed k o'. cbn.
      destruct (decide (k = oi_object_id m)) as [->|Hne].
      * rewrite lookup_insert_eq. by intros [= <-].
      * rewrite lookup_insert_ne by done. apply Hkeyed.
    + intros k o' Hk. cbn.
      destruct (decide (k = oi_object_id m)) as [->|Hne]; [congruence|].
      rewrite lookup_insert_ne by done. by exists o'.
Qed.

(** X3. Whatever the run of object updates, and however it ends, no object
    leaves the registry and no object's ID, colors or descriptor words
    change: an update can only move an object or add one. A registry keyed
    by [idnum] stays keyed by it. *)
Theorem updates_only_move_or_add s (msgs : list ObjectsInfo) :
  registry_extends (self s) (self (objectsInfoCallbacks msgs s).2).
Proof.
  assert (H : respects registry_extends no_selection (objectsInfoCallbacks msgs)).
  { unfold objectsInfoCallbacks. apply respects_for_each; [apply _|].
    apply objectsInfoCallback_extends. }
  by destruct (H s).
Qed.

End SensorRuns.

(** ** References to known objects *)

Section KnownReferences.

Variable scoring :
  gmap Z Qc -> Z -> gmap Z Lego -> list string ->
  gmap Z (list Qc) -> gmap Z (list Qc) -> Action.

Implicit Types (s : Session) (m : ScriptObjectRef).

(** X4. A reference to an object of the registry, with the selector usable
    (nonverbal behavior off, or the saliency scores assigned): the handler
    returns, the controller is unchanged, and exactly one request goes to
    the robot, a gesture at the stored position of the target with the
    proposed action; the selector is run exactly when nonverbal behavior is
    on. *)
Theorem objectRefCallback_known_target s m (o : Lego) :
  objdict (self s) !! ref_object_id m = Some o ->
  (nvb (self s) = true -> saliency_scores (self s) <> None) ->
  exists s' tr,
    objectRefCallback scoring m s = (Ok tt, s')
    /\ self s' = self s
    /\ trace (world s') = trace (world s) ++ tr
    /\ List.filter is_robot_action tr
       = [DoGesture (proposed scoring s m) (loc o) None]
    /\ existsb is_selection tr = nvb (self s)
    /\ clock (world s')
       = (clock (world s)
          + latency (world s) (DoGesture (proposed scoring s m) (loc o) None))%Qc.
Proof.
  intros Ho Hsal. unfold proposed.
  unfold objectRefCallback, findNVBForRef, calculateNVBForRef, dict_getitem.
  unfold_m. cbn. rewrite Ho. cbn.
  destruct (nvb (self s)); cbn.
  - destruct (saliency_scores (self s)) as [sal|]; [|by destruct Hsal].
    cbn. rewrite Ho. cbn. eexists _, _. split; [reflexivity|]. cbn.
    split; [done|]. rewrite <- !app_assoc. split; [reflexivity|]. done.
  - eexists _, _. split; [reflexivity|]. cbn.
    split; [done|]. rewrite <- !app_assoc. split; [reflexivity|].
    by destruct (saliency_scores (self s)).
Qed.

(** X5. A reference to an object of the registry that arrives with
    nonverbal behavior on and the saliency scores not yet assigned raises
    [AttributeError]: the model is not called, the controller is unchanged
    and no request goes to the robot. *)
Theorem objectRefCallback_before_init s m (o : Lego) :
  objdict (self s) !! ref_object_id m = Some o ->
  nvb (self s) = true ->
  saliency_scores (self s) = None ->
  exists s' tr,
    objectRefCallback scoring m s = (Raise AttributeError, s')
    /\ self s' = self s
    /\ trace (world s') = trace (world s) ++ tr
    /\ forallb quiet tr = true
    /\ existsb is_selection tr = false
    /\ clock (world s') = clock (world s).
Proof.
  intros Ho Hnvb Hsal.
  unfold objectRefCallback, findNVBForRef, calculateNVBForRef, dict_getitem.
  unfold_m. cbn. rewrite Ho. cbn. rewrite Hnvb. cbn. rewrite Hsal. cbn.
  eexists _, _. split; [reflexivity|]. cbn. split; [done|].
  rewrite <- !app_assoc. split; [reflexivity|]. done.
Qed.

End KnownReferences.

(** ** startup *)

Section Startup.

Implicit Types (s : Session) (d : gmap Z Lego).

Lemma stood_self s : self (stood s) = self s.
Proof. done. Qed.

Lemma stood_trace s :
  trace (world (stood s))
  = trace (world s) ++ [Stand; Sleep (ratio 5 1); StartIdle].
Proof. unfold stood, slept. cbn. by rewrite <- !app_assoc. Qed.

Lemma request_run (e : Effect) s :
  request e s
  = (Ok tt,
     mkSession (self s)
       (set_clock (set_trace (world s) (trace (world s) ++ [e]))
          (clock (world s) + latency (world s) e)%Qc)).
Proof. done. Qed.

Lemma startup_unfold s :
  startup s
  = (let* c := get_self in
     assert_ (size (objdict c) =? 6)%nat ;;
     assign_words 0 ["small red"] ;;
     assign_words 1 ["large orange"] ;;
     assign_words 2 ["small yellow"] ;;
     assign_words 3 ["large lime"] ;;
     assign_words 4 ["small green"] ;;
     assign_words 5 ["large blue"]) (stood s).
Proof.
  unfold startup. unfold bind at 1. rewrite request_run.
  unfold bind at 1. rewrite sleep_run by qc_lra.
  unfold bind at 1. unfold stood. by rewrite !request_run.
Qed.

Lemma assign_words_run (k : Z) (w : list string) s :
  assign_words k w s
  = match objdict (self s) !! k with
    | Some o =>
      (Ok tt,
       mkSession (set_objdict (self s) (<[k := set_words o w]> (objdict (self s))))
         (world s))
    | None => (Raise KeyError, s)
    end.
Proof.
  unfold assign_words, dict_getitem. unfold_m. cbn.
  by destruct (objdict (self s) !! k).
Qed.

(** The registry [startup] leaves when the six objects are there. *)
Lemma startup_assigns s (o0 o1 o2 o3 o4 o5 : Lego) :
  size (objdict (self s)) = 6%nat ->
  objdict (self s) !! 0 = Some o0 -> objdict (self s) !! 1 = Some o1 ->
  objdict (self s) !! 2 = Some o2 -> objdict (self s) !! 3 = Some o3 ->
  objdict (self s) !! 4 = Some o4 -> objdict (self s) !! 5 = Some o5 ->
  exists s',
    startup s = (Ok tt, s')
    /\ world s' = world (stood s)
    /\ objdict (self s')
       = <[5 := set_words o5 ["large blue"]]>
           (<[4 := set_words o4 ["small green"]]>
              (<[3 := set_words o3 ["large lime"]]>
                 (<[2 := set_words o2 ["small yellow"]]>
                    (<[1 := set_words o1 ["large orange"]]>
                       (<[0 := set_words o0 ["small red"]]>
                          (objdict (self s))))))).
Proof.
  intros Hsize H0 H1 H2 H3 H4 H5. rewrite startup_unfold.
  unfold bind at 1. cbn [get_self]. rewrite stood_self.
  unfold bind at 1. rewrite Hsize. cbn [Nat.eqb assert_ ret].
  repeat (unfold bind at 1; rewrite assign_words_run;
          cbn [self objdict set_objdict]; rewrite ?stood_self;
          rewrite ?lookup_insert_ne by done;
          first [rewrite H0 | rewrite H1 | rewrite H2 | rewrite H3 | rewrite H4];
          cbv beta iota).
  rewrite assign_words_run. cbn [self objdict set_objdict].
  rewrite ?stood_self. rewrite ?lookup_insert_ne by done. rewrite H5.
  eexists. split; [reflexivity|]. done.
Qed.

Lemma started_lookup (k : Z) d (o0 o1 o2 o3 o4 o5 : Lego) :
  d !! 0 = Some o0 -> d !! 1 = Some o1 -> d !! 2 = Some o2 ->
  d !! 3 = Some o3 -> d !! 4 = Some o4 -> d !! 5 = Some o5 ->
  <[5 := set_words o5 ["large blue"]]>
    (<[4 := set_words o4 ["small green"]]>
       (<[3 := set_words o3 ["large lime"]]>
          (<[2 := set_words o2 ["small yellow"]]>
             (<[1 := set_words o1 ["large orange"]]>
                (<[0 := set_words o0 ["small red"]]> d))))) !! k
  = started k <$> d !! k.
Proof.
  intros H0 H1 H2 H3 H4 H5. unfold started, startup_words.
  destruct (decide (k = 5)) as [->|?]; [by rewrite lookup_insert_eq, H5|].
  rewrite lookup_insert_ne by done.
  destruct (decide (k = 4)) as [->|?]; [by rewrite lookup_insert_eq, H4|].
  rewrite lookup_insert_ne by done.
  destruct (decide (k = 3)) as [->|?]; [by rewrite lookup_insert_eq, H3|].
  rewrite lookup_insert_ne by done.
  destruct (decide (k = 2)) as [->|?]; [by rewrite lookup_insert_eq, H2|].
  rewrite lookup_insert_ne by done.
  destruct (decide (k = 1)) as [->|?]; [by rewrite lookup_insert_eq, H1|].
  rewrite lookup_insert_ne by done.
  destruct (decide (k = 0)) as [->|?]; [by rewrite lookup_insert_eq, H0|].
  rewrite lookup_insert_ne by done.
  repeat (rewrite bool_decide_eq_false_2 by done).
  by destruct (d !! k) as [[]|].
Qed.

(** When the registry holds six objects, [startup] returns or raises
    [KeyError], and it returns only if the objects 0 to 5 are there. *)
Lemma startup_six s :
  size (objdict (self s)) = 6%nat ->
  ((startup s).1 = Ok tt
   /\ exists o0 o1 o2 o3 o4 o5,
        objdict (self s) !! 0 = Some o0 /\ objdict (self s) !! 1 = Some o1
        /\ objdict (self s) !! 2 = Some o2 /\ objdict (self s) !! 3 = Some o3
        /\ objdict (self s) !! 4 = Some o4 /\ objdict (self s) !! 5 = Some o5)
  \/ ((startup s).1 = Raise KeyError
      /\ exists k, 0 <= k <= 5 /\ objdict (self s) !! k = None).
Proof.
  intros Hsize.
  destruct (objdict (self s) !! 0) as [o0|] eqn:H0;
  [destruct (objdict (self s) !! 1) as [o1|] eqn:H1;
   [destruct (objdict (self s) !! 2) as [o2|] eqn:H2;
    [destruct (objdict (self s) !! 3) as [o3|] eqn:H3;
     [destruct (objdict (self s) !! 4) as [o4|] eqn:H4;
      [destruct (objdict (self s) !! 5) as [o5|] eqn:H5|]|]|]|]|].
  1: { left. destruct (startup_assigns s o0 o1 o2 o3 o4 o5) as (s' & -> & _);
         try done. split; [done|]. by exists o0, o1, o2, o3, o4, o5. }
  all: right; (split; [|eexists; split; [|eassumption]; lia]).
  all: rewrite startup_unfold; unfold bind at 1; cbn [get_self];
    rewrite stood_self; unfold bind at 1; rewrite Hsize;
    cbn [Nat.eqb assert_ ret].
  all: repeat (unfold bind at 1; rewrite assign_words_run;
               cbn [self objdict set_objdict]; rewrite ?stood_self;
               rewrite ?lookup_insert_ne by done;
               first [rewrite H0 | rewrite H1 | rewrite H2 | rewrite H3
                     | rewrite H4 | rewrite H5]; cbv beta iota; try done).
  all: rewrite assign_words_run; cbn [self objdict set_objdict];
    rewrite ?stood_self; rewrite ?lookup_insert_ne by done; by rewrite H5.
Qed.

End Startup.

(** ** Frame rules for the world *)

Section WorldFrame.

Context (W : World -> World -> Prop) `{!PreOrder W}.

Lemma world_ret {A} (a : A) : world_respects W (ret a).
Proof. by intros s. Qed.

Lemma world_raise {A} (e : exn) : world_respects W (@raise A e).
Proof. by intros s. Qed.

Lemma world_lift {A} (r : result A) : world_respects W (lift r).
Proof. by intros s. Qed.

Lemma world_get_self : world_respects W get_self.
Proof. by intros s. Qed.

Lemma world_get_world : world_respects W get_world.
Proof. by intros s. Qed.

Lemma world_put_self (c : Controller) : world_respects W (put_self c).
Proof. by intros s. Qed.

Lemma world_time : world_respects W time.
Proof. by intros s. Qed.

Lemma world_assert (b : bool) : world_respects W (assert_ b).
Proof. by destruct b; intros s. Qed.

Lemma world_bind {A B} (m : M A) (k : A -> M B) :
  world_respects W m -> (forall a, world_respects W (k a)) ->
  world_respects W (bind m k).
Proof.
  intros Hm Hk s. unfold bind. specialize (Hm s).
  destruct (m s) as [[a|e] s1]; cbn in *; [|done].
  etrans; [exact Hm|]. apply Hk.
Qed.

Lemma world_attempt {A} (m : M A) :
  world_respects W m -> world_respects W (attempt m).
Proof. intros Hm s. unfold attempt. specialize (Hm s). by destruct (m s). Qed.

Lemma world_for_each {A} (l : list A) (body : A -> M unit) :
  (forall a, world_respects W (body a)) -> world_respects W (for_each l body).
Proof.
  intros Hbody. induction l as [|a l IH]; cbn [for_each].
  - apply world_ret.
  - apply world_bind; [apply Hbody | intros _; apply IH].
Qed.

Lemma world_fold_each {A B} (l : list A) (acc : B) (body : B -> A -> M B) :
  (forall b a, world_respects W (body b a)) ->
  world_respects W (fold_each l acc body).
Proof.
  intros Hbody. revert acc. induction l as [|a l IH]; intros acc; cbn [fold_each].
  - apply world_ret.
  - apply world_bind; [apply Hbody | intros acc'; apply IH].
Qed.

Lemma world_emit (e : Effect) : trace_closed W -> world_respects W (emit e).
Proof. intros Ht s. apply Ht. Qed.

Lemma world_log lvl fmt args :
  trace_closed W -> world_respects W (log lvl fmt args).
Proof. apply world_emit. Qed.

Lemma world_request (e : Effect) :
  trace_closed W -> clock_closed W -> world_respects W (request e).
Proof.
  intros Ht Hc s. rewrite request_run. cbn. etrans; [apply Ht|apply Hc].
Qed.

Lemma world_sleep (d : Qc) :
  trace_closed W -> clock_closed W -> world_respects W (sleep d).
Proof.
  intros Ht Hc s. unfold sleep. destruct (Qc_ltb d (ratio 0 1)); [done|].
  cbn. etrans; [apply Ht|apply Hc].
Qed.

Lemma world_random_below (n : nat) :
  drawn_closed W -> world_respects W (random_below n).
Proof. intros Hd s. apply Hd. Qed.

End WorldFrame.

Create HintDb wframe.

#[local] Hint Resolve world_ret world_raise world_lift world_get_self
  world_get_world world_put_self world_time world_assert world_attempt : wframe.
#[local] Hint Extern 0 (PreOrder _) => apply _ : wframe.
#[local] Hint Extern 0 (trace_closed _) => done : wframe.
#[local] Hint Extern 0 (clock_closed _) => done : wframe.
#[local] Hint Extern 0 (drawn_closed _) => done : wframe.
#[local] Hint Extern 1 (world_respects _ (bind _ _)) =>
  apply world_bind; [apply _| |intros] : wframe.
#[local] Hint Extern 1 (world_respects _ (emit _)) => apply world_emit : wframe.
#[local] Hint Extern 1 (world_respects _ (log _ _ _)) => apply world_log : wframe.
#[local] Hint Extern 1 (world_respects _ (request _)) =>
  apply world_request : wframe.
#[local] Hint Extern 1 (world_respects _ (sleep _)) => apply world_sleep : wframe.
#[local] Hint Extern 1 (world_respects _ (random_below _)) =>
  apply world_random_below : wframe.
#[local] Hint Extern 1 (world_respects _ (for_each _ _)) =>
  apply world_for_each; [apply _|intros] : wframe.
#[local] Hint Extern 1 (world_respects _ (fold_each _ _ _)) =>
  apply world_fold_each; [apply _|intros] : wframe.
#[local] Hint Extern 2 (world_respects _ (match ?x with _ => _ end)) =>
  destruct x : wframe.
#[local] Hint Extern 2 (world_respects _ (if ?x then _ else _)) =>
  destruct x : wframe.

Ltac wframe := eauto 60 with wframe.

#[local] Instance same_time_preorder : PreOrder same_time.
Proof.
  split; [by intros w|]. intros w1 w2 w3 [? ?] [? ?]. split; congruence.
Qed.

#[local] Instance same_latency_preorder : PreOrder same_latency.
Proof. split; [by intros w|]. unfold same_latency. intros w1 w2 w3 ? ?. congruence. Qed.

#[local] Instance same_procs_preorder : PreOrder same_procs.
Proof. split; [by intros w|]. unfold same_procs. intros w1 w2 w3 ? ?. congruence. Qed.

(** ** startup: when it returns, and what it leaves *)

Section StartupOutcome.

Implicit Types (s : Session).

Lemma assign_words_world (k : Z) (w : list string) :
  world_respects eq (assign_words k w).
Proof.
  intros s. rewrite assign_words_run. by destruct (objdict (self s) !! k).
Qed.

Lemma startup_world s : world (startup s).2 = world (stood s).
Proof.
  rewrite startup_unfold. symmetry.
  assert (H : world_respects eq
    (let* c := get_self in
     assert_ (size (objdict c) =? 6)%nat ;;
     assign_words 0 ["small red"] ;;
     assign_words 1 ["large orange"] ;;
     assign_words 2 ["small yellow"] ;;
     assign_words 3 ["large lime"] ;;
     assign_words 4 ["small green"] ;;
     assign_words 5 ["large blue"])).
  { pose proof assign_words_world. wframe. }
  apply H.
Qed.

Lemma startup_wrong_size s :
  size (objdict (self s)) <> 6%nat ->
  startup s = (Raise AssertionError, stood s).
Proof.
  intros Hsize. rewrite startup_unfold. unfold bind at 1. cbn [get_self].
  rewrite stood_self. unfold bind at 1.
  apply Nat.eqb_neq in Hsize. by rewrite Hsize.
Qed.

Lemma six_ids_present (d : gmap Z Lego) (o0 o1 o2 o3 o4 o5 : Lego) :
  size d = 6%nat ->
  d !! 0 = Some o0 -> d !! 1 = Some o1 -> d !! 2 = Some o2 ->
  d !! 3 = Some o3 -> d !! 4 = Some o4 -> d !! 5 = Some o5 ->
  dom d = six_ids.
Proof.
  intros Hsize H0 H1 H2 H3 H4 H5. symmetry.
  apply set_subseteq_size_eq.
  - intros k Hk. apply elem_of_dom. unfold six_ids in Hk.
    rewrite elem_of_list_to_set in Hk.
    repeat (apply list.elem_of_cons in Hk as [->|Hk]; [eauto|]).
    by apply list.elem_of_nil in Hk.
  - rewrite size_dom, Hsize. done.
Qed.

Lemma six_ids_lookup (d : gmap Z Lego) (k : Z) :
  dom d = six_ids -> 0 <= k <= 5 -> is_Some (d !! k).
Proof.
  intros Hdom Hk. apply elem_of_dom. rewrite Hdom. unfold six_ids.
  rewrite elem_of_list_to_set.
  rewrite !list.elem_of_cons. lia.
Qed.

(** X6. [startup] returns exactly when the registry holds the objects 0 to
    5 and no other. It then leaves every object its ID, position and
    colors and gives each its descriptor words, and the world is the one
    in which the robot has stood up, five seconds have passed and the
    robot idles. *)
Theorem startup_returns_iff s :
  ((startup s).1 = Ok tt <-> dom (objdict (self s)) = six_ids)
  /\ ((startup s).1 = Ok tt ->
      (forall k, objdict (self (startup s).2) !! k
                 = started k <$> objdict (self s) !! k)
      /\ world (startup s).2 = world (stood s)).
Proof.
  assert (Hok : (startup s).1 = Ok tt ->
    exists o0 o1 o2 o3 o4 o5,
      size (objdict (self s)) = 6%nat
      /\ objdict (self s) !! 0 = Some o0 /\ objdict (self s) !! 1 = Some o1
      /\ objdict (self s) !! 2 = Some o2 /\ objdict (self s) !! 3 = Some o3
      /\ objdict (self s) !! 4 = Some o4 /\ objdict (self s) !! 5 = Some o5).
  { intros Hrun.
    destruct (decide (size (objdict (self s)) = 6%nat)) as [Hsize|Hsize].
    - destruct (startup_six s Hsize) as [(_ & o0 & o1 & o2 & o3 & o4 & o5 & H)
                                        |[Hkey _]].
      + exists o0, o1, o2, o3, o4, o5. by split.
      + by rewrite Hkey in Hrun.
    - by rewrite startup_wrong_size in Hrun. }
  split; [split|].
  - intros Hrun.
    destruct (Hok Hrun) as (o0 & o1 & o2 & o3 & o4 & o5 & Hsize & H).
    destruct H as (H0 & H1 & H2 & H3 & H4 & H5).
    by apply (six_ids_present _ o0 o1 o2 o3 o4 o5).
  - intros Hdom.
    assert (Hsize : size (objdict (self s)) = 6%nat).
    { by rewrite <- size_dom, Hdom. }
    destruct (startup_six s Hsize) as [[Hrun _]|(_ & k & Hk & Hnone)]; [done|].
    destruct (six_ids_lookup _ k Hdom Hk) as [o Ho]. congruence.
  - intros Hrun. split; [|apply startup_world].
    destruct (Hok Hrun) as (o0 & o1 & o2 & o3 & o4 & o5 & Hsize & H).
    destruct H as (H0 & H1 & H2 & H3 & H4 & H5).
    destruct (startup_assigns s o0 o1 o2 o3 o4 o5) as (s' & Hs' & _ & Hd);
      try done.
    intros k. rewrite Hs'. cbn [snd]. rewrite Hd.
    by apply started_lookup.
Qed.

(** X7. On any other registry [startup] raises, after the robot has stood
    up and idles: [AssertionError] with the controller unchanged when the
    registry does not hold six objects, [KeyError] when it holds six but
    not the objects 0 to 5. *)
Theorem startup_raises s :
  dom (objdict (self s)) <> six_ids ->
  (startup s).1
  = (if (size (objdict (self s)) =? 6)%nat then Raise KeyError
     else Raise AssertionError)
  /\ (size (objdict (self s)) <> 6%nat -> self (startup s).2 = self s)
  /\ trace (world (startup s).2)
     = trace (world s) ++ [Stand; Sleep (ratio 5 1); StartIdle].
Proof.
  intros Hdom. split; [|split].
  - destruct (size (objdict (self s)) =? 6)%nat eqn:Hsize.
    + apply Nat.eqb_eq in Hsize.
      destruct (startup_six s Hsize)
        as [(_ & o0 & o1 & o2 & o3 & o4 & o5 & H)|[Hkey _]]; [|done].
      destruct H as (H0 & H1 & H2 & H3 & H4 & H5). destruct Hdom.
      by apply (six_ids_present _ o0 o1 o2 o3 o4 o5).
    + apply Nat.eqb_neq in Hsize. by rewrite startup_wrong_size.
  - intros Hsize. by rewrite startup_wrong_size.
  - by rewrite startup_world, stood_trace.
Qed.

End StartupOutcome.

(** ** A whole run of systemValidation *)

Section ValidationRun.

Variable scoring :
  gmap Z Qc -> Z -> gmap Z Lego -> list string ->
  gmap Z (list Qc) -> gmap Z (list Qc) -> Action.

Implicit Types (s : Session) (o : Lego) (acc : list Entry).

Lemma traced_nil s : traced s [] = s.
Proof.
  unfold traced. rewrite app_nil_r. by destruct s as [c []].
Qed.

Lemma traced_app s (tr1 tr2 : list Effect) :
  traced (traced s tr1) tr2 = traced s (tr1 ++ tr2).
Proof. unfold traced. cbn. by rewrite app_assoc. Qed.

Lemma validation_row_run acc o s :
  words o <> [] ->
  saliency_scores (self s) <> None ->
  is_Some (objdict (self s) !! idnum o) ->
  validation_row scoring acc o s
  = (Ok (acc ++ map entry_of (map (fun a => (a, o)) all_actions)),
     traced s (row_requests scoring (self s) o)).
Proof.
  intros Hw Hsal [o' Ho'].
  destruct (words o) as [|w ws] eqn:Hwords; [done|].
  destruct (saliency_scores (self s)) as [sal|] eqn:Hsal'; [|done].
  unfold validation_row, findNVBForRef, calculateNVBForRef, row_requests,
    correct_act, traced, entry_of.
  rewrite Hwords. unfold_m. cbn. rewrite Hsal'. cbn. rewrite Ho'. cbn.
  rewrite Hwords. cbn. by rewrite <- !app_assoc.
Qed.

Lemma fold_validation_run (objs : list Lego) acc s :
  Forall (fun o => words o <> [] /\ is_Some (objdict (self s) !! idnum o)) objs ->
  saliency_scores (self s) <> None ->
  fold_each objs acc (validation_row scoring) s
  = (Ok (acc ++ map entry_of (action_pairs objs)),
     traced s (flat_map (row_requests scoring (self s)) objs)).
Proof.
  intros Hobjs Hsal. revert acc s Hobjs Hsal.
  induction objs as [|o objs IH]; intros acc s Hobjs Hsal.
  - cbn. by rewrite app_nil_r, traced_nil.
  - inversion Hobjs as [|? ? [Hw Hin] Hrest]; subst.
    cbn [fold_each]. unfold bind. rewrite validation_row_run by done.
    rewrite IH by done. cbn [self traced]. rewrite traced_app.
    unfold action_pairs. cbn [flat_map]. rewrite map_app.
    by rewrite <- app_assoc.
Qed.

Lemma ratio_plus (a b : Z) : ratio (a + b) 1 = (ratio a 1 + ratio b 1)%Qc.
Proof.
  unfold ratio. apply Qc_is_canon. unfold Qcplus, Q2Qc. cbn [this].
  rewrite !Qred_correct. unfold Qeq, Qplus. cbn. lia.
Qed.

Lemma shuffle_down_run {A} (i : nat) (x : list A) s :
  (i < length x)%nat ->
  exists x' n,
    shuffle_down i x s = (Ok x', mkSession (self s) (set_drawn (world s) n))
    /\ x' ≡ₚ x.
Proof.
  revert x s. induction i as [|i IH]; intros x s Hi.
  - exists x, (drawn (world s)). split; [|done]. cbn.
    by destruct s as [c []].
  - cbn [shuffle_down]. unfold bind at 1. rewrite random_below_run.
    set (j := (random (world s) (drawn (world s)) mod S (S i))%nat).
    assert (Hj : (j < length x)%nat).
    { pose proof (Nat.mod_upper_bound (random (world s) (drawn (world s)))
                    (S (S i))). lia. }
    destruct (swap_Permutation x (S i) j Hi Hj) as (x1 & Hswap & Hperm).
    unfold bind, lift. rewrite Hswap.
    destruct (IH x1 (mkSession (self s) (set_drawn (world s) (S (drawn (world s))))))
      as (x' & n & Hrun & Hperm').
    { apply Permutation_length in Hperm. lia. }
    exists x', n. split; [by rewrite Hrun|by etrans].
Qed.

Lemma random_shuffle_run {A} (x : list A) s :
  exists x' n,
    random_shuffle x s = (Ok x', mkSession (self s) (set_drawn (world s) n))
    /\ x' ≡ₚ x.
Proof.
  unfold random_shuffle. destruct x as [|a x].
  - exists [], (drawn (world s)). split; [|done]. cbn. by destruct s as [c []].
  - apply shuffle_down_run. cbn. lia.
Qed.

Lemma dispatch_overhead_latency prompt action location (w w' : World) :
  latency w' = latency w ->
  dispatch_overhead prompt action location w'
  = dispatch_overhead prompt action location w.
Proof. unfold dispatch_overhead. by intros ->. Qed.

Lemma actOutReference_run prompt action location s :
  (dispatch_overhead prompt action location (world s) <= ratio 5 1)%Qc ->
  exists s' waittime,
    actOutReference prompt action location s = (Ok tt, s')
    /\ self s' = self s
    /\ latency (world s') = latency (world s)
    /\ procs (world s') = procs (world s)
    /\ clock (world s') = (clock (world s) + ratio 5 1)%Qc
    /\ trace (world s')
       = trace (world s)
         ++ [Speak prompt false; DoGesture action location (Some false);
             Sleep waittime].
Proof.
  intros Hle.
  destruct (actOutReference_waittime_run prompt action location s)
    as (s1 & Hrun & Hself & Hclock).
  assert (Hs1 : latency (world s1) = latency (world s)
                /\ procs (world s1) = procs (world s)
                /\ trace (world s1)
                   = trace (world s)
                     ++ [Speak prompt false;
                         DoGesture action location (Some false)]).
  { unfold actOutReference_waittime in Hrun. unfold_m. cbn in Hrun.
    injection Hrun as _ <-. cbn. by rewrite <- app_assoc. }
  destruct Hs1 as (Hlat & Hprocs & Htrace).
  unfold actOutReference, bind. rewrite Hrun.
  rewrite sleep_run by qc_lra.
  eexists _, _. split; [reflexivity|]. unfold slept. cbn.
  split; [done|]. split; [done|]. split; [done|]. split.
  - rewrite Hclock. qc_to_q. ring.
  - by rewrite Htrace, <- app_assoc.
Qed.

Lemma act_out_run (l : list Entry) s :
  (forall prompt action location,
     (dispatch_overhead prompt action location (world s) <= ratio 5 1)%Qc) ->
  exists s' tr,
    act_out l s = (Ok tt, s')
    /\ self s' = self s
    /\ latency (world s') = latency (world s)
    /\ procs (world s') = procs (world s)
    /\ clock (world s')
       = (clock (world s) + ratio (5 * Z.of_nat (length l)) 1)%Qc
    /\ trace (world s') = trace (world s) ++ tr
    /\ gestured tr = map fst l
    /\ written tr = [].
Proof.
  revert s. induction l as [|[[act location] word] l IH]; intros s Hle.
  - exists s, []. cbn [length]. rewrite app_nil_r. repeat split; try done.
    change (5 * Z.of_nat 0) with 0. qc_to_q. ring.
  - destruct (actOutReference_run ("Touch the " +:+ word +:+ " block.")
                act location s (Hle _ _ _))
      as (s1 & w & Hrun & Hself & Hlat & Hprocs & Hclock & Htrace).
    destruct (IH s1) as (s' & tr & Hrest & Hself' & Hlat' & Hprocs' & Hclock'
                         & Htrace' & Hgest & Hwrit).
    { intros p a loc. rewrite (dispatch_overhead_latency _ _ _ _ _ Hlat).
      apply Hle. }
    exists s', ([Speak ("Touch the " +:+ word +:+ " block.") false;
                 DoGesture act location (Some false); Sleep w] ++ tr).
    split.
    { unfold act_out in *. cbn [for_each]. unfold bind. by rewrite Hrun. }
    split; [congruence|]. split; [congruence|]. split; [congruence|]. split.
    { rewrite Hclock', Hclock. cbn [length].
      replace (5 * Z.of_nat (S (length l))) with (5 + 5 * Z.of_nat (length l))
        by lia.
      rewrite ratio_plus. qc_to_q. ring. }
    split; [by rewrite Htrace', Htrace, <- app_assoc|].
    split.
    + unfold gestured in *. rewrite omap_app, Hgest. done.
    + unfold written in *. rewrite omap_app, Hwrit. done.
Qed.

Lemma row_requests_readings (c : Controller) (objs : list Lego) :
  gestured (flat_map (row_requests scoring c) objs) = []
  /\ written (flat_map (row_requests scoring c) objs)
     = map (fun o => (idnum o, correct_act scoring c o)) objs
  /\ forallb quiet (flat_map (row_requests scoring c) objs) = true.
Proof.
  induction objs as [|o objs (IHg & IHw & IHq)]; [done|].
  cbn [flat_map]. unfold gestured, written in *.
  rewrite !omap_app, forallb_app, IHg, IHw, IHq. done.
Qed.

Lemma buildActionList_run s :
  (forall k o, objdict (self s) !! k = Some o -> idnum o = k /\ words o <> []) ->
  saliency_scores (self s) <> None ->
  buildActionList scoring s
  = (Ok (map entry_of (action_pairs (map_to_list (objdict (self s))).*2)),
     traced s (flat_map (row_requests scoring (self s))
                 (map_to_list (objdict (self s))).*2)).
Proof.
  intros Hreg Hsal. unfold buildActionList, bind. cbn [get_self].
  rewrite fold_validation_run; [done| |done].
  apply list.Forall_forall. intros o Ho.
  apply elem_of_registry_values in Ho as [k Hk].
  destruct (Hreg k o Hk) as [Hid Hw]. split; [done|]. rewrite Hid. eauto.
Qed.

(** X8. The file of correct actions gets one line per object of the
    registry, in the order of the loop, with the object's ID and the action
    the selector returns for its first descriptor word; building the list
    sends nothing to the robot and leaves the controller, the clock and the
    process table as they were. *)
Theorem correct_action_lines s :
  (forall k o, objdict (self s) !! k = Some o -> idnum o = k /\ words o <> []) ->
  saliency_scores (self s) <> None ->
  exists l tr,
    buildActionList scoring s = (Ok l, traced s tr)
    /\ written tr
       = map (fun o => (idnum o, correct_act scoring (self s) o))
           (map_to_list (objdict (self s))).*2
    /\ length (written tr) = size (objdict (self s))
    /\ forallb quiet tr = true.
Proof.
  intros Hreg Hsal. eexists _, _. split; [by apply buildActionList_run|].
  destruct (row_requests_readings (self s) (map_to_list (objdict (self s))).*2)
    as (_ & Hw & Hq).
  split; [done|]. split; [|done].
  by rewrite Hw, length_map, length_fmap, length_map_to_list.
Qed.

Lemma systemValidation_run s :
  (forall k o, objdict (self s) !! k = Some o -> idnum o = k /\ words o <> []) ->
  saliency_scores (self s) <> None ->
  (forall prompt action location,
     (dispatch_overhead prompt action location (world s) <= ratio 5 1)%Qc) ->
  exists l' s' tr,
    systemValidation scoring s = (Ok tt, s')
    /\ self s' = self s
    /\ procs (world s') = procs (world s)
    /\ l' ≡ₚ map entry_of (action_pairs (map_to_list (objdict (self s))).*2)
    /\ trace (world s') = trace (world s) ++ tr
    /\ gestured tr = map fst l'
    /\ clock (world s')
       = (clock (world s)
          + latency (world s) (ReadScript (validationScript (self s)) None)
          + ratio (20 * Z.of_nat (size (objdict (self s)))) 1)%Qc.
Proof.
  intros Hreg Hsal Hle. rewrite systemValidation_unfold.
  rewrite buildActionList_run by done.
  set (objs := (map_to_list (objdict (self s))).*2).
  set (s1 := traced s (flat_map (row_requests scoring (self s)) objs)).
  destruct (random_shuffle_run (map entry_of (action_pairs objs)) s1)
    as (l' & n & Hshuffle & Hperm).
  rewrite Hshuffle. unfold bind at 1. cbn [get_self]. unfold bind at 1.
  rewrite request_run. cbv beta iota. cbn [world self].
  set (s3 := mkSession _ _).
  destruct (act_out_run l' s3)
    as (s' & tr & Hrun & Hself & _ & Hprocs & Hclock & Htrace & Hgest & _).
  { intros p a loc. apply Hle. }
  exists l', s', (flat_map (row_requests scoring (self s)) objs
                  ++ [ReadScript (validationScript (self s)) None] ++ tr).
  split; [exact Hrun|]. split; [by rewrite Hself|].
  split; [by rewrite Hprocs|]. split; [done|]. split.
  { rewrite Htrace. subst s3 s1. cbn. by rewrite <- !app_assoc. }
  split.
  { destruct (row_requests_readings (self s) objs) as (Hg & _).
    unfold gestured in *. by rewrite !omap_app, Hg, Hgest. }
  rewrite Hclock. subst s3 s1.
  cbn [world clock latency set_trace set_clock set_drawn traced self].
  f_equal. f_equal.
  rewrite (Permutation_length Hperm), length_map, action_pairs_length.
  subst objs. rewrite length_fmap, length_map_to_list. lia.
Qed.

(** X9. When every object has descriptor words and every pair of requests
    to the robot fits the 5-second budget, [systemValidation] returns: the
    robot gestures once for each pair of an action and a registry object,
    at the object's position, in the shuffled order; the phase takes the
    time the script reader needs for the validation script and then
    exactly 20 seconds per object; the controller and the process table
    are unchanged. *)
Theorem systemValidation_completes s :
  (forall k o, objdict (self s) !! k = Some o -> idnum o = k /\ words o <> []) ->
  saliency_scores (self s) <> None ->
  (forall prompt action location,
     (dispatch_overhead prompt action location (world s) <= ratio 5 1)%Qc) ->
  exists s' tr,
    systemValidation scoring s = (Ok tt, s')
    /\ self s' = self s
    /\ procs (world s') = procs (world s)
    /\ trace (world s') = trace (world s) ++ tr
    /\ gestured tr
       ≡ₚ map (fun p => (p.1, loc p.2))
            (action_pairs (map_to_list (objdict (self s))).*2)
    /\ clock (world s')
       = (clock (world s)
          + latency (world s) (ReadScript (validationScript (self s)) None)
          + ratio (20 * Z.of_nat (size (objdict (self s)))) 1)%Qc.
Proof.
  intros Hreg Hsal Hle.
  destruct (systemValidation_run s Hreg Hsal Hle)
    as (l' & s' & tr & Hrun & Hself & Hprocs & Hperm & Htrace & Hgest & Hclock).
  exists s', tr. repeat (split; [done|]). split; [|done].
  rewrite Hgest, Hperm. rewrite <- list_fmap_compose. done.
Qed.

Lemma startup_ok_lookup s :
  (startup s).1 = Ok tt ->
  dom (objdict (self s)) = six_ids
  /\ forall k, objdict (self (startup s).2) !! k
               = started k <$> objdict (self s) !! k.
Proof.
  intros Hrun.
  destruct (decide (size (objdict (self s)) = 6%nat)) as [Hsize|Hsize].
  2: { by rewrite startup_wrong_size in Hrun. }
  destruct (startup_six s Hsize) as [(_ & o0 & o1 & o2 & o3 & o4 & o5 & H)
                                    |[Hkey _]].
  2: { by rewrite Hkey in Hrun. }
  destruct H as (H0 & H1 & H2 & H3 & H4 & H5). split.
  - by apply (six_ids_present _ o0 o1 o2 o3 o4 o5).
  - destruct (startup_assigns s o0 o1 o2 o3 o4 o5) as (s' & Hs' & _ & Hd);
      try done.
    intros k. rewrite Hs'. cbn [snd]. rewrite Hd. by apply started_lookup.
Qed.

Lemma six_ids_words (k : Z) :
  k ∈ six_ids -> exists w ws, startup_words k = Some (w :: ws).
Proof.
  unfold six_ids. rewrite elem_of_list_to_set, !list.elem_of_cons.
  intros [->|[->|[->|[->|[->|[->|Hk]]]]]]; [by eexists _, _..|].
  by apply list.elem_of_nil in Hk.
Qed.

(** X10. [startup] establishes what [systemValidation] asserts: after a
    [startup] that returns, on a registry keyed by [idnum], every object
    has its descriptor words and the registry is still keyed by [idnum],
    the saliency scores are as before, and the action list is built, with
    its 24 entries. *)
Theorem startup_prepares_validation s :
  keyed (self s) ->
  saliency_scores (self s) <> None ->
  (startup s).1 = Ok tt ->
  (forall k o, objdict (self (startup s).2) !! k = Some o ->
               idnum o = k /\ Some (words o) = startup_words k)
  /\ saliency_scores (self (startup s).2) = saliency_scores (self s)
  /\ exists l tr,
       buildActionList scoring (startup s).2 = (Ok l, traced (startup s).2 tr)
       /\ length l = 24%nat.
Proof.
  intros Hkeyed Hsal Hrun.
  destruct (startup_ok_lookup s Hrun) as [Hdom Hlook].
  assert (Hreg : forall k o, objdict (self (startup s).2) !! k = Some o ->
                             idnum o = k /\ Some (words o) = startup_words k).
  { intros k o. rewrite Hlook. intros (o0 & Ho0 & ->)%fmap_Some.
    assert (Hk : k ∈ six_ids). { rewrite <- Hdom. apply elem_of_dom. eauto. }
    destruct (six_ids_words k Hk) as (w & ws & Hw).
    unfold started. rewrite Hw. cbn. split; [by apply Hkeyed|done]. }
  assert (Hsal' : saliency_scores (self (startup s).2)
                  = saliency_scores (self s)).
  { by destruct (startup_frame s) as [(_ & _ & ?) _]. }
  split; [done|]. split; [done|].
  eexists _, _. split.
  - apply buildActionList_run; [|by rewrite Hsal'].
    intros k o Hk. destruct (Hreg k o Hk) as [Hid Hw]. split; [done|].
    assert (Hin : k ∈ six_ids).
    { rewrite <- Hdom. apply elem_of_dom. rewrite Hlook in Hk.
      apply fmap_Some in Hk as (o0 & ? & _). eauto. }
    destruct (six_ids_words k Hin) as (w & ws & Hws). congruence.
  - rewrite length_map, action_pairs_length, length_fmap, length_map_to_list.
    assert (Hsize : size (objdict (self (startup s).2)) = 6%nat).
    { rewrite <- size_dom.
      replace (dom (objdict (self (startup s).2))) with six_ids; [done|].
      rewrite <- Hdom. apply set_eq. intros k. rewrite !elem_of_dom, Hlook.
      by rewrite fmap_is_Some. }
    by rewrite Hsize.
Qed.

End ValidationRun.

(** ** shutdown: what it signals *)

Section ShutdownOutcome.

Implicit Types (s : Session) (ps : gmap Z Proc) (pid : Z).









(** X12. When the recording attribute is unset, or the recording process
    has no child, [shutdown] raises ([AttributeError], [AssertionError])
    once the robot is parked, and no process is signalled: the process
    table and the controller are unchanged. A recording process without
    children is left running. *)
Theorem shutdown_leaves_recording s :
  (rosbags (self s) = None ->
   exists s',
     shutdown s = (Raise AttributeError, s')
     /\ self s' = self s
     /\ procs (world s') = procs (world s)
     /\ trace (world s')
        = trace (world s)
          ++ [Log Warn "Shutting down..." []; RobotShutdown;
              Log Info "Ending rosbag recording" []])
  /\ (forall pid,
        rosbags (self s) = Some pid ->
        children_of (procs (world s)) pid = [] ->
        exists s',
          shutdown s = (Raise AssertionError, s')
          /\ self s' = self s
          /\ procs (world s') = procs (world s)
          /\ trace (world s') = trace (world s) ++ shutdown_prologue pid).
Proof.
  split.
  - intros Hros. unfold shutdown. unfold_m. cbn. rewrite Hros. cbn.
    eexists. split; [reflexivity|]. cbn. by rewrite <- !app_assoc.
  - intros pid Hros Hkids. unfold shutdown, ps_ppid. unfold_m. cbn.
    rewrite Hros. cbn. rewrite Hkids. cbn.
    eexists. split; [reflexivity|]. cbn. by rewrite <- !app_assoc.
Qed.

End ShutdownOutcome.

(** ** The constructor: waiting, and the saliency scores *)

Section Constructor.

Variable scoring :
  gmap Z Qc -> Z -> gmap Z Lego -> list string ->
  gmap Z (list Qc) -> gmap Z (list Qc) -> Action.
Variable saliency_of : Z -> gmap Z Lego -> gmap Z Qc.

Implicit Types (s : Session) (mc : Machine) (ev : Event).

Lemma wait_loop s (n : nat) :
  scores_arrived (self s) = false ->
  exists s',
    run scoring saliency_of (mkMachine Waiting s) (replicate n MainThread)
    = mkMachine Waiting s'
    /\ self s' = self s
    /\ clock (world s') = (clock (world s) + ratio (Z.of_nat n) 1)%Qc
    /\ trace (world s') = trace (world s) ++ replicate n (Sleep (ratio 1 1)).
Proof.
  revert s. induction n as [|n IH]; intros s Hno.
  - exists s. cbn. rewrite app_nil_r. repeat split; try done. qc_to_q. ring.
  - cbn [replicate run foldl step]. unfold step_main. cbn [phase session].
    rewrite poll_run, Hno.
    destruct (IH (slept s (ratio 1 1))) as (s' & Hrun & Hself & Hclock & Htrace);
      [done|].
    exists s'. split; [exact Hrun|]. split; [by rewrite Hself|]. split.
    + rewrite Hclock. cbn [slept world clock set_clock].
      replace (Z.of_nat (S n)) with (1 + Z.of_nat n) by lia.
      rewrite ratio_plus. qc_to_q. ring.
    + rewrite Htrace. cbn. by rewrite <- app_assoc.
Qed.

(** X13. As long as a score store is empty and no message comes, the
    constructor does not get past [waitForGazePointScores]: after any
    number [n] of tests of the stores the main thread still waits, having
    slept [n] seconds and done nothing else. Once both stores hold a
    record the next test leaves the loop without sleeping, and one more
    second of sleep ends the wait. *)
Theorem wait_needs_both_scores s :
  (scores_arrived (self s) = false ->
   forall n : nat,
     exists s',
       run scoring saliency_of (mkMachine Waiting s) (replicate n MainThread)
       = mkMachine Waiting s'
       /\ self s' = self s
       /\ clock (world s') = (clock (world s) + ratio (Z.of_nat n) 1)%Qc
       /\ trace (world s')
          = trace (world s) ++ replicate n (Sleep (ratio 1 1)))
  /\ (scores_arrived (self s) = true ->
      run scoring saliency_of (mkMachine Waiting s) [MainThread; MainThread]
      = mkMachine Precomputing (slept s (ratio 1 1))).
Proof.
  split.
  - intros Hno n. by apply wait_loop.
  - intros Hyes. cbn [run foldl step]. unfold step_main at 2.
    cbn [phase session]. rewrite poll_run, Hyes.
    unfold step_main. cbn [phase session].
    unfold waitForGazePointScores_settle. rewrite sleep_run by qc_lra. done.
Qed.

Lemma past_init_advance {A} (ok : Phase) (r : result A * Session) :
  past_init ok = true -> past_init (phase (advance ok r)) = true.
Proof. intros Hok. by destruct r as [[a|e] s]. Qed.

Lemma past_init_step mc ev :
  past_init (phase mc) = true ->
  past_init (phase (step scoring saliency_of mc ev)) = true
  /\ saliency_scores (self (session (step scoring saliency_of mc ev)))
     = saliency_scores (self (session mc)).
Proof.
  intros Hph. destruct mc as [ph s]. cbn [phase session] in *.
  assert (Hdeliver : forall cb : M unit,
    (forall s0, saliency_scores (self (cb s0).2) = saliency_scores (self s0)) ->
    past_init (phase (deliver cb (mkMachine ph s))) = true
    /\ saliency_scores (self (session (deliver cb (mkMachine ph s))))
       = saliency_scores (self s)).
  { intros cb Hcb. unfold deliver. cbn [phase session].
    destruct ph; try done; cbn [phase session]; split; try done; apply Hcb. }
  assert (Hmain : forall {A} (ok : Phase) (m : M A),
    past_init ok = true ->
    saliency_scores (self (m s).2) = saliency_scores (self s) ->
    past_init (phase (advance ok (m s))) = true
    /\ saliency_scores (self (session (advance ok (m s))))
       = saliency_scores (self s)).
  { intros A ok m Hok Hm. split; [by apply past_init_advance|].
    by rewrite advance_session. }
  destruct ev as [m|m|m|]; cbn [step].
  - apply Hdeliver. intros s0.
    by destruct (objectsInfoCallback_frame m s0) as [(_ & _ & ?) _].
  - apply Hdeliver. intros s0.
    by destruct (gazepointInfoCallback_frame m s0) as [[? _] _].
  - apply Hdeliver. intros s0.
    destruct (objectRefCallback_frame scoring m s0) as [Hs _]. by rewrite <- Hs.
  - unfold step_main. cbn [phase session]. destruct ph; try done.
    + apply Hmain; [done|]. by destruct (startup_frame s) as [(_ & _ & ?) _].
    + apply Hmain; [done|].
      destruct (systemValidation_frame scoring s) as [Hs _]. by rewrite <- Hs.
    + destruct (shutdown_frame s) as [Hs _]. cbn [phase session].
      by rewrite <- Hs.
    + destruct (shutdown_frame s) as [Hs _]. cbn [phase session].
      by rewrite <- Hs.
Qed.

Lemma past_init_run mc (evs : list Event) :
  past_init (phase mc) = true ->
  saliency_scores (self (session (run scoring saliency_of mc evs)))
  = saliency_scores (self (session mc)).
Proof.
  revert mc. induction evs as [|ev evs IH]; intros mc Hph; [done|].
  cbn [run foldl]. destruct (past_init_step mc ev Hph) as [Hph' Hsal].
  fold (run scoring saliency_of (step scoring saliency_of mc ev) evs).
  by rewrite IH.
Qed.

(** X14. The saliency scores are a snapshot taken once, at the last line
    of [__init__]: with a frame in the camera they are computed from that
    frame and from the registry of that moment, and nothing that happens
    afterwards changes them, whatever objects the sensor adds or moves;
    without a frame the constructor raises, the interpreter exits and the
    scores stay as they were. *)
Theorem saliency_is_a_snapshot s (evs : list Event) :
  let mc := step scoring saliency_of (mkMachine Precomputing s) MainThread in
  phase mc = match camera (world s) with
             | Some _ => Constructed
             | None => Exiting
             end
  /\ saliency_scores (self (session (run scoring saliency_of mc evs)))
     = match camera (world s) with
       | Some frame => Some (saliency_of frame (objdict (self s)))
       | None => saliency_scores (self s)
       end.
Proof.
  intros mc. subst mc. cbn [step]. unfold step_main. cbn [phase session].
  assert (Hinit : init_saliency_scores saliency_of s
    = match camera (world s) with
      | Some frame =>
        (Ok tt,
         mkSession
           (set_saliency_scores (self s) (saliency_of frame (objdict (self s))))
           (world (init_saliency_scores saliency_of s).2))
      | None => (Raise IOError, (init_saliency_scores saliency_of s).2)
      end
    /\ (camera (world s) = None ->
        self (init_saliency_scores saliency_of s).2 = self s)).
  { unfold init_saliency_scores, precomputeSaliencyScores,
      calculateSaliencyScores. unfold_m. cbn.
    destruct (camera (world s)); cbn; done. }
  destruct Hinit as [Hinit Hnone]. rewrite Hinit.
  destruct (camera (world s)) as [frame|]; cbn [advance].
  - split; [done|]. by rewrite past_init_run.
  - split; [done|]. rewrite past_init_run by done. cbn [session].
    by rewrite Hnone.
Qed.

End Constructor.

(** ** The words of a reference *)

Section Words.

Implicit Types (s t cur : string) (ch : ascii).

Lemma append_cons ch s t : String ch s +:+ t = String ch (s +:+ t).
Proof. done. Qed.

Lemma all_word_chars_app s t :
  all_word_chars (s +:+ t) = all_word_chars s && all_word_chars t.
Proof.
  induction s as [|ch s IH]; [done|]. rewrite append_cons.
  cbn [all_word_chars]. by rewrite IH, andb_assoc.
Qed.

Lemma append_nil_r s : s +:+ EmptyString = s.
Proof.
  induction s as [|ch s IH]; [done|]. by rewrite append_cons, IH.
Qed.

Lemma append_assoc s t u : (s +:+ t) +:+ u = s +:+ (t +:+ u).
Proof.
  induction s as [|ch s IH]; [done|]. by rewrite !append_cons, IH.
Qed.

Lemma flush_word cur :
  all_word_chars cur = true ->
  Forall (fun t => t <> EmptyString /\ all_word_chars t = true) (flush cur).
Proof.
  intros Hcur. destruct cur; cbn; [constructor|].
  constructor; [done|constructor].
Qed.

Lemma findall_from_words cur s :
  all_word_chars cur = true ->
  Forall (fun t => t <> EmptyString /\ all_word_chars t = true)
    (findall_from cur s).
Proof.
  revert cur. induction s as [|ch s IH]; intros cur Hcur; cbn [findall_from].
  - by apply flush_word.
  - destruct (is_word_char ch) eqn:Hch.
    + apply IH. rewrite all_word_chars_app, Hcur.
      cbn [all_word_chars andb]. by rewrite Hch.
    + apply Forall_app. split; [by apply flush_word|by apply IH].
Qed.

Lemma findall_from_word cur s :
  all_word_chars s = true -> findall_from cur s = flush (cur +:+ s).
Proof.
  revert cur. induction s as [|ch s IH]; intros cur Hs; cbn [findall_from].
  - by rewrite append_nil_r.
  - cbn in Hs. apply andb_true_iff in Hs as [Hch Hs]. rewrite Hch.
    rewrite IH by done. by rewrite append_assoc.
Qed.

Lemma findall_from_separator cur s ch t :
  is_word_char ch = false ->
  findall_from cur (s +:+ String ch t)
  = findall_from cur s ++ findall_words t.
Proof.
  intros Hch. revert cur. induction s as [|a s IH]; intros cur.
  - change (EmptyString +:+ String ch t) with (String ch t).
    cbn [findall_from]. by rewrite Hch.
  - rewrite append_cons. cbn [findall_from].
    destruct (is_word_char a); [apply IH|].
    by rewrite IH, app_assoc.
Qed.

(** X15. Every word [findNVBForRef] passes to the model is a non-empty
    string of letters, digits, underscores and apostrophes; and a
    non-empty string of such characters is passed whole, as one word. *)
Theorem findall_words_are_words :
  (forall s,
     Forall (fun t => t <> EmptyString /\ all_word_chars t = true)
       (findall_words s))
  /\ (forall ch s,
        all_word_chars (String ch s) = true ->
        findall_words (String ch s) = [String ch s]).
Proof.
  split.
  - intros s. by apply findall_from_words.
  - intros ch s Hs. unfold findall_words. by rewrite findall_from_word.
Qed.

(** X16. The words are cut at every other character: the words of
    [s ++ ch ++ t], for a character [ch] outside the class, are the words
    of [s] followed by the words of [t]; the character itself and the
    empty runs between such characters leave no word. *)
Theorem findall_words_cut_at_separator s ch t :
  is_word_char ch = false ->
  findall_words (s +:+ String ch t) = findall_words s ++ findall_words t.
Proof. intros Hch. by apply findall_from_separator. Qed.

End Words.

(** ** More of the rosbag analysis *)

Section RosbagTotals.

Import Rosbags.

Implicit Types (v : Vars) (t : Qc) (bag : list (Msg * Qc)) (a : string).

Lemma credit_total v t : total_actions (vars_of (credit v t)) = total_actions v.
Proof. unfold credit. by repeat case_match. Qed.

Lemma touches_total v t (objlist : list Z) (effectorlist : list string)
    (idxs : list nat) :
  total_actions (vars_of (touches v t objlist effectorlist idxs))
  = total_actions v.
Proof.
  induction idxs as [|i idxs IH]; cbn [touches]; [done|].
  repeat case_match; try done. apply credit_total.
Qed.

Lemma on_human_behavior_total v t (objlist : list Z)
    (effectorlist : list string) :
  total_actions (vars_of (on_human_behavior v t objlist effectorlist))
  = total_actions v.
Proof.
  unfold on_human_behavior. repeat case_match; try done. apply touches_total.
Qed.

Lemma on_human_behavior_no_break v t (objlist : list Z)
    (effectorlist : list string) v' :
  on_human_behavior v t objlist effectorlist <> Break v'.
Proof.
  assert (Hcredit : forall v0, credit v0 t <> Break v').
  { intros v0. unfold credit. by repeat case_match. }
  assert (Htouches : forall idxs,
            touches v t objlist effectorlist idxs <> Break v').
  { induction idxs as [|i idxs IH]; cbn [touches]; [done|].
    by repeat case_match. }
  unfold on_human_behavior. by repeat case_match.
Qed.

Lemma read_messages_counts bag v a (n0 : Qc) :
  ended (read_messages v bag) ->
  total_actions v !! a = Some n0 ->
  total_actions (vars_of (read_messages v bag)) !! a
  = Some (n0 + ratio (Z.of_nat (behaviors a (before_break bag))) 1)%Qc.
Proof.
  revert v n0. induction bag as [|[m t] bag IH]; intros v n0 Hend Hn0.
  - cbn. rewrite Hn0. f_equal. qc_to_q. ring.
  - cbn [read_messages] in *. destruct m as [data|object_id action|target effector].
    + cbn [turn] in *. cbn [before_break].
      destruct (String.eqb data "HRIConstruction").
      * cbn. rewrite Hn0. f_equal. qc_to_q. ring.
      * cbn [behaviors]. by apply IH.
    + cbn [turn before_break behaviors] in *. unfold on_robot_behavior in *.
      cbn [total_actions] in *.
      destruct (total_actions v !! action) as [n|] eqn:Hn; [|done].
      destruct (String.eqb action a) eqn:Heq.
      * apply String.eqb_eq in Heq. subst action.
        rewrite (IH _ (n0 + ratio 1 1)%Qc); [|done|].
        -- f_equal. replace (Z.of_nat (1 + behaviors a (before_break bag)))
             with (1 + Z.of_nat (behaviors a (before_break bag))) by lia.
           rewrite ratio_plus. qc_to_q. ring.
        -- cbn. rewrite lookup_insert_eq. congruence.
      * apply String.eqb_neq in Heq. rewrite (IH _ n0); [done|done|].
        cbn. by rewrite lookup_insert_ne.
    + cbn [turn before_break behaviors] in *.
      pose proof (on_human_behavior_total v t target effector) as Htot.
      pose proof (on_human_behavior_no_break v t target effector) as Hnb.
      destruct (on_human_behavior v t target effector) as [v'|v'|e v'];
        [|by destruct (Hnb v')|done].
      cbn in Htot. apply IH; [done|]. by rewrite Htot.
Qed.

(** X17. When the loop over the messages ends without an exception, the
    total of each of the four actions is the number of robot behaviors
    with that action among the messages before the first script status
    ['HRIConstruction']; human behaviors and other script statuses do not
    count. *)
Theorem total_actions_counts_behaviors bag a :
  ended (system_validation bag) ->
  a ∈ action_list ->
  total_actions (vars_of (system_validation bag)) !! a
  = Some (ratio (Z.of_nat (behaviors a (before_break bag))) 1).
Proof.
  intros Hend Ha. unfold system_validation in *.
  rewrite (read_messages_counts bag initial a (ratio 0 1) Hend).
  - f_equal. qc_to_q. ring.
  - unfold action_list in Ha. rewrite !list.elem_of_cons in Ha.
    destruct Ha as [->|[->|[->|[->|Ha]]]]; try done.
    by apply list.elem_of_nil in Ha.
Qed.

Lemma read_messages_break (pre post : list (Msg * Qc)) v v' t :
  read_messages v pre = Continue v' ->
  read_messages v (pre ++ (script_status "HRIConstruction", t) :: post)
  = Break v'.
Proof.
  revert v. induction pre as [|[m t0] pre IH]; intros v Hpre.
  - cbn in *. by injection Hpre as ->.
  - cbn [read_messages app] in *.
    destruct (turn v m t0) as [v1|v1|e v1]; [by apply IH|done|done].
Qed.

(** X18. The analysis stops at the first script status
    ['HRIConstruction']: whatever follows it in the stream, the totals are
    those of the messages before it. *)
Theorem messages_after_break_ignored (pre post : list (Msg * Qc)) v t :
  system_validation pre = Continue v ->
  system_validation (pre ++ (script_status "HRIConstruction", t) :: post)
  = Break v.
Proof. apply read_messages_break. Qed.

End RosbagTotals.

Section RosbagResponseTimes.

Import Rosbags.

Implicit Types (v : Vars) (t : Qc) (bag : list (Msg * Qc)) (a : string).

Lemma credit_window v t (t0 : Qc) :
  within_window v -> start_time v = Some t0 -> (t - t0 < t_window)%Qc ->
  within_window (vars_of (credit v t)).
Proof.
  intros Hv Ht0 Hwin. unfold credit.
  destruct (nvb_action v) as [a|]; [|done].
  case_bool_decide; [|done].
  destruct (accuracy v !! a) as [n|] eqn:Hn; [|done].
  cbn [start_time]. rewrite Ht0.
  assert (Hacc : forall b x r,
            <[a := (n + ratio 1 1)%Qc]> (accuracy v) !! b = Some x ->
            responsetime v !! b = Some r -> (r <= t_window * x)%Qc).
  { intros b x r Hx Hr. destruct (decide (a = b)) as [->|Hne].
    - rewrite lookup_insert_eq in Hx. injection Hx as <-.
      pose proof (Hv b n r Hn Hr). unfold t_window in *. qc_lra.
    - rewrite lookup_insert_ne in Hx by done. by apply (Hv b). }
  cbn [responsetime]. destruct (responsetime v !! a) as [r0|] eqn:Hr0;
    [|exact Hacc].
  intros b x r Hx Hr. cbn in Hx, Hr.
  destruct (decide (a = b)) as [->|Hne].
  - rewrite lookup_insert_eq in Hx, Hr. injection Hx as <-. injection Hr as <-.
    pose proof (Hv b n r0 Hn Hr0). unfold t_window in *. qc_lra.
  - rewrite lookup_insert_ne in Hx, Hr by done. by apply (Hv b).
Qed.

Lemma turn_window v (m : Msg) t :
  within_window v -> within_window (vars_of (turn v m t)).
Proof.
  intros Hv. destruct m as [data|object_id action|target effector]; cbn [turn].
  - by destruct (String.eqb data "HRIConstruction").
  - unfold on_robot_behavior. cbn [total_actions].
    by destruct (total_actions v !! action).
  - unfold on_human_behavior. destruct (target_obj v); [|done].
    destruct (start_time v) as [t0|] eqn:Ht0; [|done].
    destruct (Qc_ltb (t - t0) t_window) eqn:Hwin; [|done].
    apply Qc_ltb_true in Hwin.
    destruct (negb _); [done|]. destruct (negb _); [done|].
    generalize (seq 0 (length target)). intros idxs.
    induction idxs as [|i idxs IH]; cbn [touches]; [done|].
    destruct (effector !! i); [|done].
    destruct (_ || _); [|done].
    destruct (target !! i); [|done].
    case_bool_decide; [|done]. by apply (credit_window v t t0).
Qed.

Lemma read_messages_window bag v :
  within_window v -> within_window (vars_of (read_messages v bag)).
Proof.
  revert v. induction bag as [|[m t] bag IH]; intros v Hv; [done|].
  cbn [read_messages]. pose proof (turn_window v m t Hv) as Hturn.
  destruct (turn v m t); cbn in Hturn; [by apply IH|done|done].
Qed.

Lemma credit_nonnegative v t (lb : Qc) :
  nonnegative lb v -> (lb <= t)%Qc -> nonnegative t (vars_of (credit v t)).
Proof.
  intros [Hrt Hstart] Hlb.
  assert (Hsame : nonnegative t v).
  { split; [done|]. intros t0 Ht0. pose proof (Hstart t0 Ht0). qc_lra. }
  unfold credit. destruct (nvb_action v) as [a|]; [|done].
  case_bool_decide; [|done].
  destruct (accuracy v !! a) as [n|]; [|done].
  cbn [start_time]. destruct (start_time v) as [t0|] eqn:Ht0; [|done].
  cbn [responsetime]. destruct (responsetime v !! a) as [r0|] eqn:Hr0.
  2: { split; [done|]. cbn. intros t1 [= <-]. pose proof (Hstart t0 eq_refl).
       qc_lra. }
  split; [|done]. intros b r Hr. cbn in Hr.
  destruct (decide (a = b)) as [->|Hne].
  - rewrite lookup_insert_eq in Hr. injection Hr as <-.
    pose proof (Hrt b r0 Hr0). pose proof (Hstart t0 eq_refl). qc_lra.
  - rewrite lookup_insert_ne in Hr by done. by apply (Hrt b).
Qed.

Lemma turn_nonnegative v (m : Msg) t (lb : Qc) :
  nonnegative lb v -> (lb <= t)%Qc -> nonnegative t (vars_of (turn v m t)).
Proof.
  intros Hv Hlb.
  assert (Hsame : nonnegative t v).
  { destruct Hv as [Hrt Hstart]. split; [done|]. intros t0 Ht0.
    pose proof (Hstart t0 Ht0). qc_lra. }
  destruct m as [data|object_id action|target effector]; cbn [turn].
  - by destruct (String.eqb data "HRIConstruction").
  - destruct Hv as [Hrt _]. unfold on_robot_behavior. cbn [total_actions].
    destruct (total_actions v !! action); cbn; (split; [done|]);
      intros t0 [= <-]; qc_lra.
  - unfold on_human_behavior. destruct (target_obj v); [|done].
    destruct (start_time v) as [t0|] eqn:Ht0; [|done].
    destruct (Qc_ltb (t - t0) t_window); [|done].
    destruct (negb _); [done|]. destruct (negb _); [done|].
    generalize (seq 0 (length target)). intros idxs.
    induction idxs as [|i idxs IH]; cbn [touches]; [done|].
    destruct (effector !! i); [|done].
    destruct (_ || _); [|done].
    destruct (target !! i); [|done].
    case_bool_decide; [|done]. by apply (credit_nonnegative v t lb).
Qed.

Lemma read_messages_nonnegative bag v (lb : Qc) :
  chronological_from lb bag -> nonnegative lb v ->
  forall a r, responsetime (vars_of (read_messages v bag)) !! a = Some r ->
              (ratio 0 1 <= r)%Qc.
Proof.
  revert v lb. induction bag as [|[m t] bag IH]; intros v lb Hbag Hv.
  - by destruct Hv.
  - destruct Hbag as [Hlb Hrest]. cbn [read_messages].
    pose proof (turn_nonnegative v m t lb Hv Hlb) as Hturn.
    destruct (turn v m t) as [v'|v'|e v']; cbn in Hturn.
    + by apply (IH v' t).
    + by destruct Hturn.
    + by destruct Hturn.
Qed.

(** X19. However the loop over the messages ends, the response-time total
    of an action is at most 4 seconds for each touch credited to it; and
    when the time stamps of the stream do not decrease, no response-time
    total is negative. *)
Theorem response_times_within_window bag :
  within_window (vars_of (system_validation bag))
  /\ (chronological bag ->
      forall a r,
        responsetime (vars_of (system_validation bag)) !! a = Some r ->
        (ratio 0 1 <= r)%Qc).
Proof.
  split.
  - apply read_messages_window. intros a x r Hx Hr. cbn in Hx, Hr.
    rewrite Hx in Hr. injection Hr as <-.
    assert (Hzero : x = ratio 0 1).
    { unfold zeros, action_list in Hx. cbn in Hx.
      repeat (apply lookup_insert_Some in Hx as [[_ <-]|[_ Hx]]; [done|]).
      by rewrite lookup_empty in Hx. }
    subst x. unfold t_window. qc_lra.
  - intros Hbag. unfold system_validation.
    assert (Hinit : forall lb, nonnegative lb initial).
    { intros lb. split; [|done]. intros a r Hr. cbn in Hr.
      unfold zeros, action_list in Hr. cbn in Hr.
      repeat (apply lookup_insert_Some in Hr as [[_ <-]|[_ Hr]]; [qc_lra|]).
      by rewrite lookup_empty in Hr. }
    destruct bag as [|[m t] bag]; [by destruct (Hinit (ratio 0 1))|].
    apply (read_messages_nonnegative _ _ t); [|apply Hinit].
    split; [qc_lra|exact Hbag].
Qed.

End RosbagResponseTimes.

Section RosbagAverages.

Import Rosbags.

Implicit Types (v : Vars) (t : Qc) (bag : list (Msg * Qc)) (a : string).

Lemma ratio_positive (z : Z) : (0 < z)%Z -> (ratio 0 1 < ratio z 1)%Qc.
Proof.
  intros Hz. unfold ratio, Qclt, Q2Qc. cbn [this]. rewrite !Qred_correct.
  unfold Qlt. cbn. lia.
Qed.

Lemma Qc_div_le (x n c : Qc) :
  (ratio 0 1 < n)%Qc -> (x <= c * n)%Qc -> (x / n <= c)%Qc.
Proof.
  unfold Qcdiv, Qcinv, ratio, Qclt, Qcle, Qcmult, Q2Qc. cbn [this].
  rewrite !Qred_correct. intros Hn Hx. by apply Qle_shift_div_r.
Qed.

Lemma initial_zero a : a ∈ action_list -> zeros !! a = Some (ratio 0 1).
Proof.
  unfold action_list. rewrite !list.elem_of_cons.
  intros [->|[->|[->|[->|Ha]]]]; try done. by apply list.elem_of_nil in Ha.
Qed.

Lemma initial_within_window : within_window initial.
Proof.
  intros a x r Hx Hr. cbn in Hx, Hr. rewrite Hx in Hr. injection Hr as <-.
  assert (Hzero : x = ratio 0 1).
  { unfold zeros, action_list in Hx. cbn in Hx.
    repeat (apply lookup_insert_Some in Hx as [[_ <-]|[_ Hx]]; [done|]).
    by rewrite lookup_empty in Hx. }
  subst x. unfold t_window. qc_lra.
Qed.

Lemma credit_keys v t a : has_totals a v -> has_totals a (vars_of (credit v t)).
Proof.
  intros [Hacc Hrt]. unfold credit.
  destruct (nvb_action v) as [b|]; [|done].
  case_bool_decide; [|done].
  destruct (accuracy v !! b) as [n|]; [|done].
  cbn [start_time]. destruct (start_time v) as [t0|].
  2: { split; [|done]. cbn. apply lookup_insert_is_Some'. by right. }
  cbn [responsetime]. destruct (responsetime v !! b) as [r|].
  2: { split; [|done]. cbn. apply lookup_insert_is_Some'. by right. }
  split; cbn; apply lookup_insert_is_Some'; by right.
Qed.

Lemma turn_keys v (m : Msg) t a :
  has_totals a v -> has_totals a (vars_of (turn v m t)).
Proof.
  intros Hv. destruct m as [data|object_id action|target effector]; cbn [turn].
  - by destruct (String.eqb data "HRIConstruction").
  - unfold on_robot_behavior. cbn [total_actions].
    by destruct (total_actions v !! action).
  - unfold on_human_behavior. destruct (target_obj v); [|done].
    destruct (start_time v); [|done].
    destruct (Qc_ltb _ _); [|done].
    destruct (negb _); [done|]. destruct (negb _); [done|].
    generalize (seq 0 (length target)). intros idxs.
    induction idxs as [|i idxs IH]; cbn [touches]; [done|].
    destruct (effector !! i); [|done].
    destruct (_ || _); [|done].
    destruct (target !! i); [|done].
    case_bool_decide; [|done]. by apply credit_keys.
Qed.

Lemma read_messages_keys bag v a :
  has_totals a v -> has_totals a (vars_of (read_messages v bag)).
Proof.
  revert v. induction bag as [|[m t] bag IH]; intros v Hv; [done|].
  cbn [read_messages]. pose proof (turn_keys v m t a Hv) as Hturn.
  destruct (turn v m t); cbn in Hturn; [by apply IH|done|done].
Qed.

Lemma average_cases v (actions : list string) (accuracy_data rt_data : list Qc) :
  accuracy_le_total v -> within_window v ->
  (forall a, a ∈ actions ->
     has_totals a v
     /\ exists k : nat, total_actions v !! a = Some (ratio (Z.of_nat k) 1)) ->
  bounded accuracy_data rt_data ->
  (Forall (fun a => total_actions v !! a <> Some (ratio 0 1)) actions ->
   exists acc rts,
     average v actions accuracy_data rt_data = Averages acc rts
     /\ length acc = (length accuracy_data + length actions)%nat
     /\ length rts = (length rt_data + length actions)%nat
     /\ bounded acc rts)
  /\ (Exists (fun a => total_actions v !! a = Some (ratio 0 1)) actions ->
      average v actions accuracy_data rt_data = ZeroDivisionError).
Proof.
  intros Hle Hwin. revert accuracy_data rt_data.
  induction actions as [|a actions IH]; intros accuracy_data rt_data Hkeys Hb.
  - split.
    + intros _. exists accuracy_data, rt_data. cbn. by rewrite !Nat.add_0_r.
    + intros Hex. by inversion Hex.
  - destruct (Hkeys a) as [[[x Hx] [r Hr]] [k Hk]]; [by left|].
    cbn [average]. rewrite Hx, Hk, Hr.
    case_bool_decide as Hzero.
    + split; [|done]. intros Hall. apply list.Forall_cons in Hall as [Ha _].
      rewrite Hk, Hzero in Ha. done.
    + assert (Hpos : (ratio 0 1 < ratio (Z.of_nat k) 1)%Qc).
      { apply ratio_positive. destruct k; [done|lia]. }
      pose proof (Hle a x _ Hx Hk) as Hxn.
      pose proof (Hwin a x r Hx Hr) as Hrx.
      destruct (IH (accuracy_data ++ [(x / ratio (Z.of_nat k) 1)%Qc])
                  (rt_data ++ [(r / ratio (Z.of_nat k) 1)%Qc])) as [IH1 IH2].
      * intros b Hb'. apply Hkeys. by right.
      * destruct Hb as [Hb1 Hb2]. split; apply Forall_app; (split; [done|]);
          apply list.Forall_singleton; apply Qc_div_le; try done;
          unfold t_window in *; revert Hpos Hxn Hrx;
          generalize (ratio (Z.of_nat k) 1); intros n Hpos Hxn Hrx; qc_lra.
      * split.
        -- intros Hall. apply list.Forall_cons in Hall as [_ Hall].
           destruct (IH1 Hall) as (acc & rts & -> & Hl1 & Hl2 & Hbd).
           exists acc, rts. rewrite Hl1, Hl2, !length_app. cbn.
           repeat split; try lia. all: apply Hbd.
        -- intros Hex. apply List.Exists_cons in Hex as [Ha|Hex].
           ++ rewrite Hk in Ha. congruence.
           ++ by apply IH2.
Qed.

(** X20. When the loop over the messages ends without an exception, the
    function returns its averages only if each of the four actions has a
    robot behavior among the messages before the first script status
    ['HRIConstruction']: then it lists four averages of each kind, no
    accuracy above 1 and no response time above the 4-second window.
    When one of the four actions has none, the division raises
    ZeroDivisionError. *)
Theorem averages_need_every_action bag :
  ended (system_validation bag) ->
  (Forall (fun a => behaviors a (before_break bag) <> 0%nat) action_list ->
   exists acc rts,
     system_validation_report bag = Averages acc rts
     /\ length acc = 4%nat /\ length rts = 4%nat /\ bounded acc rts)
  /\ (Exists (fun a => behaviors a (before_break bag) = 0%nat) action_list ->
      system_validation_report bag = ZeroDivisionError).
Proof.
  intros Hend. unfold system_validation_report.
  set (v := vars_of (system_validation bag)).
  assert (Hcount : forall a, a ∈ action_list ->
            total_actions v !! a
            = Some (ratio (Z.of_nat (behaviors a (before_break bag))) 1)).
  { intros a Ha. unfold v, system_validation.
    rewrite (read_messages_counts bag initial a (ratio 0 1) Hend).
    - f_equal. qc_to_q. ring.
    - by apply initial_zero. }
  assert (Hzero : forall a, a ∈ action_list ->
            total_actions v !! a = Some (ratio 0 1)
            <-> behaviors a (before_break bag) = 0%nat).
  { intros a Ha. rewrite (Hcount a Ha). split.
    - intros Hk. destruct (behaviors a (before_break bag)) as [|k]; [done|].
      pose proof (ratio_positive (Z.of_nat (S k)) ltac:(lia)) as Hpos.
      apply Qclt_not_eq in Hpos. congruence.
    - by intros ->. }
  destruct (average_cases v action_list [] []) as [Hall Hex].
  - apply turn_ok_accuracy, read_messages_ok, initial_within_total.
  - apply read_messages_window, initial_within_window.
  - intros a Ha. split.
    + apply read_messages_keys. pose proof (initial_zero a Ha) as Hz.
      unfold has_totals, initial. cbn [accuracy responsetime].
      by rewrite Hz.
    + eexists. by apply Hcount.
  - by split.
  - assert (Hrep : (match system_validation bag with
                    | Continue v0 | Break v0 => average v0 action_list [] []
                    | Raised e _ => Uncaught e
                    end) = average v action_list [] []).
    { unfold v. by destruct (system_validation bag). }
    rewrite Hrep. split.
    + intros Hbeh. apply Hall. apply list.Forall_forall. intros a Ha Hz.
      rewrite list.Forall_forall in Hbeh. apply (Hbeh a Ha). by apply Hzero.
    + intros Hbeh. apply Hex. apply list.Exists_exists.
      apply list.Exists_exists in Hbeh as (a & Ha & Hz).
      exists a. split; [done|]. by apply Hzero.
Qed.

End RosbagAverages.

(** ** The test objects *)

Section TestObjects.

Implicit Types (s : Session).

Lemma initializeObjects_run s :
  initializeObjects s
  = (Ok tt,
     mkSession
       (set_objdict (self s)
          (<[3 := mkLego 3 [ratio 1 1; ratio 0 1; ratio 0 1] [40; 40; 255]
                    [0; 0; 100] ["large"; "blue"; "block"]]>
             (<[2 := mkLego 2 [ratio 1 2; ratio 1 2; ratio 0 1] [40; 255; 40]
                       [0; 100; 0] ["small"; "green"; "cube"]]>
                (<[1 := mkLego 1 [ratio 0 1; ratio 0 1; ratio 0 1]
                          [255; 40; 40] [200; 0; 0] ["small"; "red"; "cube"]]>
                   (objdict (self s))))))
       (world s)).
Proof. unfold initializeObjects. unfold_m. cbn. by destruct (self s). Qed.

(** X21. [initializeObjects] always returns; it stores the three
    hard-coded test objects under the IDs 1, 2 and 3, replacing what was
    there, and leaves every other object, the rest of the controller and
    the world as they were. On a registry that holds nothing else,
    [startup] after it raises [AssertionError], three objects being fewer
    than the six it asserts. *)
Theorem initializeObjects_before_startup s :
  exists s',
    initializeObjects s = (Ok tt, s')
    /\ world s' = world s
    /\ self s' = set_objdict (self s) (objdict (self s'))
    /\ objdict (self s') !! 1
       = Some (mkLego 1 [ratio 0 1; ratio 0 1; ratio 0 1] [255; 40; 40]
                 [200; 0; 0] ["small"; "red"; "cube"])
    /\ objdict (self s') !! 2
       = Some (mkLego 2 [ratio 1 2; ratio 1 2; ratio 0 1] [40; 255; 40]
                 [0; 100; 0] ["small"; "green"; "cube"])
    /\ objdict (self s') !! 3
       = Some (mkLego 3 [ratio 1 1; ratio 0 1; ratio 0 1] [40; 40; 255]
                 [0; 0; 100] ["large"; "blue"; "block"])
    /\ (forall k, k <> 1 -> k <> 2 -> k <> 3 ->
          objdict (self s') !! k = objdict (self s) !! k)
    /\ (dom (objdict (self s)) ⊆ ({[1; 2; 3]} : gset Z) ->
        ((initializeObjects ;; startup) s).1 = Raise AssertionError).
Proof.
  assert (Hlast : dom (objdict (self s)) ⊆ ({[1; 2; 3]} : gset Z) ->
            ((initializeObjects ;; startup) s).1 = Raise AssertionError).
  { intros Hdom. unfold bind at 1. rewrite initializeObjects_run.
    cbn [fst snd]. rewrite startup_wrong_size; [done|].
    destruct s as [[u d nv i h vs g pt sal ro] w]. cbn in *.
    rewrite <- size_dom, !dom_insert_L.
    replace ({[3]} ∪ ({[2]} ∪ ({[1]} ∪ dom d))) with ({[1; 2; 3]} : gset Z);
      [by vm_compute|].
    apply set_eq. intros k.
    rewrite !elem_of_union, !elem_of_singleton. split; [tauto|].
    intros [?|[?|[?|Hk]]]; try tauto. apply Hdom in Hk.
    rewrite !elem_of_union, !elem_of_singleton in Hk. tauto. }
  eexists. split; [apply initializeObjects_run|].
  repeat (split; [|try exact Hlast]); clear Hlast;
    destruct s as [[u d nv i h vs g pt sal ro] w]; cbn; try done.
  - by rewrite lookup_insert_ne, lookup_insert_ne, lookup_insert_eq.
  - by rewrite lookup_insert_ne, lookup_insert_eq.
  - by rewrite lookup_insert_eq.
  - intros k H1 H2 H3. by rewrite !lookup_insert_ne.
Qed.

End TestObjects.

(** ** main *)

Section MainRun.

Variable scoring :
  gmap Z Qc -> Z -> gmap Z Lego -> list string ->
  gmap Z (list Qc) -> gmap Z (list Qc) -> Action.

Implicit Types (s : Session).

#[local] Instance same_setup_preorder : PreOrder same_setup.
Proof.
  split.
  - by intros c.
  - intros c1 c2 c3 (? & ? & ?) (? & ? & ?). unfold same_setup.
    repeat split; congruence.
Qed.

Lemma assign_words_setup (k : Z) (w : list string) :
  respects same_setup any (assign_words k w).
Proof.
  intros s. unfold assign_words. unfold_m. cbn.
  destruct (dict_getitem (objdict (self s)) k); cbn;
    (split; [done|]); exists []; by rewrite app_nil_r.
Qed.

Lemma startup_setup : respects same_setup any startup.
Proof. unfold startup. pose proof assign_words_setup. frame. Qed.

Lemma startup_ready s :
  dom (objdict (self s)) = six_ids -> (startup s).1 = Ok tt.
Proof.
  intros Hdom.
  assert (Hsize : size (objdict (self s)) = 6%nat).
  { by rewrite <- size_dom, Hdom. }
  destruct (startup_six s Hsize) as [[Hrun _]|(_ & k & Hk & Hnone)]; [done|].
  destruct (six_ids_lookup _ k Hdom Hk) as [o Ho]. congruence.
Qed.

(** X22. On a registry keyed by [idnum] that holds the objects 0 to 5, with
    the saliency scores computed and every pair of requests within the
    5-second budget, [main] gets as far as [shutdown], and ends as
    [shutdown] does: the robot stands up and idles, gestures 24 times in
    the validation phase, idles again and the HRI script is read with the
    controller's interrupt flag; by then every object has the words of
    [startup], and the recording process and the process table are as they
    were. *)
Theorem main_reaches_shutdown s :
  keyed (self s) ->
  dom (objdict (self s)) = six_ids ->
  saliency_scores (self s) <> None ->
  (forall prompt action location,
     (dispatch_overhead prompt action location (world s) <= ratio 5 1)%Qc) ->
  exists s' tr,
    main scoring s = shutdown s'
    /\ (forall k, objdict (self s') !! k = started k <$> objdict (self s) !! k)
    /\ rosbags (self s') = rosbags (self s)
    /\ procs (world s') = procs (world s)
    /\ trace (world s')
       = trace (world s) ++ [Stand; Sleep (ratio 5 1); StartIdle] ++ tr
         ++ [StartIdle;
             ReadScript (hriScript (self s)) (Some (interrupt (self s)))]
    /\ length (gestured tr) = 24%nat.
Proof.
  intros Hkeyed Hdom Hsal Hle.
  pose proof (startup_ready s Hdom) as Hok.
  destruct (startup_ok_lookup s Hok) as [_ Hlook].
  pose proof (startup_world s) as Hworld.
  destruct (startup_setup s) as [(Hhri & Hint & Hros) _].
  destruct (startup_frame s) as [(_ & _ & Hsal') _].
  destruct (startup s) as [r s1] eqn:Hst. cbn [fst snd] in *. subst r.
  assert (Hsize : size (objdict (self s1)) = 6%nat).
  { rewrite <- size_dom.
    replace (dom (objdict (self s1))) with six_ids; [done|].
    rewrite <- Hdom. apply set_eq. intros k. rewrite !elem_of_dom, Hlook.
    by rewrite fmap_is_Some. }
  destruct (systemValidation_run scoring s1)
    as (l' & s2 & tr & Hrun & Hself & Hprocs & Hperm & Htrace & Hgest & _).
  { intros k o. rewrite Hlook. intros (o0 & Ho0 & ->)%fmap_Some.
    assert (Hk : k ∈ six_ids). { rewrite <- Hdom. apply elem_of_dom. eauto. }
    destruct (six_ids_words k Hk) as (w & ws & Hw).
    unfold started. rewrite Hw. cbn. split; [by apply Hkeyed|done]. }
  { by rewrite Hsal'. }
  { intros p a loc. unfold dispatch_overhead. rewrite Hworld. apply Hle. }
  eexists _, tr. split; [|split; [|split; [|split; [|split]]]]; cycle 1.
  6: { unfold main. unfold bind at 1. rewrite Hst.
       unfold bind at 1. rewrite Hrun.
       unfold bind at 1. rewrite request_run. cbv beta iota.
       unfold bind at 1. unfold bind at 1. cbn [get_self].
       rewrite request_run. cbv beta iota. reflexivity. }
  - intros k. cbn [self]. by rewrite Hself.
  - cbn [self]. by rewrite Hself.
  - cbn. rewrite Hprocs, Hworld. done.
  - cbn. rewrite Htrace, Hworld, stood_trace, Hself, Hhri, Hint.
    by rewrite <- !app_assoc.
  - rewrite Hgest, length_map. etrans; [apply (Permutation_length Hperm)|].
    rewrite length_map, action_pairs_length, length_fmap, length_map_to_list.
    by rewrite Hsize.
Qed.

End MainRun.

(** ** The further properties on the sample sessions *)

Section MoreOnSamples.

Lemma objectsInfoCallback_short_position_witness :
  objectsInfoCallback
    (mkObjectsInfo 0 [ratio 1 1; ratio 2 1] [255; 40; 40] [200; 0; 0])
    Samples.session
  = (Raise IndexError, Samples.session).
Proof.
  apply (objectsInfoCallback_short_position
           (mkObjectsInfo 0 [ratio 1 1; ratio 2 1] [255; 40; 40] [200; 0; 0])
           Samples.session).
  cbn. lia.
Defined.

Lemma objectRefCallback_known_target_witness :
  exists s',
    objectRefCallback Samples.scoring
      (mkScriptObjectRef 2 "the small yellow block") Samples.session
    = (Ok tt, s').
Proof.
  destruct (objectRefCallback_known_target Samples.scoring Samples.session
              (mkScriptObjectRef 2 "the small yellow block")
              (Samples.brick 2 ["small yellow"]))
    as (s' & tr & Hrun & _).
  - vm_compute. reflexivity.
  - intros _. discriminate.
  - by exists s'.
Defined.

Lemma objectRefCallback_before_init_witness :
  exists s',
    objectRefCallback Samples.scoring
      (mkScriptObjectRef 2 "the small yellow block") Samples.early_session
    = (Raise AttributeError, s').
Proof.
  destruct (objectRefCallback_before_init Samples.scoring Samples.early_session
              (mkScriptObjectRef 2 "the small yellow block")
              (Samples.brick 2 ["small yellow"]))
    as (s' & tr & Hrun & _).
  - vm_compute. reflexivity.
  - reflexivity.
  - reflexivity.
  - by exists s'.
Defined.

Lemma startup_raises_witness :
  (startup Samples.stray_session).1 = Raise AssertionError.
Proof.
  destruct (startup_raises Samples.stray_session) as [Hrun _].
  - refine (bool_decide_eq_false_1 _ _). vm_compute. reflexivity.
  - exact Hrun.
Defined.

Lemma correct_action_lines_witness :
  exists l tr,
    buildActionList Samples.scoring Samples.session
    = (Ok l, traced Samples.session tr)
    /\ length (written tr) = 6%nat.
Proof.
  destruct (correct_action_lines Samples.scoring Samples.session)
    as (l & tr & Hrun & _ & Hlen & _).
  - exact bricks_keyed.
  - discriminate.
  - exists l, tr. split; [exact Hrun|]. rewrite Hlen. vm_compute. reflexivity.
Defined.

Lemma systemValidation_completes_witness :
  exists s',
    systemValidation Samples.scoring Samples.session = (Ok tt, s')
    /\ clock (world s') = ratio 121 1.
Proof.
  destruct (systemValidation_completes Samples.scoring Samples.session)
    as (s' & tr & Hrun & _ & _ & _ & _ & Hclock).
  - exact bricks_keyed.
  - discriminate.
  - intros prompt action location. vm_compute. discriminate.
  - exists s'. split; [exact Hrun|]. rewrite Hclock. vm_compute. reflexivity.
Defined.

Lemma startup_prepares_validation_witness :
  exists l tr,
    buildActionList Samples.scoring (startup Samples.session).2
    = (Ok l, traced (startup Samples.session).2 tr)
    /\ length l = 24%nat.
Proof.
  destruct (startup_prepares_validation Samples.scoring Samples.session)
    as (_ & _ & l & tr & Hrun & Hlen).
  - intros k o Hk. by destruct (bricks_keyed k o Hk).
  - discriminate.
  - apply startup_ready. refine (bool_decide_eq_true_1 _ _).
    vm_compute. reflexivity.
  - exists l, tr. split; [exact Hrun|exact Hlen].
Defined.


Lemma findall_words_cut_at_separator_witness :
  findall_words ("small" +:+ String " " "red")
  = findall_words "small" ++ findall_words "red".
Proof.
  apply (findall_words_cut_at_separator "small" " " "red"). reflexivity.
Defined.

Lemma total_actions_counts_behaviors_witness :
  Rosbags.total_actions (Rosbags.vars_of (Rosbags.system_validation Samples.bag))
    !! "look"
  = Some (ratio
            (Z.of_nat (Rosbags.behaviors "look"
                         (Rosbags.before_break Samples.bag))) 1).
Proof.
  apply (total_actions_counts_behaviors Samples.bag "look").
  - vm_compute. exact I.
  - unfold Rosbags.action_list. rewrite !list.elem_of_cons. tauto.
Defined.

Lemma messages_after_break_ignored_witness :
  Rosbags.system_validation Samples.bag_and_task
  = Rosbags.Break (Rosbags.vars_of (Rosbags.system_validation Samples.bag)).
Proof.
  apply (messages_after_break_ignored Samples.bag
           [(Rosbags.robot_behavior 5 "none", ratio 31 1)]
           (Rosbags.vars_of (Rosbags.system_validation Samples.bag))
           (ratio 30 1)).
  vm_compute. reflexivity.
Defined.

Lemma averages_need_every_action_witness :
  Rosbags.system_validation_report Samples.bag = Rosbags.ZeroDivisionError.
Proof.
  destruct (averages_need_every_action Samples.bag) as [_ Hzero].
  - vm_compute. exact I.
  - apply Hzero. apply List.Exists_cons_hd. reflexivity.
Defined.

Lemma initializeObjects_before_startup_witness :
  ((initializeObjects ;; startup) (session Samples.constructing)).1
  = Raise AssertionError.
Proof.
  destruct (initializeObjects_before_startup (session Samples.constructing))
    as (s' & _ & _ & _ & _ & _ & _ & _ & Hrun).
  apply Hrun. intros k Hk. apply elem_of_dom in Hk as [o Ho].
  vm_compute in Ho. discriminate.
Defined.

Lemma main_reaches_shutdown_witness :
  exists s', main Samples.scoring Samples.session = shutdown s'.
Proof.
  destruct (main_reaches_shutdown Samples.scoring Samples.session)
    as (s' & tr & Hrun & _).
  - intros k o Hk. by destruct (bricks_keyed k o Hk).
  - refine (bool_decide_eq_true_1 _ _). vm_compute. reflexivity.
  - discriminate.
  - intros prompt action location. vm_compute. discriminate.
  - by exists s'.
Defined.

End MoreOnSamples.
